(** * gdb/windows-tdep.c: Windows core-dump and PE decoding

    A shallow embedding of the decoding routines of [gdb/windows-tdep.c]
    (signal mapping, exception-record transfer from a minidump, the
    [info proc] chain walk, the entry-point breakpoint, the import
    directory walk and the module-section scanner), followed by the
    properties established about them.

    Conventions.  Raw bytes are [list byte]; host text is [string].  C
    unsigned integers are [Z] with the reduction modulo [2^w] written where
    the source converts.  External collaborators of the file (target
    memory, the BFD section reader, charset conversion, XML escaping,
    address printing, the symbol server of a Windows host) are fields of
    the records the functions take. *)

From Stdlib Require Import ZArith Bool String Ascii HexadecimalString Lia List.
From Stdlib.Strings Require Import Byte.
Import ListNotations.
Local Open Scope Z_scope.

(* ================================================================= *)
(** * Part I: definitions                                              *)
(* ================================================================= *)

(** ** Bytes and integers *)

Definition byte_val (b : byte) : Z := Z.of_N (Byte.to_N b).

Definition byte_is_nul (b : byte) : bool := byte_val b =? 0.

(** [enum bfd_endian], the two orders a gdbarch can have. *)
Inductive bfd_endian := BFD_ENDIAN_BIG | BFD_ENDIAN_LITTLE.

Fixpoint le_int (bs : list byte) : Z :=
  match bs with
  | [] => 0
  | b :: rest => byte_val b + 256 * le_int rest
  end.

(** [extract_unsigned_integer (buf, len, byte_order)] with [buf] given as
    the [len] bytes it covers. *)
Definition extract_unsigned_integer (bs : list byte) (byte_order : bfd_endian) : Z :=
  match byte_order with
  | BFD_ENDIAN_LITTLE => le_int bs
  | BFD_ENDIAN_BIG => le_int (rev bs)
  end.

(** The bytes [buf[off .. off+len-1]] of a buffer. *)
Definition slice (buf : list byte) (off len : nat) : list byte :=
  firstn len (skipn off buf).

(** A [char *] read as a C string: the bytes before the first NUL. *)
Fixpoint c_str (bs : list byte) : list byte :=
  match bs with
  | [] => []
  | b :: rest => if byte_is_nul b then [] else b :: c_str rest
  end.

(** [startswith (s, prefix)]. *)
Definition startswith (s prefix : string) : bool := String.prefix prefix s.

(** Conversion [(unsigned int) signal] and friends. *)
Definition to_uint32 (z : Z) : Z := z mod 2 ^ 32.
Definition to_uint64 (z : Z) : Z := z mod 2 ^ 64.

(** ** Signal numbers: [windows_gdb_signal_from_target] *)

Module Signals.

Inductive gdb_signal :=
| GDB_SIGNAL_0
| GDB_SIGNAL_INT
| GDB_SIGNAL_ILL
| GDB_SIGNAL_TRAP
| GDB_SIGNAL_ABRT
| GDB_SIGNAL_FPE
| GDB_SIGNAL_SEGV
| GDB_SIGNAL_UNKNOWN.

(** The [case] labels of the switch, grouped as in the source, each group
    with the signal it returns. *)
Definition case_groups : list (list Z * gdb_signal) :=
  [ ([0], GDB_SIGNAL_0);
    ([0xC000005; 0xC0000FD], GDB_SIGNAL_SEGV);
    ([0xC00008C; 0xC00008D; 0xC00008E; 0xC00008F; 0xC000090;
      0xC000091; 0xC000092; 0xC000093; 0xC000094; 0xC000095], GDB_SIGNAL_FPE);
    ([0x8000003; 0x8000004], GDB_SIGNAL_TRAP);
    ([0x4010005; 0x4010008], GDB_SIGNAL_INT);
    ([0xC00001D; 0xC000096; 0xC000025], GDB_SIGNAL_ILL);
    ([0x4000015], GDB_SIGNAL_ABRT) ].

Definition case_constants : list Z := flat_map fst case_groups.

Definition is_label (labels : list Z) (v : Z) : bool :=
  existsb (Z.eqb v) labels.

(** The switch: the first group holding the value decides, and falling
    out of the switch reaches [return GDB_SIGNAL_UNKNOWN]. *)
Fixpoint switch (groups : list (list Z * gdb_signal)) (v : Z) : gdb_signal :=
  match groups with
  | [] => GDB_SIGNAL_UNKNOWN
  | (labels, sig) :: rest => if is_label labels v then sig else switch rest v
  end.

(** [signal] is a C [int]; [unsigned int usignal = signal]. *)
Definition windows_gdb_signal_from_target (signal : Z) : gdb_signal :=
  let usignal := to_uint32 signal in
  switch case_groups usignal.

(** [exception_values], the names given to the [ExceptionCode] enum. *)
Definition exception_values : list (Z * string) :=
  [ (0x40000015, "FATAL_APP_EXIT");
    (0x4000001E, "WX86_SINGLE_STEP");
    (0x4000001F, "WX86_BREAKPOINT");
    (0x40010005, "DBG_CONTROL_C");
    (0x40010008, "DBG_CONTROL_BREAK");
    (0x80000002, "DATATYPE_MISALIGNMENT");
    (0x80000003, "BREAKPOINT");
    (0x80000004, "SINGLE_STEP");
    (0xC0000005, "ACCESS_VIOLATION");
    (0xC0000006, "IN_PAGE_ERROR");
    (0xC000001D, "ILLEGAL_INSTRUCTION");
    (0xC0000025, "NONCONTINUABLE_EXCEPTION");
    (0xC0000026, "INVALID_DISPOSITION");
    (0xC000008C, "ARRAY_BOUNDS_EXCEEDED");
    (0xC000008D, "FLOAT_DENORMAL_OPERAND");
    (0xC000008E, "FLOAT_DIVIDE_BY_ZERO");
    (0xC000008F, "FLOAT_INEXACT_RESULT");
    (0xC0000090, "FLOAT_INVALID_OPERATION");
    (0xC0000091, "FLOAT_OVERFLOW");
    (0xC0000092, "FLOAT_STACK_CHECK");
    (0xC0000093, "FLOAT_UNDERFLOW");
    (0xC0000094, "INTEGER_DIVIDE_BY_ZERO");
    (0xC0000095, "INTEGER_OVERFLOW");
    (0xC0000096, "PRIV_INSTRUCTION");
    (0xC00000FD, "STACK_OVERFLOW");
    (0xC0000409, "FAST_FAIL") ]%string.

Definition exception_name (code : Z) : option string :=
  option_map snd (find (fun e => fst e =? code) exception_values).

End Signals.

(** ** Building sample data *)

(** The byte of value [z mod 256]. *)
Definition byte_of_Z (z : Z) : byte :=
  match Byte.of_N (Z.to_N (z mod 256)) with
  | Some b => b
  | None => x00
  end.

Definition bytes_of (zs : list Z) : list byte := map byte_of_Z zs.

(** [len] bytes of the little-endian representation of [v]. *)
Fixpoint le_bytes (len : nat) (v : Z) : list byte :=
  match len with
  | O => []
  | S len' => byte_of_Z v :: le_bytes len' (v / 256)
  end.

(** ** The binary-container reader *)

(** Modelled from the spec: the BFD section reader is a collaborator of
    this file ([section_by_name(name) -> bytes | Absent], [section_size],
    [for_each_section]).  A section has a name, a virtual address, its
    bytes, and a flag telling whether reading it from the file works. *)
Record asection := {
  sect_name : string;
  sect_vma : Z;
  sect_contents : list byte;
  sect_readable : bool
}.

(** A BFD, as far as this file looks at it: its sections in discovery
    order. *)
Definition bfd := list asection.

Definition bfd_section_size (s : asection) : Z :=
  Z.of_nat (length (sect_contents s)).

(** Modelled from the spec: [bfd_get_section_contents (abfd, sect, buf,
    offset, count)] gives the [count] bytes at [offset], and fails when
    the file cannot be read or the range leaves the section. *)
Definition bfd_get_section_contents (s : asection) (offset count : Z)
  : option (list byte) :=
  if sect_readable s && (offset + count <=? bfd_section_size s)
  then Some (slice (sect_contents s) (Z.to_nat offset) (Z.to_nat count))
  else None.

(** Modelled from the spec: [bfd_get_section_by_name], the first section
    of that name. *)
Definition bfd_get_section_by_name (abfd : bfd) (name : string)
  : option asection :=
  find (fun s => String.eqb (sect_name s) name) abfd.

(** What the functions below ask of a [struct gdbarch]. *)
Record gdbarch := {
  gdbarch_ptr_bit : Z;
  gdbarch_byte_order : bfd_endian
}.

Definition arch32 : gdbarch :=
  {| gdbarch_ptr_bit := 32; gdbarch_byte_order := BFD_ENDIAN_LITTLE |}.

(** ** The exception record of a dump: [windows_core_xfer_siginfo] *)

Module Siginfo.

Definition EXC_SIZE_32 : Z := 80.
Definition EXC_SIZE_64 : Z := 152.

(** [rec[dst] = rec[src]] on a [uint32_t] array held as its bytes: the
    four bytes of word [src] replace the four bytes of word [dst]. *)
Definition copy_word (rec : list byte) (dst src : nat) : list byte :=
  firstn (4 * dst) rec ++ slice rec (4 * src) 4 ++ skipn (4 * dst + 4) rec.

(** [for (r = r0; r < r0 + n; r++) rec[r + 1] = rec[r * 2];] *)
Definition compact_from (r0 n : nat) (rec : list byte) : list byte :=
  fold_left (fun rec r => copy_word rec (r + 1) (r * 2)) (seq r0 n) rec.

(** [for (r = 2; r < 19; r++) rec[r + 1] = rec[r * 2];] *)
Definition compact (rec : list byte) : list byte := compact_from 2 17 rec.

(** The result is [None] for the return value -1 and [Some out] when
    [out] was copied to [readbuf]; the value returned is then the length
    of [out].  [offset] and [len] are [ULONGEST]. *)
Definition windows_core_xfer_siginfo (arch : gdbarch) (core_bfd : bfd)
    (offset len : Z) : option (list byte) :=
  match bfd_get_section_by_name core_bfd ".coreexception" with
  | None => None
  | Some section =>
    (* The exception record of the minidump file is always in 64bit format. *)
    if gdbarch_ptr_bit arch =? 32 then
      if offset >? EXC_SIZE_32 then None
      else if negb (bfd_section_size section =? EXC_SIZE_64) then None
      else match bfd_get_section_contents section 0 EXC_SIZE_64 with
           | None => None
           | Some rec =>
             let rec := compact rec in
             let len := if len >? EXC_SIZE_32 - offset
                        then EXC_SIZE_32 - offset else len in
             Some (slice rec (Z.to_nat offset) (Z.to_nat len))
           end
    else bfd_get_section_contents section offset len
  end.

(** Where byte [p] of the logical 32-bit record comes from in the stored
    64-bit record: code and flags stay in place, and from byte 8 on word
    [p / 4] is the first half of the 8-byte slot [p / 4 - 1]. *)
Definition source_index (p : nat) : nat :=
  if (p <? 8)%nat then p else (8 * (p / 4 - 1) + p mod 4)%nat.

(** A 64-bit record whose 8-byte slots hold the values [0x1122334400 + k],
    so that the two halves of every slot differ. *)
Definition sample_record64 : list byte :=
  le_bytes 4 0xC0000005 ++ le_bytes 4 1
  ++ flat_map (fun k => le_bytes 8 (0x1122334400 + Z.of_nat k)) (seq 1 18).

Definition sample_core : bfd :=
  [ {| sect_name := ".coreexception"; sect_vma := 0;
       sect_contents := sample_record64; sect_readable := true |} ].

End Siginfo.

(** ** Output, warnings and errors *)

(** What a GDB routine does besides returning: it prints with
    [gdb_printf], reports with [warning], and may leave through [error]
    (a C++ exception).  A run is the list of what was printed and warned,
    in order, with how the run ended.  [OutOfBounds] is the outcome of a
    run that indexes a buffer outside its bounds, [OutOfFuel] that of a
    loop cut short by the bound put on its iterations. *)
Inductive event :=
| Printed (text : string)
| Warned (text : string).

Inductive outcome (A : Type) :=
| Returned (a : A)
| Threw (msg : string)
| OutOfBounds
| OutOfFuel.
Arguments Returned {A} a.
Arguments Threw {A} msg.
Arguments OutOfBounds {A}.
Arguments OutOfFuel {A}.

Definition run (A : Type) : Type := list event * outcome A.

Definition ret {A} (a : A) : run A := ([], Returned a).

Definition bind {A B} (m : run A) (k : A -> run B) : run B :=
  match m with
  | (ev, Returned a) => let (ev', r) := k a in (ev ++ ev', r)
  | (ev, Threw msg) => (ev, Threw msg)
  | (ev, OutOfBounds) => (ev, OutOfBounds)
  | (ev, OutOfFuel) => (ev, OutOfFuel)
  end.

Definition error {A} (msg : string) : run A := ([], Threw msg).
Definition gdb_printf (text : string) : run unit := ([Printed text], Returned tt).
Definition warning (text : string) : run unit := ([Warned text], Returned tt).
Definition when (b : bool) (m : run unit) : run unit := if b then m else ret tt.

(** [gdb_assert (expr)]: an internal error when [expr] is false. *)
Definition gdb_assert (b : bool) (expr : string) : run unit :=
  if b then ret tt else error ("Assertion `" ++ expr ++ "' failed.").

(** Modelled from the spec: [hex_string], the printer behind the [0x...]
    addresses of warnings. *)
Definition hex_string (v : Z) : string :=
  "0x" ++ NilZero.string_of_uint (N.to_hex_uint (Z.to_N v)).

Declare Scope run_scope.
Delimit Scope run_scope with run.
Notation "x <- m ;; k" := (bind m (fun x => k))
  (at level 61, m at next level, right associativity) : run_scope.
Notation "m ;; k" := (bind m (fun _ => k))
  (at level 61, right associativity) : run_scope.

Definition newline : string := String (ascii_of_nat 10) EmptyString.

(** The double quote, as a one-character string. *)
Definition dquote : string := String (ascii_of_nat 34) EmptyString.

Definition events {A} (r : run A) : list event := fst r.
Definition result {A} (r : run A) : outcome A := snd r.

(** ** The [info proc] chain walk: [read_unicode_string], [windows_info_proc] *)

Module InfoProc.

(** Modelled from the spec: the target collaborator
    ([read_memory(address, length) -> bytes | Fail(Unreadable)],
    [thread_local_base], [has_execution]) and the charset conversion
    ([wide_bytes_to_host_string]).  Memory is the partial map of its
    readable bytes. *)
Record target := {
  target_memory : Z -> option byte;
  target_has_execution : bool;
  core_bfd : option bfd;
  (* target_get_tib_address (inferior_ptid, &tlb) *)
  target_get_tib_address : option Z;
  (* convert_between_encodings (target_wide_charset, host_charset, ...) *)
  wide_to_host : list byte -> list byte
}.

Fixpoint read_bytes (mem : Z -> option byte) (addr : Z) (len : nat)
  : option (list byte) :=
  match len with
  | O => Some []
  | S len' =>
    match mem addr, read_bytes mem (to_uint64 (addr + 1)) len' with
    | Some b, Some bs => Some (b :: bs)
    | _, _ => None
    end
  end.

(** [target_read_memory (memaddr, buf, len)]: [Some] for the return value
    0, with the bytes stored to [buf]. *)
Definition target_read_memory (t : target) (memaddr len : Z) : option (list byte) :=
  read_bytes (target_memory t) memaddr (Z.to_nat len).

(** [ptr_bytes] is 4 or 8.  The result is a [std::string] built from the
    [char *] at the base of the obstack, which ends at the first NUL. *)
Definition read_unicode_string (t : target) (addr : Z)
    (byte_order : bfd_endian) (ptr_bytes : Z) : option string :=
  match target_read_memory t addr 2 with
  | None => None
  | Some buf =>
    let length := extract_unsigned_integer buf byte_order in
    if length >? 0 then
      match target_read_memory t (to_uint64 (addr + ptr_bytes)) ptr_bytes with
      | None => None
      | Some buf =>
        let buffer := extract_unsigned_integer buf byte_order in
        match target_read_memory t buffer length with
        | None => None
        | Some str_buf =>
          let obs := wide_to_host t str_buf ++ [x00] in
          Some (string_of_list_byte (c_str obs))
        end
      end
    else None
  end.

(** Modelled from the spec: [enum info_proc_what] is declared in defs.h. *)
Inductive info_proc_what :=
| IP_MINIMAL | IP_MAPPINGS | IP_STATUS | IP_STAT | IP_CMDLINE
| IP_EXE | IP_CWD | IP_FILES | IP_ALL.

Definition what_eqb (a b : info_proc_what) : bool :=
  match a, b with
  | IP_MINIMAL, IP_MINIMAL | IP_MAPPINGS, IP_MAPPINGS | IP_STATUS, IP_STATUS
  | IP_STAT, IP_STAT | IP_CMDLINE, IP_CMDLINE | IP_EXE, IP_EXE
  | IP_CWD, IP_CWD | IP_FILES, IP_FILES | IP_ALL, IP_ALL => true
  | _, _ => false
  end.

(** The offsets chosen by pointer width. *)
Record layout := {
  ptr_bytes : Z;
  peb_offset : Z;  (* Offset of process_environment_block in TIB.  *)
  pp_offset : Z;   (* Offset of process_parameters in PEB.  *)
  cmd_offset : Z;  (* Offset of command_line in rtl_user_process_parameters.  *)
  cwd_offset : Z;  (* Offset of current_directory in rtl_user_process_parameters.  *)
  exe_offset : Z   (* Offset of image_path_name in rtl_user_process_parameters.  *)
}.

Definition layout_for (arch : gdbarch) : layout :=
  if gdbarch_ptr_bit arch =? 32
  then {| ptr_bytes := 4; peb_offset := 48; pp_offset := 16;
          cmd_offset := 64; cwd_offset := 36; exe_offset := 56 |}
  else {| ptr_bytes := 8; peb_offset := 96; pp_offset := 32;
          cmd_offset := 112; cwd_offset := 56; exe_offset := 96 |}.

(** [args && args[0]] *)
Definition has_args (args : option string) : bool :=
  match args with
  | Some (String _ _) => true
  | _ => false
  end.

Definition no_string : option string := None.

Local Open Scope run_scope.

Definition windows_info_proc (t : target) (arch : gdbarch)
    (args : option string) (what : info_proc_what) : run unit :=
  when (has_args args) (error "Only supported for the current process") ;;
  when (negb (target_has_execution t)
        && match core_bfd t with None => true | Some _ => false end)
       (error "No current process") ;;
  let byte_order := gdbarch_byte_order arch in
  let l := layout_for arch in
  let want_cmd := what_eqb what IP_MINIMAL || what_eqb what IP_CMDLINE
                  || what_eqb what IP_ALL in
  let want_cwd := what_eqb what IP_MINIMAL || what_eqb what IP_CWD
                  || what_eqb what IP_ALL in
  let want_exe := what_eqb what IP_MINIMAL || what_eqb what IP_EXE
                  || what_eqb what IP_ALL in
  let none := (no_string, no_string, no_string) in
  let '(cmd_str, cwd_str, exe_str) :=
    if want_cmd || want_cwd || want_exe then
      match target_get_tib_address t with
      | None => none
      | Some tlb =>
        match target_read_memory t (to_uint64 (tlb + peb_offset l)) (ptr_bytes l) with
        | None => none
        | Some buf =>
          let peb := extract_unsigned_integer buf byte_order in
          match target_read_memory t (to_uint64 (peb + pp_offset l)) (ptr_bytes l) with
          | None => none
          | Some buf =>
            let pp := extract_unsigned_integer buf byte_order in
            ((if want_cmd
              then read_unicode_string t (to_uint64 (pp + cmd_offset l))
                     byte_order (ptr_bytes l)
              else None),
             (if want_cwd
              then read_unicode_string t (to_uint64 (pp + cwd_offset l))
                     byte_order (ptr_bytes l)
              else None),
             (if want_exe
              then read_unicode_string t (to_uint64 (pp + exe_offset l))
                     byte_order (ptr_bytes l)
              else None))
          end
        end
      end
    else none in
  when want_cmd
    (match cmd_str with
     | Some s => gdb_printf ("cmdline = '" ++ s ++ "'" ++ newline)
     | None => warning "unable to read cmdline"
     end) ;;
  when want_cwd
    (match cwd_str with
     | Some s => gdb_printf ("cwd = '" ++ s ++ "'" ++ newline)
     | None => warning "unable to read cwd"
     end) ;;
  when want_exe
    (match exe_str with
     | Some s => gdb_printf ("exe = '" ++ s ++ "'" ++ newline)
     | None => warning "unable to read exe"
     end).

Local Close Scope run_scope.

(** *** The contract of the spec, field by field *)

Inductive proc_field := CmdLine | Cwd | Exe.

Definition field_name (f : proc_field) : string :=
  match f with CmdLine => "cmdline" | Cwd => "cwd" | Exe => "exe" end.

Definition field_offset (l : layout) (f : proc_field) : Z :=
  match f with
  | CmdLine => cmd_offset l
  | Cwd => cwd_offset l
  | Exe => exe_offset l
  end.

Definition wanted (what : info_proc_what) (f : proc_field) : bool :=
  match what, f with
  | IP_MINIMAL, _ | IP_ALL, _ => true
  | IP_CMDLINE, CmdLine | IP_CWD, Cwd | IP_EXE, Exe => true
  | _, _ => false
  end.

(** TIB -> PEB -> process parameters. *)
Definition process_parameters (t : target) (arch : gdbarch) : option Z :=
  let l := layout_for arch in
  match target_get_tib_address t with
  | None => None
  | Some tlb =>
    match target_read_memory t (to_uint64 (tlb + peb_offset l)) (ptr_bytes l) with
    | None => None
    | Some buf =>
      let peb := extract_unsigned_integer buf (gdbarch_byte_order arch) in
      option_map (fun buf => extract_unsigned_integer buf (gdbarch_byte_order arch))
        (target_read_memory t (to_uint64 (peb + pp_offset l)) (ptr_bytes l))
    end
  end.

(** A field on its own: resolve the chain, then read the unicode string
    at the field's offset. *)
Definition field_value (t : target) (arch : gdbarch) (f : proc_field)
  : option string :=
  match process_parameters t arch with
  | None => None
  | Some pp =>
    read_unicode_string t (to_uint64 (pp + field_offset (layout_for arch) f))
      (gdbarch_byte_order arch) (ptr_bytes (layout_for arch))
  end.

(** What one requested field contributes to the output. *)
Definition field_report (f : proc_field) (v : option string) : event :=
  match v with
  | Some s => Printed (field_name f ++ " = '" ++ s ++ "'" ++ newline)
  | None => Warned ("unable to read " ++ field_name f)
  end.

(** The requested fields, in the order they are reported. *)
Definition requested (what : info_proc_what) : list proc_field :=
  filter (wanted what) [CmdLine; Cwd; Exe].

(** *** Sample targets *)

(** Memory holding the given byte runs at the given addresses. *)
Fixpoint memory_of (regions : list (Z * list byte)) (a : Z) : option byte :=
  match regions with
  | [] => None
  | (base, bytes) :: rest =>
    if (base <=? a) && (a <? base + Z.of_nat (length bytes))
    then nth_error bytes (Z.to_nat (a - base))
    else memory_of rest a
  end.

(** A charset conversion for samples: UTF-16LE code units below 256 become
    the byte of that value, the others a question mark. *)
Fixpoint utf16le_to_latin1 (bs : list byte) : list byte :=
  match bs with
  | lo :: hi :: rest =>
    (if byte_is_nul hi then lo else "?"%byte) :: utf16le_to_latin1 rest
  | _ => []
  end.

(** UTF-16LE of an ASCII text. *)
Definition utf16le (s : string) : list byte :=
  flat_map (fun b => [b; x00]) (list_byte_of_string s).

(** A 32-bit target with a UNICODE_STRING at 0x1000, of length 6, whose
    buffer at 0x2000 holds the code units 'a', NUL, 'b'. *)
Definition nul_target : target :=
  {| target_memory :=
       memory_of [ (0x1000, le_bytes 2 6 ++ le_bytes 2 8 ++ le_bytes 4 0x2000);
                   (0x2000, bytes_of [97; 0; 0; 0; 98; 0]) ];
     target_has_execution := true;
     core_bfd := None;
     target_get_tib_address := None;
     wide_to_host := utf16le_to_latin1 |}.

(** A 32-bit process whose command line ("a b") and executable path
    ("x") can be read, and whose working directory cannot: the TIB is at
    0x7000, the PEB at 0x8000, the process parameters at 0x9000, of which
    only the bytes from offset 56 on are readable. *)
Definition partly_readable_target : target :=
  {| target_memory :=
       memory_of [ (0x7000 + 48, le_bytes 4 0x8000);
                   (0x8000 + 16, le_bytes 4 0x9000);
                   (0x9000 + 56, le_bytes 2 2 ++ le_bytes 2 4 ++ le_bytes 4 0xA100
                                 ++ le_bytes 2 6 ++ le_bytes 2 8 ++ le_bytes 4 0xA000);
                   (0xA000, utf16le "a b");
                   (0xA100, utf16le "x") ];
     target_has_execution := true;
     core_bfd := None;
     target_get_tib_address := Some 0x7000;
     wide_to_host := utf16le_to_latin1 |}.

(** A session with neither a running process nor a dump. *)
Definition detached_target : target :=
  {| target_memory := fun _ => None;
     target_has_execution := false;
     core_bfd := None;
     target_get_tib_address := None;
     wide_to_host := utf16le_to_latin1 |}.

End InfoProc.

(** ** The entry-point breakpoint: [entry_point_breakpoint::re_set] *)

Module EntryBreakpoint.

(** A [bp_location], as far as [re_set] looks at it.  Program spaces are
    told apart by a number. *)
Record bp_location := {
  loc_pspace : Z;
  loc_address : Z
}.

(** A call of [update_breakpoint_locations (this, pspace, sals, {})], with
    [sals] given by the addresses decoded from the location spec. *)
Record relocation := {
  reloc_pspace : Z;
  reloc_sals : list Z
}.

Section WithBreakpointCore.

(** The breakpoint subsystem is a collaborator: what
    [update_breakpoint_locations] makes of the locations of a
    breakpoint. *)
Variable update_breakpoint_locations :
  list bp_location -> Z -> list Z -> list bp_location.

(** [entry_point] is [get_windows_program_space_data ()->entry_point];
    [locations] are those of the breakpoint.  The result is the
    locations afterwards with the calls made to
    [update_breakpoint_locations]. *)
Definition re_set (current_program_space entry_point : Z)
    (locations : list bp_location) : list bp_location * list relocation :=
  (* Do nothing if the entry point didn't change.  *)
  if existsb (fun loc => (loc_pspace loc =? current_program_space)
                         && (loc_address loc =? entry_point)) locations
  then (locations, [])
  else
    (* new_address_location_spec (entry_point), decode_location_spec *)
    let sals := [entry_point] in
    (update_breakpoint_locations locations current_program_space sals,
     [ {| reloc_pspace := current_program_space; reloc_sals := sals |} ]).

End WithBreakpointCore.

(** A sample of the collaborator: the locations of the program space are
    replaced by one location per decoded address. *)
Definition replace_locations (locations : list bp_location) (pspace : Z)
    (sals : list Z) : list bp_location :=
  filter (fun loc => negb (loc_pspace loc =? pspace)) locations
  ++ map (fun a => {| loc_pspace := pspace; loc_address := a |}) sals.

End EntryBreakpoint.

(** ** The import directory walk: [is_linked_with_cygwin_dll] *)

Module Imports.

Definition CYGWIN_DLL_NAME : string := "cygwin1.dll".

(** [sizeof (pe_import_directory_entry)] *)
Definition entry_size : Z := 20.

(** The [bfd *abfd] of a PE file, as far as the function looks at it. *)
Record pe_binary := {
  bfd_get_filename : string;
  pe_sections : bfd;
  (* pe_data (abfd)->pe_opthdr.ImageBase *)
  pe_ImageBase : Z;
  (* pe_data (abfd)->pe_opthdr.DataDirectory[PE_IMPORT_TABLE].VirtualAddress *)
  pe_import_table_va : Z
}.

(** Reading [contents[i]]: outside the buffer the run is [OutOfBounds]. *)
Definition load (contents : list byte) (i : Z) : run byte :=
  match (if 0 <=? i then nth_error contents (Z.to_nat i) else None) with
  | Some b => ret b
  | None => ([], OutOfBounds)
  end.

(** Taking the address of [contents[i]]: the index has to be that of an
    element. *)
Definition element_address (contents : list byte) (i : Z) : run Z :=
  if (0 <=? i) && (i <? Z.of_nat (length contents)) then ret i
  else ([], OutOfBounds).

Local Open Scope run_scope.

(** Reading the [n] bytes from [contents[i]] on. *)
Fixpoint load_range (contents : list byte) (i : Z) (n : nat) : run (list byte) :=
  match n with
  | O => ret []
  | S n' =>
    b <- load contents i ;;
    bs <- load_range contents (i + 1) n' ;;
    ret (b :: bs)
  end.

Definition byte_eqb (a b : byte) : bool := byte_val a =? byte_val b.

(** [streq] of the C string at [contents[i]] with [s], that is a [strcmp]
    equal to 0: bytes are compared one by one up to the first difference
    or the NUL that ends [s].  [s] is the text of a C string literal, with
    no NUL inside. *)
Fixpoint streq_at (contents : list byte) (i : Z) (s : list byte) : run bool :=
  match s with
  | [] => b <- load contents i ;; ret (byte_is_nul b)
  | c :: s' =>
    b <- load contents i ;;
    if byte_eqb b c then streq_at contents (i + 1) s' else ret false
  end.

(** Equality of two byte strings, byte by byte and length by length. *)
Fixpoint bytes_eqb (a b : list byte) : bool :=
  match a, b with
  | [], [] => true
  | x :: a', y :: b' => byte_eqb x y && bytes_eqb a' b'
  | _, _ => false
  end.

Section Walk.

(** The byte order of the host, in which the fields of
    [pe_import_directory_entry] are read through the cast pointer. *)
Variable host_byte_order : bfd_endian.
Variable filename : string.
Variable idata_contents : list byte.
Variables idata_section_va idata_section_end_va : Z.
(** The name looked for, [CYGWIN_DLL_NAME] in the source. *)
Variable dll_name : string.

Definition section_end : Z := Z.of_nat (length idata_contents).

(** [sizeof (CYGWIN_DLL_NAME)], the terminating NUL included. *)
Definition sizeof_dll_name : Z := Z.of_nat (String.length dll_name) + 1.

(** The [while (true)] loop; [iter] is the offset of the C pointer
    [iter] from [idata_contents.data ()]. *)
Fixpoint walk (fuel : nat) (iter : Z) : run bool :=
  match fuel with
  | O => ([], OutOfFuel)
  | S fuel' =>
    (* Is there enough space left in the section for another entry?  *)
    if iter + entry_size >? section_end then
      warning (filename ++ ": unexpected end of .idata section.") ;;
      ret false
    else
      dir_entry <- load_range idata_contents iter (Z.to_nat entry_size) ;;
      (* Is it the end of list marker?  *)
      if forallb byte_is_nul dir_entry then ret false
      else
        let name_va :=
          extract_unsigned_integer (slice dir_entry 12 4) host_byte_order in
        if (name_va <? idata_section_va) || (name_va >=? idata_section_end_va)
        then
          warning (filename ++ ": name's virtual address ("
                   ++ hex_string name_va
                   ++ ") is outside .idata section's range ["
                   ++ hex_string idata_section_va ++ ", "
                   ++ hex_string idata_section_end_va ++ "].") ;;
          ret false
        else
          name <- element_address idata_contents (name_va - idata_section_va) ;;
          (* Make sure we don't overshoot the end of the section with the
             streq.  *)
          found <- (if name + sizeof_dll_name <=? section_end
                    then streq_at idata_contents name (list_byte_of_string dll_name)
                    else ret false) ;;
          if found then ret true
          else walk fuel' (iter + entry_size)
  end.

(** *** What the walk decides at an entry, read off the bytes

    The contract of the walk in the words of its comments: where the
    loop stands at offset [iter], the section's own bytes decide one of
    five cases. *)
Inductive entry_class :=
| UnexpectedEnd               (* fewer than 20 bytes are left *)
| Terminator                  (* the all-zero end of list marker *)
| NameOutside (name_va : Z)   (* the name pointer leaves the section *)
| NameTooNearEnd              (* comparing would pass the section's end *)
| NameCompared (equal : bool).

Definition classify (iter : Z) : entry_class :=
  if iter + entry_size >? section_end then UnexpectedEnd
  else
    let dir_entry := slice idata_contents (Z.to_nat iter) (Z.to_nat entry_size) in
    if forallb byte_is_nul dir_entry then Terminator
    else
      let name_va :=
        extract_unsigned_integer (slice dir_entry 12 4) host_byte_order in
      if (name_va <? idata_section_va) || (name_va >=? idata_section_end_va)
      then NameOutside name_va
      else
        let name := name_va - idata_section_va in
        if name + sizeof_dll_name <=? section_end
        then NameCompared
               (bytes_eqb (slice idata_contents (Z.to_nat name)
                                 (Z.to_nat sizeof_dll_name))
                          (list_byte_of_string dll_name ++ [x00]))
        else NameTooNearEnd.

(** The five cases, each with what it says of the bytes and bounds. *)
Definition class_meaning (iter : Z) (c : entry_class) : Prop :=
  let dir_entry :=
    slice idata_contents (Z.to_nat iter) (Z.to_nat entry_size) in
  let name_va :=
    extract_unsigned_integer (slice dir_entry 12 4) host_byte_order in
  let name := name_va - idata_section_va in
  match c with
  | UnexpectedEnd => section_end < iter + entry_size
  | Terminator =>
    iter + entry_size <= section_end /\ forallb byte_is_nul dir_entry = true
  | NameOutside v =>
    iter + entry_size <= section_end /\ forallb byte_is_nul dir_entry = false
    /\ v = name_va
    /\ (name_va < idata_section_va \/ idata_section_end_va <= name_va)
  | NameTooNearEnd =>
    iter + entry_size <= section_end /\ forallb byte_is_nul dir_entry = false
    /\ idata_section_va <= name_va < idata_section_end_va
    /\ section_end < name + sizeof_dll_name
  | NameCompared equal =>
    iter + entry_size <= section_end /\ forallb byte_is_nul dir_entry = false
    /\ idata_section_va <= name_va < idata_section_end_va
    /\ name + sizeof_dll_name <= section_end
    /\ (equal = true <->
        slice idata_contents (Z.to_nat name)
              (Z.to_nat sizeof_dll_name)
        = list_byte_of_string dll_name ++ [x00])
  end.

Definition name_outside_warning (name_va : Z) : string :=
  filename ++ ": name's virtual address (" ++ hex_string name_va
  ++ ") is outside .idata section's range ["
  ++ hex_string idata_section_va ++ ", "
  ++ hex_string idata_section_end_va ++ "].".

End Walk.

(** The body of [is_linked_with_cygwin_dll], with the name it looks for
    as a parameter. *)
Definition imports_named_library (host_byte_order : bfd_endian)
    (abfd : pe_binary) (dll_name : string) : run bool :=
  match bfd_get_section_by_name (pe_sections abfd) ".idata" with
  | None => ret false
  | Some idata_section =>
    let idata_section_size := bfd_section_size idata_section in
    let import_table_va := pe_import_table_va abfd in
    let idata_section_va := sect_vma idata_section in
    (* The section's virtual address as reported by BFD has the image base
       applied, remove it.  *)
    gdb_assert (idata_section_va >=? pe_ImageBase abfd)
               "idata_section_va >= pe_extra->ImageBase" ;;
    let idata_section_va := idata_section_va - pe_ImageBase abfd in
    let idata_section_end_va := to_uint64 (idata_section_va + idata_section_size) in
    (* Make sure that the import table is indeed within the .idata
       section's range.  *)
    if (import_table_va <? idata_section_va)
       || (import_table_va >=? idata_section_end_va)
    then
      warning (bfd_get_filename abfd ++ ": import table's virtual address ("
               ++ hex_string import_table_va
               ++ ") is outside .idata section's range ["
               ++ hex_string idata_section_va ++ ", "
               ++ hex_string idata_section_end_va ++ "].") ;;
      ret false
    else
      (* The import table starts at this offset into the .idata section.  *)
      let import_table_offset_in_sect := import_table_va - idata_section_va in
      (* Get the section's data.  *)
      match bfd_get_section_contents idata_section 0 idata_section_size with
      | None =>
        warning (bfd_get_filename abfd
                 ++ ": failed to get contents of .idata section.") ;;
        ret false
      | Some idata_contents =>
        (* gdb_assert (idata_contents.size () == idata_section_size) holds
           of every section read in full.  *)
        walk host_byte_order (bfd_get_filename abfd) idata_contents
             idata_section_va idata_section_end_va dll_name
             (S (Z.to_nat (idata_section_size / entry_size)))
             import_table_offset_in_sect
      end
  end.

Definition is_linked_with_cygwin_dll (host_byte_order : bfd_endian)
    (abfd : pe_binary) : run bool :=
  imports_named_library host_byte_order abfd CYGWIN_DLL_NAME.

Local Close Scope run_scope.

(** How [imports_named_library] ends, case by case: it never leaves the
    section and never runs out of turns. *)
Inductive scan_case (host : bfd_endian) (abfd : pe_binary) (dll_name : string)
  : run bool -> Prop :=
| NoIdata :
    bfd_get_section_by_name (pe_sections abfd) ".idata" = None ->
    scan_case host abfd dll_name ([], Returned false)
| AssertFails idata msg :
    bfd_get_section_by_name (pe_sections abfd) ".idata" = Some idata ->
    sect_vma idata < pe_ImageBase abfd ->
    scan_case host abfd dll_name ([], Threw msg)
| TableOutside idata msg :
    bfd_get_section_by_name (pe_sections abfd) ".idata" = Some idata ->
    pe_ImageBase abfd <= sect_vma idata ->
    (let va := sect_vma idata - pe_ImageBase abfd in
     pe_import_table_va abfd < va
     \/ to_uint64 (va + bfd_section_size idata) <= pe_import_table_va abfd) ->
    scan_case host abfd dll_name ([Warned msg], Returned false)
| Unreadable idata msg :
    bfd_get_section_by_name (pe_sections abfd) ".idata" = Some idata ->
    sect_readable idata = false ->
    scan_case host abfd dll_name ([Warned msg], Returned false)
| Walked idata fuel :
    bfd_get_section_by_name (pe_sections abfd) ".idata" = Some idata ->
    pe_ImageBase abfd <= sect_vma idata ->
    (let va := sect_vma idata - pe_ImageBase abfd in
     let end_va := to_uint64 (va + bfd_section_size idata) in
     va <= pe_import_table_va abfd < end_va
     /\ end_va <= va + bfd_section_size idata
     /\ bfd_section_size idata - (pe_import_table_va abfd - va)
        < entry_size * Z.of_nat fuel) ->
    scan_case host abfd dll_name
      (walk host (bfd_get_filename abfd) (sect_contents idata)
            (sect_vma idata - pe_ImageBase abfd)
            (to_uint64 (sect_vma idata - pe_ImageBase abfd + bfd_section_size idata))
            dll_name fuel
            (pe_import_table_va abfd - (sect_vma idata - pe_ImageBase abfd))).

(** *** A hand-built [.idata] section *)

(** An import directory entry naming the library whose name is at
    [name_rva]. *)
Definition dir_entry_for (lookup_rva name_rva : Z) : list byte :=
  le_bytes 4 lookup_rva ++ le_bytes 4 0 ++ le_bytes 4 0
  ++ le_bytes 4 name_rva ++ le_bytes 4 lookup_rva.

Definition nul_terminated (s : string) : list byte :=
  list_byte_of_string s ++ [x00].

(** A section at RVA 0x3000 with two entries, the terminator, and the two
    names. *)
Definition idata_of (first second : string) : list byte :=
  dir_entry_for 0x3100 (0x3000 + 60)
  ++ dir_entry_for 0x3200 (0x3000 + 60 + Z.of_nat (String.length first) + 1)
  ++ le_bytes 20 0
  ++ nul_terminated first ++ nul_terminated second
  ++ le_bytes 12 0.

Definition binary_with (idata : list byte) (import_table_va : Z) : pe_binary :=
  {| bfd_get_filename := "a.exe";
     pe_sections :=
       [ {| sect_name := ".text"; sect_vma := 0x401000;
            sect_contents := le_bytes 16 0; sect_readable := true |};
         {| sect_name := ".idata"; sect_vma := 0x403000;
            sect_contents := idata; sect_readable := true |} ];
     pe_ImageBase := 0x400000;
     pe_import_table_va := import_table_va |}.

(** A binary with no [.idata] section. *)
Definition binary_without_idata : pe_binary :=
  {| bfd_get_filename := "b.exe";
     pe_sections :=
       [ {| sect_name := ".text"; sect_vma := 0x401000;
            sect_contents := le_bytes 16 0; sect_readable := true |} ];
     pe_ImageBase := 0x400000;
     pe_import_table_va := 0 |}.

End Imports.

(** ** The module list of a dump: [core_process_module_section] *)

Module CoreModules.

Definition NOTE_INFO_MODULE : Z := 3.
Definition NOTE_INFO_MODULE64 : Z := 4.

(** The routines of GDB the scanner calls and this file does not define:
    charset conversion, XML escaping, the text-section offset of the DLL
    found under a name, address printing, and the symbol server of a
    Windows host.  [indeterminate_base_addr] is what the uninitialised
    local [base_addr] of [core_process_module_section] holds when
    [sscanf] converts nothing, [indeterminate_buildid_addr] what that of
    [core_get_module_name] holds.  [host_win32] tells whether [_WIN32]
    is defined, that is whether the code under [#ifdef _WIN32] is
    compiled. *)
Record collaborators := {
  (* convert_between_encodings (target_wide_charset, host_charset, ...) *)
  wide_to_host : list byte -> list byte;
  xml_escape_text : string -> string;
  (* pe_text_section_offset (gdb_bfd_open (so_name, gnutarget)) *)
  pe_text_section_offset : string -> Z;
  paddress : Z -> string;
  indeterminate_base_addr : Z;
  indeterminate_buildid_addr : Z;
  (* #ifdef _WIN32 *)
  host_win32 : bool;
  (* symbol_server_init () *)
  symbol_server_init : Z;
  (* symbol_server_lib (module_name, size, timestamp, b) *)
  symbol_server_lib : string -> Z -> Z -> option (list byte) -> option string
}.

(** *** [sscanf (s, "%llx", &base_addr)], [strtoul (s, NULL, 16)] *)

Definition hex_digit (c : ascii) : option Z :=
  let n := Z.of_nat (nat_of_ascii c) in
  if (48 <=? n) && (n <=? 57) then Some (n - 48)
  else if (97 <=? n) && (n <=? 102) then Some (n - 87)
  else if (65 <=? n) && (n <=? 70) then Some (n - 55)
  else None.

(** The value of the longest run of hexadecimal digits at the head of
    [s], none when [s] starts with no digit; [acc] is the value read so
    far. *)
Fixpoint hex_run (s : string) (acc : option Z) : option Z :=
  match s with
  | EmptyString => acc
  | String c rest =>
    match hex_digit c with
    | Some d =>
      hex_run rest (Some (16 * (match acc with Some v => v | None => 0 end) + d))
    | None => acc
    end
  end.

Definition is_space (c : ascii) : bool :=
  let n := nat_of_ascii c in
  (n =? 32)%nat || ((9 <=? n) && (n <=? 13))%nat.

Fixpoint skip_spaces (s : string) : string :=
  match s with
  | String c rest => if is_space c then skip_spaces rest else s
  | EmptyString => s
  end.

(** An optional [0x] or [0X] in front of a digit is passed over. *)
Definition skip_hex_prefix (s : string) : string :=
  match s with
  | String z (String x (String d rest)) =>
    if (nat_of_ascii z =? 48)%nat
       && ((nat_of_ascii x =? 120) || (nat_of_ascii x =? 88))%nat
       && match hex_digit d with Some _ => true | None => false end
    then String d rest
    else s
  | _ => s
  end.

(** What both conversions read: white space, an optional sign, an
    optional prefix, then digits.  The result is the sign with the value
    of the digits, [None] when there is no digit. *)
Definition signed_hex (s : string) : option (bool * Z) :=
  let s := skip_spaces s in
  let '(negative, s) :=
    match s with
    | String c rest =>
      if (nat_of_ascii c =? 45)%nat then (true, rest)
      else if (nat_of_ascii c =? 43)%nat then (false, rest)
      else (false, s)
    | EmptyString => (false, s)
    end in
  match hex_run (skip_hex_prefix s) None with
  | None => None
  | Some v => Some (negative, v)
  end.

(** The conversion of the C library: a value that does not fit is the
    largest [unsigned long long] whatever its sign, and a minus sign
    negates a value that fits modulo [2^64].  [None] when nothing is
    converted and [base_addr] is left as it was. *)
Definition sscanf_llx (s : string) : option Z :=
  match signed_hex s with
  | None => None
  | Some (negative, v) =>
    Some (if v >? 2 ^ 64 - 1 then 2 ^ 64 - 1
          else if negative then to_uint64 (- v) else v)
  end.

(** [strtoul (s, NULL, 16)] where it is compiled, on a [_WIN32] host,
    whose [unsigned long] has 32 bits: 0 when there is no digit, the
    largest [unsigned long] for a value that does not fit. *)
Definition strtoul_16 (s : string) : Z :=
  match signed_hex s with
  | None => 0
  | Some (negative, v) =>
    if v >? 2 ^ 32 - 1 then 2 ^ 32 - 1
    else if negative then to_uint32 (- v) else v
  end.

(** [s + n] on a [const char *]. *)
Fixpoint string_drop (n : nat) (s : string) : string :=
  match n, s with
  | S n', String _ rest => string_drop n' rest
  | _, _ => s
  end.

(** [strstr (s, needle)]: [s] from the first place where [needle] is
    found, null when it is found nowhere. *)
Fixpoint strstr (s needle : string) : option string :=
  if String.prefix needle s then Some s
  else
    match s with
    | EmptyString => None
    | String _ rest => strstr rest needle
    end.

(** What [sprintf] writes for [%llx]. *)
Definition printf_llx (v : Z) : string :=
  NilZero.string_of_uint (N.to_hex_uint (Z.to_N v)).

(** *** The scanner *)

Section WithCollaborators.

Variable gdb : collaborators.
Variable arch : gdbarch.
(* The global [core_bfd]. *)
Variable core_bfd : bfd.

(** [core_get_module_name]: the payload re-encoded, read as a C string;
    on a [_WIN32] host with a symbol server, the path the server gives
    for that name when it gives one, and a warning when it gives none.
    The result is the name returned, with what was warned. *)
Definition core_get_module_name (sect_name : string) (wide_name : list byte)
    (use_symbol_server : Z) : list event * string :=
  let name := wide_to_host gdb wide_name ++ [x00] in
  let module_name := string_of_list_byte (c_str name) in
  if host_win32 gdb && negb (use_symbol_server =? 0) then
    let size :=
      match strstr sect_name ";s=" with
      | Some findstr => strtoul_16 (string_drop 3 findstr)
      | None => 0
      end in
    let timestamp :=
      match strstr sect_name ";t=" with
      | Some findstr => strtoul_16 (string_drop 3 findstr)
      | None => 0
      end in
    let findstr := strstr sect_name ";v=" in
    let base_addr :=
      match sscanf_llx (string_drop 12 sect_name) with
      | Some v => v
      | None => indeterminate_buildid_addr gdb
      end in
    let sect_buildid := (".corebuildid/" ++ printf_llx base_addr)%string in
    let b :=
      match bfd_get_section_by_name core_bfd sect_buildid with
      | Some s =>
        if bfd_section_size s =? 20 then bfd_get_section_contents s 0 20
        else None
      | None => None
      end in
    match symbol_server_lib gdb module_name size timestamp b with
    | Some symlib => ([], symlib)
    | None =>
      match findstr with
      | Some findstr =>
        ([Warned ("Can't find '" ++ module_name ++ "' version "
                  ++ string_drop 3 findstr ++ ".")], module_name)
      | None =>
        ([Warned ("Can't find '" ++ module_name ++ "'.")], module_name)
      end
    end
  else ([], module_name).

(** [data.use_symbol_server = symbol_server_init ()], under
    [#ifdef _WIN32]; 0 stands for the member that a host without
    [_WIN32] does not have. *)
Definition symbol_server_in_use : Z :=
  if host_win32 gdb then symbol_server_init gdb else 0.

(** What [windows_xfer_shared_library (so_name, load_addr, NULL, gdbarch,
    obstack)] grows the obstack by.  [text_offset_cached] is null, so
    the text offset is always asked of [pe_text_section_offset]. *)
Definition library_element (so_name : string) (load_addr : Z) : string :=
  let text_offset := pe_text_section_offset gdb so_name in
  "<library name=" ++ dquote ++ xml_escape_text gdb so_name ++ dquote
  ++ "><segment address=" ++ dquote
  ++ paddress gdb (to_uint64 (load_addr + text_offset)) ++ dquote
  ++ "/></library>".

Definition windows_xfer_shared_library (so_name : string) (load_addr : Z)
    (obstack : string) : string :=
  obstack ++ library_element so_name load_addr.

Record cpms_data := {
  obstack : string;
  module_count : Z;
  use_symbol_server : Z
}.

(** The callback of [bfd_map_over_sections]: [data] before; what was
    warned, with [data] after. *)
Definition core_process_module_section (sect : asection) (data : cpms_data)
  : list event * cpms_data :=
  let byte_order := gdbarch_byte_order arch in
  let is_module := startswith (sect_name sect) ".module" in
  let is_coremodule := startswith (sect_name sect) ".coremodule/" in
  if negb is_module && negb is_coremodule then ([], data)
  else
    match bfd_get_section_contents sect 0 (bfd_section_size sect) with
    | None => ([], data)
    | Some contents =>
      (* We're going to treat part of the buffer as a string, so make sure
         it is NUL-terminated.  *)
      let buf := contents ++ [x00] in
      if is_coremodule then
        let '(warned, obstack') :=
          if negb (module_count data =? 0) then
            let base_addr :=
              match sscanf_llx (string_drop 12 (sect_name sect)) with
              | Some v => v
              | None => indeterminate_base_addr gdb
              end in
            let '(warned, module_name) :=
              core_get_module_name (sect_name sect) contents
                                   (use_symbol_server data) in
            (warned,
             windows_xfer_shared_library module_name base_addr (obstack data))
          else ([], obstack data) in
        (warned,
         {| obstack := obstack'; module_count := module_count data + 1;
            use_symbol_server := use_symbol_server data |})
      else
        (* A DWORD (data_type) followed by struct windows_core_module_info.  *)
        if bfd_section_size sect <? 4 then ([], data)
        else
          let data_type := extract_unsigned_integer (slice buf 0 4) byte_order in
          let header :=
            if data_type =? NOTE_INFO_MODULE then
              let module_name_offset := 12 in
              if bfd_section_size sect <? module_name_offset then None
              else Some (module_name_offset,
                         extract_unsigned_integer (slice buf 4 4) byte_order,
                         extract_unsigned_integer (slice buf 8 4) byte_order)
            else if data_type =? NOTE_INFO_MODULE64 then
              let module_name_offset := 16 in
              if bfd_section_size sect <? module_name_offset then None
              else Some (module_name_offset,
                         extract_unsigned_integer (slice buf 4 8) byte_order,
                         extract_unsigned_integer (slice buf 12 4) byte_order)
            else None in
          match header with
          | None => ([], data)
          | Some (module_name_offset, base_addr, module_name_size) =>
            if module_name_offset + module_name_size >? bfd_section_size sect
            then ([], data)
            else
              let module_name :=
                string_of_list_byte
                  (c_str (skipn (Z.to_nat module_name_offset) buf)) in
              (* The first module is the .exe itself.  *)
              let obstack' :=
                if negb (module_count data =? 0)
                then windows_xfer_shared_library module_name base_addr
                       (obstack data)
                else obstack data in
              ([],
               {| obstack := obstack'; module_count := module_count data + 1;
                  use_symbol_server := use_symbol_server data |})
          end
    end.

(** [bfd_map_over_sections (abfd, core_process_module_section, &data)]:
    the callback is called on the sections in their order; the result is
    all that was warned, with [data] after the last call. *)
Definition bfd_map_over_sections (abfd : bfd) (data : cpms_data)
  : list event * cpms_data :=
  fold_left (fun state sect =>
               let '(warned, data) := core_process_module_section sect (snd state) in
               (fst state ++ warned, data))
            abfd ([], data).

(** The text built by [windows_core_xfer_shared_libraries] when there is
    none cached, with what was warned while it was built. *)
Definition build_library_list : list event * string :=
  let data := {| obstack := ("<library-list>" ++ newline)%string;
                 module_count := 0;
                 use_symbol_server := symbol_server_in_use |} in
  let '(warned, data) := bfd_map_over_sections core_bfd data in
  (warned, (obstack data ++ "</library-list>" ++ newline)%string).

(** [last_xfer_libraries] before; what was warned, [last_xfer_libraries]
    after, and the bytes copied to [readbuf] (the value returned is their
    number). *)
Definition windows_core_xfer_shared_libraries
    (last_xfer_libraries : option string) (offset len : Z)
  : list event * (option string * list byte) :=
  let '(warned, text) :=
    match last_xfer_libraries with
    | Some text => ([], text)
    | None =>
      let '(warned, built) := build_library_list in
      (warned, string_of_list_byte (c_str (list_byte_of_string built)))
    end in
  let buf := list_byte_of_string text in
  let len_avail := Z.of_nat (length (c_str buf)) in
  if offset >=? len_avail then (warned, (Some text, []))
  else
    let len := if len >? len_avail - offset then len_avail - offset else len in
    (warned, (Some text, slice buf (Z.to_nat offset) (Z.to_nat len))).

(** *** The contract: sections decoded one by one

    A module as the spec has it, a name with a load address, and what
    each naming convention makes of a section; [mod_warnings] is what
    resolving the name warned. *)
Record module_entry := {
  mod_name : string;
  mod_load_address : Z;
  mod_warnings : list event
}.

(** The name in the payload of an indexed section: the UTF-16 text
    re-encoded, up to its first NUL. *)
Definition payload_name (sect : asection) : string :=
  string_of_list_byte (c_str (wide_to_host gdb (sect_contents sect))).

(** The indexed convention: the payload is the name in UTF-16, resolved
    by [core_get_module_name]; the address is the hexadecimal number in
    the section's name. *)
Definition decode_coremodule (symbol_server : Z) (sect : asection)
  : option module_entry :=
  if sect_readable sect then
    let '(warned, name) :=
      core_get_module_name (sect_name sect) (sect_contents sect)
                           symbol_server in
    Some {| mod_name := name;
            mod_load_address :=
              match sscanf_llx (string_drop 12 (sect_name sect)) with
              | Some v => v
              | None => indeterminate_base_addr gdb
              end;
            mod_warnings := warned |}
  else None.

Definition u32_at (sect : asection) (off : nat) : Z :=
  extract_unsigned_integer (slice (sect_contents sect) off 4)
                           (gdbarch_byte_order arch).

(** A legacy section is malformed when it is smaller than 4 bytes, when
    its type tag is neither MODULE32 nor MODULE64, when it is smaller
    than the fixed offset of the name, or when the declared length of
    the name plus the header exceeds its size. *)
Definition legacy_malformed (sect : asection) : bool :=
  let size := bfd_section_size sect in
  (size <? 4)
  || (let tag := u32_at sect 0 in
      if tag =? NOTE_INFO_MODULE
      then (size <? 12) || (12 + u32_at sect 8 >? size)
      else if tag =? NOTE_INFO_MODULE64
      then (size <? 16) || (16 + u32_at sect 12 >? size)
      else true).

(** The legacy convention: a type tag, the base address, the length of
    the name, the name. *)
Definition decode_module_note (sect : asection) : option module_entry :=
  if sect_readable sect && negb (legacy_malformed sect) then
    let wide := u32_at sect 0 =? NOTE_INFO_MODULE64 in
    Some {| mod_name :=
              string_of_list_byte
                (c_str (skipn (if wide then 16 else 12) (sect_contents sect)));
            mod_load_address :=
              extract_unsigned_integer
                (slice (sect_contents sect) 4 (if wide then 8 else 4))
                (gdbarch_byte_order arch);
            mod_warnings := [] |}
  else None.

Definition decode_module (symbol_server : Z) (sect : asection)
  : option module_entry :=
  if startswith (sect_name sect) ".coremodule/"
  then decode_coremodule symbol_server sect
  else if startswith (sect_name sect) ".module" then decode_module_note sect
  else None.

(** The modules of the sections [abfd], in discovery order. *)
Fixpoint decoded_modules (symbol_server : Z) (abfd : bfd)
  : list module_entry :=
  match abfd with
  | [] => []
  | sect :: rest =>
    match decode_module symbol_server sect with
    | Some m => m :: decoded_modules symbol_server rest
    | None => decoded_modules symbol_server rest
    end
  end.

Definition element_of (m : module_entry) : string :=
  library_element (mod_name m) (mod_load_address m).

Definition elements (ms : list module_entry) : string :=
  fold_right String.append EmptyString (map element_of ms).

(** What a decoded module does to the scanner's data: it is counted,
    and it is written, with the warnings of its name, unless it is the
    first one counted. *)
Definition count_module (m : module_entry) (data : cpms_data)
  : list event * cpms_data :=
  (if module_count data =? 0 then [] else mod_warnings m,
   {| obstack := if module_count data =? 0 then obstack data
                 else obstack data ++ element_of m;
      module_count := module_count data + 1;
      use_symbol_server := use_symbol_server data |}).

End WithCollaborators.

(** The modules of a dump: those of all its sections, with the symbol
    server as [windows_core_xfer_shared_libraries] sets it. *)
Definition modules_of (gdb : collaborators) (arch : gdbarch) (core_bfd : bfd)
  : list module_entry :=
  decoded_modules gdb arch core_bfd (symbol_server_in_use gdb) core_bfd.

(** *** A sample dump *)

Definition xml_escape_char (c : ascii) : string :=
  let n := nat_of_ascii c in
  if (n =? 60)%nat then "&lt;"
  else if (n =? 62)%nat then "&gt;"
  else if (n =? 38)%nat then "&amp;"
  else if (n =? 39)%nat then "&apos;"
  else if (n =? 34)%nat then "&quot;"
  else String c EmptyString.

Fixpoint xml_escape_sample (s : string) : string :=
  match s with
  | EmptyString => EmptyString
  | String c rest => xml_escape_char c ++ xml_escape_sample rest
  end.

(** A session on a host that is not [_WIN32], in which no DLL can be
    opened, so that every text-section offset is the default 0x1000. *)
Definition sample_gdb : collaborators :=
  {| wide_to_host := InfoProc.utf16le_to_latin1;
     xml_escape_text := xml_escape_sample;
     pe_text_section_offset := fun _ => 0x1000;
     paddress := hex_string;
     indeterminate_base_addr := 0;
     indeterminate_buildid_addr := 0;
     host_win32 := false;
     symbol_server_init := 0;
     symbol_server_lib := fun _ _ _ _ => None |}.

(** The same session on a [_WIN32] host whose symbol server knows
    lib.dll of size 0x5000 and time stamp 0x5f0 with the build identifier
    of twenty bytes 7, and no other module. *)
Definition sample_win32_gdb : collaborators :=
  {| wide_to_host := InfoProc.utf16le_to_latin1;
     xml_escape_text := xml_escape_sample;
     pe_text_section_offset := fun _ => 0x1000;
     paddress := hex_string;
     indeterminate_base_addr := 0;
     indeterminate_buildid_addr := 0;
     host_win32 := true;
     symbol_server_init := 1;
     symbol_server_lib :=
       fun module_name size timestamp b =>
         if String.eqb module_name "lib.dll" && (size =? 0x5000)
            && (timestamp =? 0x5f0)
            && match b with
               | Some buildid =>
                 forallb (fun x => byte_val x =? 7) buildid
               | None => false
               end
         then Some "symbols/lib.dll/5000/lib.dll"%string
         else None |}.

Definition coremodule (address name : string) : asection :=
  {| sect_name := ".coremodule/" ++ address; sect_vma := 0;
     sect_contents := InfoProc.utf16le name; sect_readable := true |}.

(** The dump of the scenario: [.coremodule/1000] holding "app.exe" and
    [.coremodule/2000] holding "lib.dll". *)
Definition scenario_core : bfd :=
  [ coremodule "1000" "app.exe"; coremodule "2000" "lib.dll" ].


(** The scenario as a symbol server is told of it: the section names
    carry size, time stamp and version, and lib.dll has a build
    identifier. *)
Definition symbol_server_core : bfd :=
  [ coremodule "1000" "app.exe";
    coremodule "2000;s=5000;t=5f0;v=1.2" "lib.dll";
    coremodule "3000;v=3.4" "more.dll";
    {| sect_name := ".corebuildid/2000"; sect_vma := 0;
       sect_contents := repeat x07 20; sect_readable := true |} ].

(** A library list written out by hand, from names and printed
    addresses. *)
Definition library_list_text (entries : list (string * string)) : string :=
  ("<library-list>" ++ newline
   ++ fold_right
        (fun e rest =>
           "<library name=" ++ dquote ++ fst e ++ dquote
           ++ "><segment address=" ++ dquote ++ snd e ++ dquote
           ++ "/></library>" ++ rest)
        EmptyString entries
   ++ "</library-list>" ++ newline)%string.

(** A legacy section with the given bytes. *)
Definition module_note (bytes : list byte) : asection :=
  {| sect_name := ".module"; sect_vma := 0;
     sect_contents := bytes; sect_readable := true |}.




End CoreModules.

(** ** Signal numbers towards the target: [windows_gdb_signal_to_target],
    [cygwin_gdb_signal_to_target] *)

Module TargetSignals.

(** Modelled from the spec: [enum gdb_signal] is declared outside this
    file; these are the enumerators the file names, with one constructor
    for every other enumerator. *)
Inductive gdb_signal :=
| GDB_SIGNAL_0 | GDB_SIGNAL_HUP | GDB_SIGNAL_INT | GDB_SIGNAL_QUIT
| GDB_SIGNAL_ILL | GDB_SIGNAL_TRAP | GDB_SIGNAL_ABRT | GDB_SIGNAL_EMT
| GDB_SIGNAL_FPE | GDB_SIGNAL_KILL | GDB_SIGNAL_BUS | GDB_SIGNAL_SEGV
| GDB_SIGNAL_SYS | GDB_SIGNAL_PIPE | GDB_SIGNAL_ALRM | GDB_SIGNAL_TERM
| GDB_SIGNAL_URG | GDB_SIGNAL_STOP | GDB_SIGNAL_TSTP | GDB_SIGNAL_CONT
| GDB_SIGNAL_CHLD | GDB_SIGNAL_TTIN | GDB_SIGNAL_TTOU | GDB_SIGNAL_IO
| GDB_SIGNAL_XCPU | GDB_SIGNAL_XFSZ | GDB_SIGNAL_VTALRM | GDB_SIGNAL_PROF
| GDB_SIGNAL_WINCH | GDB_SIGNAL_PWR | GDB_SIGNAL_USR1 | GDB_SIGNAL_USR2
| GDB_SIGNAL_UNKNOWN
| GDB_SIGNAL_other (enumerator : nat).

(** Signal numbers for the various MinGW flavors. *)
Definition WINDOWS_SIGHUP : Z := 1.
Definition WINDOWS_SIGINT : Z := 2.
Definition WINDOWS_SIGQUIT : Z := 3.
Definition WINDOWS_SIGILL : Z := 4.
Definition WINDOWS_SIGTRAP : Z := 5.
Definition WINDOWS_SIGIOT : Z := 6.
Definition WINDOWS_SIGEMT : Z := 7.
Definition WINDOWS_SIGFPE : Z := 8.
Definition WINDOWS_SIGKILL : Z := 9.
Definition WINDOWS_SIGBUS : Z := 10.
Definition WINDOWS_SIGSEGV : Z := 11.
Definition WINDOWS_SIGSYS : Z := 12.
Definition WINDOWS_SIGPIPE : Z := 13.
Definition WINDOWS_SIGALRM : Z := 14.
Definition WINDOWS_SIGTERM : Z := 15.
Definition WINDOWS_SIGBREAK : Z := 21.
Definition WINDOWS_SIGABRT : Z := 22.

(** Signal numbers for Cygwin. *)
Definition CYGWIN_SIGHUP : Z := 1.
Definition CYGWIN_SIGINT : Z := 2.
Definition CYGWIN_SIGQUIT : Z := 3.
Definition CYGWIN_SIGILL : Z := 4.
Definition CYGWIN_SIGTRAP : Z := 5.
Definition CYGWIN_SIGABRT : Z := 6.
Definition CYGWIN_SIGEMT : Z := 7.
Definition CYGWIN_SIGFPE : Z := 8.
Definition CYGWIN_SIGKILL : Z := 9.
Definition CYGWIN_SIGBUS : Z := 10.
Definition CYGWIN_SIGSEGV : Z := 11.
Definition CYGWIN_SIGSYS : Z := 12.
Definition CYGWIN_SIGPIPE : Z := 13.
Definition CYGWIN_SIGALRM : Z := 14.
Definition CYGWIN_SIGTERM : Z := 15.
Definition CYGWIN_SIGURG : Z := 16.
Definition CYGWIN_SIGSTOP : Z := 17.
Definition CYGWIN_SIGTSTP : Z := 18.
Definition CYGWIN_SIGCONT : Z := 19.
Definition CYGWIN_SIGCHLD : Z := 20.
Definition CYGWIN_SIGTTIN : Z := 21.
Definition CYGWIN_SIGTTOU : Z := 22.
Definition CYGWIN_SIGIO : Z := 23.
Definition CYGWIN_SIGXCPU : Z := 24.
Definition CYGWIN_SIGXFSZ : Z := 25.
Definition CYGWIN_SIGVTALRM : Z := 26.
Definition CYGWIN_SIGPROF : Z := 27.
Definition CYGWIN_SIGWINCH : Z := 28.
Definition CYGWIN_SIGLOST : Z := 29.
Definition CYGWIN_SIGUSR1 : Z := 30.
Definition CYGWIN_SIGUSR2 : Z := 31.

(** Implementation of [gdbarch_gdb_signal_to_target] for Windows. *)
Definition windows_gdb_signal_to_target (signal : gdb_signal) : Z :=
  match signal with
  | GDB_SIGNAL_0 => 0
  | GDB_SIGNAL_HUP => WINDOWS_SIGHUP
  | GDB_SIGNAL_INT => WINDOWS_SIGINT
  | GDB_SIGNAL_QUIT => WINDOWS_SIGQUIT
  | GDB_SIGNAL_ILL => WINDOWS_SIGILL
  | GDB_SIGNAL_TRAP => WINDOWS_SIGTRAP
  | GDB_SIGNAL_ABRT => WINDOWS_SIGABRT
  | GDB_SIGNAL_EMT => WINDOWS_SIGEMT
  | GDB_SIGNAL_FPE => WINDOWS_SIGFPE
  | GDB_SIGNAL_KILL => WINDOWS_SIGKILL
  | GDB_SIGNAL_BUS => WINDOWS_SIGBUS
  | GDB_SIGNAL_SEGV => WINDOWS_SIGSEGV
  | GDB_SIGNAL_SYS => WINDOWS_SIGSYS
  | GDB_SIGNAL_PIPE => WINDOWS_SIGPIPE
  | GDB_SIGNAL_ALRM => WINDOWS_SIGALRM
  | GDB_SIGNAL_TERM => WINDOWS_SIGTERM
  | _ => -1
  end.

(** Implementation of [gdbarch_gdb_signal_to_target] for Cygwin. *)
Definition cygwin_gdb_signal_to_target (signal : gdb_signal) : Z :=
  match signal with
  | GDB_SIGNAL_0 => 0
  | GDB_SIGNAL_HUP => CYGWIN_SIGHUP
  | GDB_SIGNAL_INT => CYGWIN_SIGINT
  | GDB_SIGNAL_QUIT => CYGWIN_SIGQUIT
  | GDB_SIGNAL_ILL => CYGWIN_SIGILL
  | GDB_SIGNAL_TRAP => CYGWIN_SIGTRAP
  | GDB_SIGNAL_ABRT => CYGWIN_SIGABRT
  | GDB_SIGNAL_EMT => CYGWIN_SIGEMT
  | GDB_SIGNAL_FPE => CYGWIN_SIGFPE
  | GDB_SIGNAL_KILL => CYGWIN_SIGKILL
  | GDB_SIGNAL_BUS => CYGWIN_SIGBUS
  | GDB_SIGNAL_SEGV => CYGWIN_SIGSEGV
  | GDB_SIGNAL_SYS => CYGWIN_SIGSYS
  | GDB_SIGNAL_PIPE => CYGWIN_SIGPIPE
  | GDB_SIGNAL_ALRM => CYGWIN_SIGALRM
  | GDB_SIGNAL_TERM => CYGWIN_SIGTERM
  | GDB_SIGNAL_URG => CYGWIN_SIGURG
  | GDB_SIGNAL_STOP => CYGWIN_SIGSTOP
  | GDB_SIGNAL_TSTP => CYGWIN_SIGTSTP
  | GDB_SIGNAL_CONT => CYGWIN_SIGCONT
  | GDB_SIGNAL_CHLD => CYGWIN_SIGCHLD
  | GDB_SIGNAL_TTIN => CYGWIN_SIGTTIN
  | GDB_SIGNAL_TTOU => CYGWIN_SIGTTOU
  | GDB_SIGNAL_IO => CYGWIN_SIGIO
  | GDB_SIGNAL_XCPU => CYGWIN_SIGXCPU
  | GDB_SIGNAL_XFSZ => CYGWIN_SIGXFSZ
  | GDB_SIGNAL_VTALRM => CYGWIN_SIGVTALRM
  | GDB_SIGNAL_PROF => CYGWIN_SIGPROF
  | GDB_SIGNAL_WINCH => CYGWIN_SIGWINCH
  | GDB_SIGNAL_PWR => CYGWIN_SIGLOST
  | GDB_SIGNAL_USR1 => CYGWIN_SIGUSR1
  | GDB_SIGNAL_USR2 => CYGWIN_SIGUSR2
  | _ => -1
  end.

(** The case labels of [cygwin_gdb_signal_to_target], in the order of
    the switch. *)
Definition cygwin_signals : list gdb_signal :=
  [ GDB_SIGNAL_0; GDB_SIGNAL_HUP; GDB_SIGNAL_INT; GDB_SIGNAL_QUIT;
    GDB_SIGNAL_ILL; GDB_SIGNAL_TRAP; GDB_SIGNAL_ABRT; GDB_SIGNAL_EMT;
    GDB_SIGNAL_FPE; GDB_SIGNAL_KILL; GDB_SIGNAL_BUS; GDB_SIGNAL_SEGV;
    GDB_SIGNAL_SYS; GDB_SIGNAL_PIPE; GDB_SIGNAL_ALRM; GDB_SIGNAL_TERM;
    GDB_SIGNAL_URG; GDB_SIGNAL_STOP; GDB_SIGNAL_TSTP; GDB_SIGNAL_CONT;
    GDB_SIGNAL_CHLD; GDB_SIGNAL_TTIN; GDB_SIGNAL_TTOU; GDB_SIGNAL_IO;
    GDB_SIGNAL_XCPU; GDB_SIGNAL_XFSZ; GDB_SIGNAL_VTALRM; GDB_SIGNAL_PROF;
    GDB_SIGNAL_WINCH; GDB_SIGNAL_PWR; GDB_SIGNAL_USR1; GDB_SIGNAL_USR2 ].

(** The case labels of [windows_gdb_signal_to_target], in the order of
    the switch. *)
Definition windows_signals : list gdb_signal :=
  [ GDB_SIGNAL_0; GDB_SIGNAL_HUP; GDB_SIGNAL_INT; GDB_SIGNAL_QUIT;
    GDB_SIGNAL_ILL; GDB_SIGNAL_TRAP; GDB_SIGNAL_ABRT; GDB_SIGNAL_EMT;
    GDB_SIGNAL_FPE; GDB_SIGNAL_KILL; GDB_SIGNAL_BUS; GDB_SIGNAL_SEGV;
    GDB_SIGNAL_SYS; GDB_SIGNAL_PIPE; GDB_SIGNAL_ALRM; GDB_SIGNAL_TERM ].

(** The signals [windows_gdb_signal_from_target] can return, as
    enumerators of the full [enum gdb_signal]. *)
Definition of_from_target (s : Signals.gdb_signal) : gdb_signal :=
  match s with
  | Signals.GDB_SIGNAL_0 => GDB_SIGNAL_0
  | Signals.GDB_SIGNAL_INT => GDB_SIGNAL_INT
  | Signals.GDB_SIGNAL_ILL => GDB_SIGNAL_ILL
  | Signals.GDB_SIGNAL_TRAP => GDB_SIGNAL_TRAP
  | Signals.GDB_SIGNAL_ABRT => GDB_SIGNAL_ABRT
  | Signals.GDB_SIGNAL_FPE => GDB_SIGNAL_FPE
  | Signals.GDB_SIGNAL_SEGV => GDB_SIGNAL_SEGV
  | Signals.GDB_SIGNAL_UNKNOWN => GDB_SIGNAL_UNKNOWN
  end.

(** A case label of [windows_gdb_signal_from_target] with a zero put back
    after its leading hexadecimal digit: 0xC000005 becomes 0xC0000005. *)
Definition with_eight_digits (label : Z) : Z :=
  Z.shiftl (Z.shiftr label 24) 28 + Z.land label 0xFFFFFF.

End TargetSignals.

(** ** Objfile search order:
    [windows_iterate_over_objfiles_in_search_order] *)

Module Objfiles.

(** Objfiles are told apart by a number; [cb] answers whether the search
    is over.  The result is the objfiles [cb] was called on, in order. *)
Fixpoint visit_others (cb : Z -> bool) (current_objfile : option Z)
    (objfiles : list Z) : list Z :=
  match objfiles with
  | [] => []
  | objfile :: rest =>
    if match current_objfile with
       | Some cur => negb (objfile =? cur)
       | None => true
       end
    then if cb objfile then [objfile]
         else objfile :: visit_others cb current_objfile rest
    else visit_others cb current_objfile rest
  end.

Definition windows_iterate_over_objfiles_in_search_order
    (cb : Z -> bool) (current_objfile : option Z) (objfiles : list Z)
  : list Z :=
  match current_objfile with
  | Some cur =>
    if cb cur then [cur]
    else cur :: visit_others cb current_objfile objfiles
  | None => visit_others cb current_objfile objfiles
  end.

End Objfiles.

(** ** The executable and the thread names of a dump:
    [windows_core_load_executable], [windows_core_thread_name] *)

Module CoreNames.
Import CoreModules.

Record cpes_data := {
  cpes_module_count : Z;
  load_executable : option string;
  cpes_use_symbol_server : Z
}.

(** The callback of [windows_core_load_executable]: [data] before; what
    was warned, with [data] after.  [core_bfd] is the global. *)
Definition core_process_executable_section (gdb : collaborators)
    (core_bfd : bfd) (sect : asection) (data : cpes_data)
  : list event * cpes_data :=
  if negb (cpes_module_count data =? 0) then ([], data)
  else if negb (startswith (sect_name sect) ".coremodule/") then ([], data)
  else
    let data := {| cpes_module_count := cpes_module_count data + 1;
                   load_executable := load_executable data;
                   cpes_use_symbol_server := cpes_use_symbol_server data |} in
    match bfd_get_section_contents sect 0 (bfd_section_size sect) with
    | None => ([], data)
    | Some buf =>
      let '(warned, name) :=
        core_get_module_name gdb core_bfd (sect_name sect) buf
                             (cpes_use_symbol_server data) in
      (warned,
       {| cpes_module_count := cpes_module_count data;
          load_executable := Some name;
          cpes_use_symbol_server := cpes_use_symbol_server data |})
    end.

(** [bfd_map_over_sections (core_bfd, core_process_executable_section,
    &data)]. *)
Definition map_executable_sections (gdb : collaborators) (core_bfd : bfd)
    (abfd : bfd) (data : cpes_data) : list event * cpes_data :=
  fold_left (fun state sect =>
               let '(warned, data) :=
                 core_process_executable_section gdb core_bfd sect (snd state) in
               (fst state ++ warned, data))
            abfd ([], data).

(** The result is what was warned, with the [xstrdup] of
    [data.load_executable], or null. *)
Definition windows_core_load_executable (gdb : collaborators) (core_bfd : bfd)
  : list event * option string :=
  let data := {| cpes_module_count := 0; load_executable := None;
                 cpes_use_symbol_server := symbol_server_in_use gdb |} in
  let '(warned, data) := map_executable_sections gdb core_bfd core_bfd data in
  (warned, load_executable data).

(** The sections [windows_core_load_executable] stops at. *)
Definition is_coremodule (sect : asection) : bool :=
  startswith (sect_name sect) ".coremodule/".

(** [sizeof name_buf] *)
Definition sizeof_name_buf : Z := 80.

(** [memcpy (buf + off, bytes, n)] and [buf[off] = b]: a store outside the
    buffer ends the run as [OutOfBounds]. *)
Definition store (buf : list byte) (off : nat) (bytes : list byte)
  : run (list byte) :=
  if (off + length bytes <=? length buf)%nat
  then ret (firstn off buf ++ bytes ++ skipn (off + length bytes) buf)
  else ([], OutOfBounds).

Local Open Scope run_scope.

(** [lwp] is [thr->ptid.lwp ()], [section_name] the name that
    [thread_section_name (".corethread", thr->ptid)] makes, [name_buf] the
    static buffer before the call.  The result is the static buffer after
    the call with a flag: true when the pointer returned is [name_buf],
    false when it is null. *)
Definition windows_core_thread_name (gdb : collaborators) (core_bfd : bfd)
    (lwp : Z) (section_name : string) (name_buf : list byte)
  : run (list byte * bool) :=
  if lwp =? 0 then ret (name_buf, false)
  else
    match bfd_get_section_by_name core_bfd section_name with
    | None => ret (name_buf, false)
    | Some sect =>
      if bfd_section_size sect =? 0 then ret (name_buf, false)
      else
        match bfd_get_section_contents sect 0 (bfd_section_size sect) with
        | None => ret (name_buf, false)
        | Some buf =>
          let host_name := wide_to_host gdb buf ++ [x00] in
          let thread_name := c_str host_name in
          let thread_name_size := Z.of_nat (length thread_name) in
          let thread_name_size :=
            if thread_name_size >? sizeof_name_buf - 1
            then sizeof_name_buf - 1 else thread_name_size in
          name_buf <- store name_buf 0
                        (firstn (Z.to_nat thread_name_size) thread_name) ;;
          name_buf <- store name_buf (Z.to_nat thread_name_size) [x00] ;;
          ret (name_buf, true)
        end
    end.

Local Close Scope run_scope.

(** A dump with an unreadable section between two modules. *)
Definition core_with_gap : bfd :=
  [ coremodule "1000" "app.exe";
    {| sect_name := ".coremodule/1800"; sect_vma := 0;
       sect_contents := InfoProc.utf16le "gone.dll"; sect_readable := false |};
    coremodule "2000" "lib.dll" ].

(** A [.corethread] section holding a name. *)
Definition corethread (suffix name : string) : asection :=
  {| sect_name := ".corethread" ++ suffix; sect_vma := 0;
     sect_contents := InfoProc.utf16le name; sect_readable := true |}.

(** The same section in a dump that cannot be read there. *)
Definition unreadable_corethread (suffix name : string) : asection :=
  {| sect_name := ".corethread" ++ suffix; sect_vma := 0;
     sect_contents := InfoProc.utf16le name; sect_readable := false |}.

End CoreNames.



(** ** Process creation: [windows_solib_create_inferior_hook] *)

Module SolibHook.
Import InfoProc.




(** What the hook sets by pointer width: [ptr_bytes], [peb_offset]
    (offset of process_environment_block in TIB) and [base_offset] (offset
    of image_base_address in PEB). *)
Definition hook_layout (arch : gdbarch) : Z * Z * Z :=
  if gdbarch_ptr_bit arch =? 32 then (4, 48, 8) else (8, 96, 16).







(** A live 32-bit process whose image is loaded at [base]: the TIB is at
    0x7000 and the PEB at 0x8000. *)
Definition live_target (base : Z) : target :=
  {| target_memory :=
       memory_of [ (0x7000 + 48, le_bytes 4 0x8000);
                   (0x8000 + 8, le_bytes 4 base) ];
     target_has_execution := true;
     core_bfd := None;
     target_get_tib_address := Some 0x7000;
     wide_to_host := utf16le_to_latin1 |}.



End SolibHook.

(** ** Reaching the entry point: [entry_point_breakpoint::check_status] *)

Module EntryBreakpointHit.

(** Modelled from the spec: [enum bp_loc_type] is declared outside this
    file; these are the two enumerators the file names, with one
    constructor for every other enumerator. *)
Inductive bp_loc_type :=
| bp_loc_hardware_breakpoint
| bp_loc_hardware_watchpoint
| bp_loc_other_type (enumerator : nat).

(** A [bp_location], as far as [check_status] looks at it. *)
Record location := {
  inserted : bool;
  pspace : Z;
  loc_type : bp_loc_type;
  address : Z
}.

(** The calls made on the locations. *)
Inductive operation :=
| remove_location_call (loc : location)
| insert_location_call (loc : location).

Definition is_hardware (ty : bp_loc_type) : bool :=
  match ty with
  | bp_loc_hardware_breakpoint | bp_loc_hardware_watchpoint => true
  | bp_loc_other_type _ => false
  end.

(** The condition of the loop, up to the call of [remove_location]. *)
Definition to_reset (current_program_space : Z) (loc : location) : bool :=
  inserted loc && (pspace loc =? current_program_space)
  && is_hardware (loc_type loc).

Section WithBreakpoints.

(** What [b.remove_location (&loc, REMOVE_BREAKPOINT)] returns. *)
Variable remove_location : location -> Z.
Variable current_program_space : Z.

Fixpoint reset_locations (locations : list location) : list operation :=
  match locations with
  | [] => []
  | loc :: rest =>
    (if to_reset current_program_space loc
     then remove_location_call loc
          :: (if remove_location loc =? 0 then [insert_location_call loc] else [])
     else [])
    ++ reset_locations rest
  end.

(** [all_breakpoints] gives each breakpoint as its locations.  The result
    is [bs->stop] with the calls made, in order. *)
Definition check_status (all_breakpoints : list (list location))
  : bool * list operation :=
  (* Never stop.  *)
  let stop := false in
  (* Reset active hardware breakpoints.  *)
  (stop, flat_map reset_locations all_breakpoints).

End WithBreakpoints.

Definition operand (op : operation) : location :=
  match op with
  | remove_location_call loc => loc
  | insert_location_call loc => loc
  end.

(** The locations removed, and those inserted, by a trace of calls, in
    the order of the calls. *)
Definition removals (ops : list operation) : list location :=
  flat_map (fun op => match op with
                      | remove_location_call loc => [loc]
                      | insert_location_call _ => []
                      end) ops.

Definition insertions (ops : list operation) : list location :=
  flat_map (fun op => match op with
                      | remove_location_call _ => []
                      | insert_location_call loc => [loc]
                      end) ops.

(** A trace in which every insertion follows at once the removal of the
    same location. *)
Inductive paired : list operation -> Prop :=
| paired_nil : paired []
| paired_removed loc ops :
    paired ops -> paired (remove_location_call loc :: ops)
| paired_reinserted loc ops :
    paired ops ->
    paired (remove_location_call loc :: insert_location_call loc :: ops).

End EntryBreakpointHit.

(** ** What the walk passes over *)

Module ImportsContract.
Import Imports.

(** An entry the walk passes over: its name is too near the end of the
    section to be compared, or it is compared and differs. *)
Definition passed_over (c : entry_class) : Prop :=
  c = NameTooNearEnd \/ c = NameCompared false.

End ImportsContract.

(** ** Displaying the thread information block: [display_one_tib] *)

Module TibDisplay.
Import InfoProc.

(** The members of [thread_information_32] and [thread_information_64],
    in order; all the members of one structure have the same type. *)
Definition thread_information_members : list string :=
  [ "current_seh"; "current_top_of_stack"; "current_bottom_of_stack";
    "sub_system_tib"; "fiber_data"; "arbitrary_data_slot";
    "linear_address_tib"; "environment_pointer"; "process_id";
    "current_thread_id"; "active_rpc_handle"; "thread_local_storage";
    "process_environment_block"; "last_error_number" ]%string.

(** [sizeof (thread_information_32)] with [width] 4 and
    [sizeof (thread_information_64)] with [width] 8: members of one
    width leave no padding. *)
Definition sizeof_thread_information (width : Z) : Z :=
  width * Z.of_nat (length thread_information_members).

(** [offsetof] a member of such a structure. *)
Fixpoint member_index (name : string) (members : list string) : option Z :=
  match members with
  | [] => None
  | m :: rest =>
    if String.eqb m name then Some 0
    else option_map Z.succ (member_index name rest)
  end.

Definition offsetof_thread_information (width : Z) (name : string) : option Z :=
  option_map (Z.mul width) (member_index name thread_information_members).

Definition TIB_NAME : list string :=
  [ " current_seh                 ";
    " current_top_of_stack        ";
    " current_bottom_of_stack     ";
    " sub_system_tib              ";
    " fiber_data                  ";
    " arbitrary_data_slot         ";
    " linear_address_tib          ";
    " environment_pointer         ";
    " process_id                  ";
    " current_thread_id           ";
    " active_rpc_handle           ";
    " thread_local_storage        ";
    " process_environment_block   ";
    " last_error_number           " ]%string.

Definition MAX_TIB32 : Z := sizeof_thread_information 4 / 4.
Definition MAX_TIB64 : Z := sizeof_thread_information 8 / 8.
Definition FULL_TIB_SIZE : Z := 0x1000.

(** The printing routines of GDB the display calls: [phex (value, size)],
    [paddress], and [target_pid_to_str] of the thread displayed. *)
Record printers := {
  phex : Z -> Z -> string;
  paddress : Z -> string;
  target_pid_to_str : string
}.

(** Reading [TIB_NAME[i]]. *)
Definition tib_name (i : Z) : run string :=
  match (if 0 <=? i then nth_error TIB_NAME (Z.to_nat i) else None) with
  | Some name => ret name
  | None => ([], OutOfBounds)
  end.

Local Open Scope run_scope.

(** [for (i = first; i < first + count; i++) body (i)] *)
Fixpoint for_each (first : Z) (count : nat) (body : Z -> run unit) : run unit :=
  match count with
  | O => ret tt
  | S count' => body first ;; for_each (first + 1) count' body
  end.

Section Display.

Variable pr : printers.
(** The setting [maint show-all-tib]. *)
Variable maint_display_all_tib : bool.
Variable t : target.
Variable arch : gdbarch.

(** The sizes the display works with: the size of a slot, the number of
    bytes read, the number of slots shown and the number of slots that
    have a name. *)
Definition tib_sizes : Z * Z * Z * Z :=
  let sizeof_ptr := gdbarch_ptr_bit arch in
  let '(size, tib_size, max) :=
    if sizeof_ptr =? 64
    then (8, sizeof_thread_information 8, MAX_TIB64)
    else (4, sizeof_thread_information 4, MAX_TIB32) in
  let max_name := max in
  let '(tib_size, max) :=
    if maint_display_all_tib
    then (FULL_TIB_SIZE, FULL_TIB_SIZE / size)
    else (tib_size, max) in
  (size, tib_size, max, max_name).

(** The body of the loop over the slots of the block read. *)
Definition display_slot (tib : list byte) (size max_name : Z) (i : Z)
  : run unit :=
  let byte_order := gdbarch_byte_order arch in
  index <- Imports.load_range tib (i * size) (Z.to_nat size) ;;
  let val := extract_unsigned_integer index byte_order in
  if i <? max_name then
    name <- tib_name i ;;
    gdb_printf (name ++ " is 0x" ++ phex pr val size ++ newline)
  else if negb (val =? 0) then
    gdb_printf ("TIB[0x" ++ phex pr (i * size) 2 ++ "] is 0x"
                ++ phex pr val size ++ newline)
  else ret tt.

(** Display thread information block of a given thread; the thread is the
    one [t] gives the thread local base of. *)
Definition display_one_tib : run Z :=
  let '(size, tib_size, max, max_name) := tib_sizes in
  match target_get_tib_address t with
  | None =>
    gdb_printf ("Unable to get thread local base for "
                ++ target_pid_to_str pr ++ newline) ;;
    ret (-1)
  | Some thread_local_base =>
    match target_read_memory t thread_local_base tib_size with
    | None =>
      gdb_printf ("Unable to read thread information block for "
                  ++ target_pid_to_str pr ++ " at address "
                  ++ paddress pr thread_local_base ++ newline) ;;
      ret (-1)
    | Some tib =>
      gdb_printf ("Thread Information Block " ++ target_pid_to_str pr
                  ++ " at " ++ paddress pr thread_local_base ++ newline) ;;
      for_each 0 (Z.to_nat max) (display_slot tib size max_name) ;;
      ret 1
    end
  end.

(** Slot [i] of the block read. *)
Definition slot (tib : list byte) (size : Z) (i : Z) : Z :=
  extract_unsigned_integer
    (slice tib (Z.to_nat (i * size)) (Z.to_nat size))
    (gdbarch_byte_order arch).

(** The slots without a name that hold something, among the [count]
    slots from [first] on. *)
Fixpoint unnamed_shown (tib : list byte) (size : Z) (first : Z) (count : nat)
  : list Z :=
  match count with
  | O => []
  | S count' =>
    (if slot tib size first =? 0 then [] else [first])
    ++ unnamed_shown tib size (first + 1) count'
  end.

End Display.

Local Close Scope run_scope.

Definition sample_printers : printers :=
  {| phex := fun v _ => NilZero.string_of_uint (N.to_hex_uint (Z.to_N v));
     paddress := hex_string;
     target_pid_to_str := "Thread 1.0x1a4" |}.

(** A 32-bit target whose whole TIB page at 0x7000 is readable: the
    fourteen named slots hold 1 to 14, and one further slot, at offset
    0x100, holds 0xabc. *)
Definition tib_target : target :=
  {| target_memory :=
       memory_of [ (0x7000, flat_map (fun k => le_bytes 4 (Z.of_nat k)) (seq 1 14)
                            ++ le_bytes 200 0 ++ le_bytes 4 0xabc
                            ++ le_bytes 3836 0) ];
     target_has_execution := true;
     core_bfd := None;
     target_get_tib_address := Some 0x7000;
     wide_to_host := utf16le_to_latin1 |}.

End TibDisplay.

(** ** The types described to the user: [windows_get_tlb_type],
    [windows_get_siginfo_type] *)

Module TypeLayout.

Definition TARGET_CHAR_BIT : Z := 8.

Inductive type_code := TYPE_CODE_STRUCT | TYPE_CODE_UNION.

(** A member of a composite type: its name, the bit it starts at, and the
    length in bytes of its type. *)
Record field := {
  member_name : string;
  loc_bitpos : Z;
  field_length : Z
}.

Record composite := {
  code : type_code;
  type_length : Z;
  fields : list field
}.

(** Modelled from the spec: the debugger's type-description system is a
    collaborator of this file (gdbtypes.c is not part of it).
    [arch_composite_type] makes an empty composite type. *)
Definition arch_composite_type (code : type_code) : composite :=
  {| code := code; type_length := 0; fields := [] |}.

(** Modelled from the spec: [append_composite_type_field_aligned] of the
    same collaborator.  A structure lays its members out in the order
    they are appended, each right after the one before; a member
    appended with an alignment is first moved up to the next multiple of
    that alignment, and the structure grows by the gap.  A union is as
    long as its longest member. *)
Definition append_composite_type_field_aligned (t : composite) (name : string)
    (length alignment : Z) : composite :=
  match code t with
  | TYPE_CODE_UNION =>
    {| code := code t;
       type_length := if type_length t <? length then length else type_length t;
       fields := fields t ++ [ {| member_name := name; loc_bitpos := 0;
                                  field_length := length |} ] |}
  | TYPE_CODE_STRUCT =>
    let total := type_length t + length in
    match rev (fields t) with
    | [] =>
      {| code := code t; type_length := total;
         fields := [ {| member_name := name; loc_bitpos := 0;
                        field_length := length |} ] |}
    | previous :: _ =>
      let bitpos := loc_bitpos previous + field_length previous * TARGET_CHAR_BIT in
      let left :=
        if alignment =? 0 then 0
        else bitpos mod (alignment * TARGET_CHAR_BIT) in
      let gap :=
        if left =? 0 then 0 else alignment * TARGET_CHAR_BIT - left in
      {| code := code t;
         type_length := total + gap / TARGET_CHAR_BIT;
         fields := fields t ++ [ {| member_name := name;
                                    loc_bitpos := bitpos + gap;
                                    field_length := length |} ] |}
    end
  end.

(** [append_composite_type_field] is the same with no alignment. *)
Definition append_composite_type_field (t : composite) (name : string)
    (length : Z) : composite :=
  append_composite_type_field_aligned t name length 0.

(** A composite type made of the members appended in order, each given
    with the length of its type and its alignment (0 for none). *)
Definition composite_of (code : type_code) (members : list (string * Z * Z))
  : composite :=
  fold_left (fun t '(name, length, alignment) =>
               append_composite_type_field_aligned t name length alignment)
            members (arch_composite_type code).

(** The byte a member starts at. *)
Definition member_offset (t : composite) (name : string) : option Z :=
  option_map (fun f => loc_bitpos f / TARGET_CHAR_BIT)
    (find (fun f => String.eqb (member_name f) name) (fields t)).

(** The composite types [windows_get_tlb_type] builds. *)
Record tlb_types := {
  list_type : composite;
  seh_type : composite;
  peb_ldr_type : composite;
  uni_str_type : composite;
  rupp_type : composite;
  peb_type : composite;
  tib_type : composite
}.

(** Define Thread Local Base pointer type.  Integer types are as long as
    their bits say, and pointer types as long as [gdbarch_ptr_bit]. *)
Definition windows_get_tlb_type (arch : gdbarch) : tlb_types :=
  let pointer := gdbarch_ptr_bit arch / TARGET_CHAR_BIT in
  let dword_ptr_type := gdbarch_ptr_bit arch / TARGET_CHAR_BIT in
  let dword32_type := 32 / TARGET_CHAR_BIT in
  let word_type := 16 / TARGET_CHAR_BIT in
  let void_ptr_type := pointer in
  let wchar_ptr_type := pointer in
  let wchar_list_type := pointer in
  let builtin_func_ptr := pointer in
  (* list entry *)
  let module_list_ptr_type := void_ptr_type in
  let list_type :=
    composite_of TYPE_CODE_STRUCT
      [ ("forward_list", module_list_ptr_type, 0);
        ("backward_list", module_list_ptr_type, 0) ]%string in
  (* Structured Exception Handler *)
  let seh_ptr_type := void_ptr_type in
  let seh_type :=
    composite_of TYPE_CODE_STRUCT
      [ ("next_seh", seh_ptr_type, 0);
        ("handler", builtin_func_ptr, 0) ]%string in
  (* struct _PEB_LDR_DATA *)
  let peb_ldr_type :=
    composite_of TYPE_CODE_STRUCT
      [ ("length", dword32_type, 0);
        ("initialized", dword32_type, 0);
        ("ss_handle", void_ptr_type, 0);
        ("in_load_order", type_length list_type, 0);
        ("in_memory_order", type_length list_type, 0);
        ("in_init_order", type_length list_type, 0);
        ("entry_in_progress", void_ptr_type, 0) ]%string in
  let peb_ldr_ptr_type := void_ptr_type in
  (* struct UNICODE_STRING *)
  let uni_str_type :=
    composite_of TYPE_CODE_STRUCT
      [ ("length", word_type, 0);
        ("maximum_length", word_type, 0);
        ("buffer", wchar_ptr_type, wchar_ptr_type) ]%string in
  let uni_str := type_length uni_str_type in
  (* struct _RTL_USER_PROCESS_PARAMETERS *)
  let rupp_type :=
    composite_of TYPE_CODE_STRUCT
      [ ("maximum_length", dword32_type, 0);
        ("length", dword32_type, 0);
        ("flags", dword32_type, 0);
        ("debug_flags", dword32_type, 0);
        ("console_handle", void_ptr_type, 0);
        ("console_flags", dword32_type, 0);
        ("standard_input", void_ptr_type, void_ptr_type);
        ("standard_output", void_ptr_type, 0);
        ("standard_error", void_ptr_type, 0);
        ("current_directory", uni_str, 0);
        ("current_directory_handle", void_ptr_type, 0);
        ("dll_path", uni_str, 0);
        ("image_path_name", uni_str, 0);
        ("command_line", uni_str, 0);
        ("environment", wchar_list_type, 0);
        ("starting_x", dword32_type, 0);
        ("starting_y", dword32_type, 0);
        ("count_x", dword32_type, 0);
        ("count_y", dword32_type, 0);
        ("count_chars_x", dword32_type, 0);
        ("count_chars_y", dword32_type, 0);
        ("fill_attribute", dword32_type, 0);
        ("window_flags", dword32_type, 0);
        ("show_window_flags", dword32_type, 0);
        ("window_title", uni_str, void_ptr_type);
        ("desktop_info", uni_str, 0);
        ("shell_info", uni_str, 0);
        ("runtime_data", uni_str, 0) ]%string in
  let rupp_ptr_type := pointer in
  (* struct process environment block *)
  let peb_type :=
    composite_of TYPE_CODE_STRUCT
      [ ("flags", dword_ptr_type, 0);
        ("mutant", void_ptr_type, 0);
        ("image_base_address", void_ptr_type, 0);
        ("ldr", peb_ldr_ptr_type, 0);
        ("process_parameters", rupp_ptr_type, 0);
        ("sub_system_data", void_ptr_type, 0);
        ("process_heap", void_ptr_type, 0);
        ("fast_peb_lock", void_ptr_type, 0) ]%string in
  let peb_ptr_type := void_ptr_type in
  (* struct thread information block *)
  let tib_type :=
    composite_of TYPE_CODE_STRUCT
      [ ("current_seh", seh_ptr_type, 0);
        ("current_top_of_stack", void_ptr_type, 0);
        ("current_bottom_of_stack", void_ptr_type, 0);
        ("sub_system_tib", void_ptr_type, 0);
        ("fiber_data", void_ptr_type, 0);
        ("arbitrary_data_slot", void_ptr_type, 0);
        ("linear_address_tib", void_ptr_type, 0);
        ("environment_pointer", void_ptr_type, 0);
        ("process_id", dword_ptr_type, 0);
        ("thread_id", dword_ptr_type, 0);
        ("active_rpc_handle", dword_ptr_type, 0);
        ("thread_local_storage", void_ptr_type, 0);
        ("process_environment_block", peb_ptr_type, 0);
        ("last_error_number", dword_ptr_type, 0) ]%string in
  {| list_type := list_type; seh_type := seh_type;
     peb_ldr_type := peb_ldr_type; uni_str_type := uni_str_type;
     rupp_type := rupp_type; peb_type := peb_type; tib_type := tib_type |}.

(** [struct enum_value_name] and the enum type [create_enum] makes of a
    table of them: as long as its bits say, with one enumerator for each
    entry, in order. *)
Record enum_type := {
  enum_length : Z;
  enumerators : list (string * Z)
}.

Definition create_enum (bit : Z) (values : list (Z * string)) : enum_type :=
  {| enum_length := bit / TARGET_CHAR_BIT;
     enumerators := map (fun v => (snd v, fst v)) values |}.

Definition violation_values : list (Z * string) :=
  [ (0, "READ_ACCESS_VIOLATION");
    (1, "WRITE_ACCESS_VIOLATION");
    (8, "DATA_EXECUTION_PREVENTION_VIOLATION") ]%string.

(** Implement the "get_siginfo_type" gdbarch method: the EXCEPTION_RECORD
    type.  [int_bit] is [gdbarch_int_bit]. *)
Definition windows_get_siginfo_type (arch : gdbarch) (int_bit : Z) : composite :=
  let dword_type := int_bit / TARGET_CHAR_BIT in
  let pvoid_type := gdbarch_ptr_bit arch / TARGET_CHAR_BIT in
  let ulongptr_type := gdbarch_ptr_bit arch / TARGET_CHAR_BIT in
  (* ExceptionCode value names *)
  let code_enum := create_enum int_bit Signals.exception_values in
  (* ACCESS_VIOLATION type names *)
  let violation_enum := create_enum (gdbarch_ptr_bit arch) violation_values in
  (* ACCESS_VIOLATION information *)
  let violation_type :=
    composite_of TYPE_CODE_STRUCT
      [ ("Type", enum_length violation_enum, 0);
        ("Address", pvoid_type, 0) ]%string in
  (* Unnamed union of the documented field ExceptionInformation, and the
     alternative AccessViolationInformation.  *)
  let para_type :=
    composite_of TYPE_CODE_UNION
      [ ("ExceptionInformation", 15 * ulongptr_type, 0);
        ("AccessViolationInformation", type_length violation_type, 0) ]%string in
  let siginfo_ptr_type := gdbarch_ptr_bit arch / TARGET_CHAR_BIT in
  composite_of TYPE_CODE_STRUCT
    [ ("ExceptionCode", enum_length code_enum, 0);
      ("ExceptionFlags", dword_type, 0);
      ("ExceptionRecord", siginfo_ptr_type, 0);
      ("ExceptionAddress", pvoid_type, 0);
      ("NumberParameters", dword_type, 0);
      (* The 64-bit variant needs some padding.  *)
      (EmptyString, type_length para_type, ulongptr_type) ]%string.

Definition arch64 : gdbarch :=
  {| gdbarch_ptr_bit := 64; gdbarch_byte_order := BFD_ENDIAN_LITTLE |}.

End TypeLayout.

(* ================================================================= *)
(** * Part II: properties                                              *)
(* ================================================================= *)

Module ByteFacts.

Lemma slice_length (buf : list byte) off len :
  (off + len <= length buf)%nat -> length (slice buf off len) = len.
Proof.
  intros H. unfold slice. rewrite length_firstn, length_skipn. lia.
Qed.

Lemma nth_slice (buf : list byte) off len i d :
  (i < len)%nat -> nth i (slice buf off len) d = nth (off + i) buf d.
Proof.
  intros H. unfold slice. rewrite nth_firstn.
  destruct (Nat.ltb_spec i len); [|lia]. apply nth_skipn.
Qed.

Lemma slice_all (buf : list byte) :
  slice buf 0 (length buf) = buf.
Proof. unfold slice. cbn [skipn]. apply firstn_all. Qed.

Lemma slice_slice_prefix (buf : list byte) off n m :
  (n <= m)%nat -> firstn n (slice buf off m) = slice buf off n.
Proof.
  intros H. unfold slice. rewrite firstn_firstn. f_equal. lia.
Qed.

Lemma byte_val_range b : 0 <= byte_val b < 256.
Proof.
  unfold byte_val. pose proof (Byte.to_N_bounded b). lia.
Qed.

Lemma le_int_range bs : 0 <= le_int bs < 256 ^ Z.of_nat (length bs).
Proof.
  induction bs as [|b bs IH]; cbn [le_int length].
  - simpl. lia.
  - rewrite Nat2Z.inj_succ, Z.pow_succ_r by lia.
    pose proof (byte_val_range b). lia.
Qed.

Lemma le_int_app a b :
  le_int (a ++ b) = le_int a + 256 ^ Z.of_nat (length a) * le_int b.
Proof.
  induction a as [|x a IH]; cbn [le_int length app].
  - change (Z.of_nat 0) with 0. rewrite Z.pow_0_r. lia.
  - rewrite IH, Nat2Z.inj_succ, Z.pow_succ_r by lia. ring.
Qed.

(** The low 32 bits of a little-endian value are its first four bytes. *)
Lemma le_int_low32 bs :
  (4 <= length bs)%nat -> le_int bs mod 2 ^ 32 = le_int (firstn 4 bs).
Proof.
  intros Hlen. rewrite <- (firstn_skipn 4 bs) at 1. rewrite le_int_app.
  pose proof (le_int_range (firstn 4 bs)) as Hr.
  rewrite length_firstn in *. replace (Nat.min 4 (length bs)) with 4%nat in * by lia.
  change (256 ^ Z.of_nat 4) with (2 ^ 32) in *.
  rewrite (Z.mul_comm (2 ^ 32)), Z.mod_add by lia.
  apply Z.mod_small. lia.
Qed.

Lemma c_str_terminated bs : c_str (bs ++ [x00]) = c_str bs.
Proof.
  induction bs as [|b bs IH]; cbn [c_str app].
  - reflexivity.
  - destruct (byte_is_nul b); [reflexivity|]. now rewrite IH.
Qed.

Lemma slice_S (buf : list byte) off n d :
  (off < length buf)%nat ->
  slice buf off (S n) = nth off buf d :: slice buf (S off) n.
Proof.
  revert off. induction buf as [|b buf IH]; intros off Hoff; cbn [length] in Hoff.
  - lia.
  - destruct off as [|off]; [reflexivity|].
    unfold slice in *. cbn [skipn nth]. apply IH. lia.
Qed.

Lemma byte_val_inj a b : byte_val a = byte_val b -> a = b.
Proof.
  unfold byte_val. intros H. apply N2Z.inj in H.
  assert (Ha := Byte.of_to_N a). rewrite H, Byte.of_to_N in Ha. congruence.
Qed.

Lemma to_uint64_le z : 0 <= z -> to_uint64 z <= z.
Proof. intros H. unfold to_uint64. apply Z.mod_le; lia. Qed.

Lemma get_full_section_contents (s : asection) :
  sect_readable s = true ->
  bfd_get_section_contents s 0 (bfd_section_size s) = Some (sect_contents s).
Proof.
  intros Hr. unfold bfd_get_section_contents, bfd_section_size.
  rewrite Hr, Z.add_0_l, Z.leb_refl. cbn [andb]. rewrite Nat2Z.id.
  change (Z.to_nat 0) with 0%nat. now rewrite slice_all.
Qed.

Lemma get_unreadable_section_contents (s : asection) off n :
  sect_readable s = false -> bfd_get_section_contents s off n = None.
Proof. intros Hr. unfold bfd_get_section_contents. now rewrite Hr. Qed.

Lemma slice_app_l (a b : list byte) off len :
  (off + len <= length a)%nat -> slice (a ++ b) off len = slice a off len.
Proof.
  intros H. unfold slice. rewrite skipn_app, firstn_app, length_skipn.
  replace (len - (length a - off))%nat with 0%nat by lia.
  cbn [firstn]. apply app_nil_r.
Qed.

Lemma c_str_skipn_terminated (a : list byte) n :
  (n <= length a)%nat -> c_str (skipn n (a ++ [x00])) = c_str (skipn n a).
Proof.
  intros H. rewrite skipn_app.
  replace (n - length a)%nat with 0%nat by lia.
  cbn [skipn]. apply c_str_terminated.
Qed.

End ByteFacts.

Module SignalsProps.
Import Signals.

Lemma is_label_false labels v :
  ~ In v labels -> is_label labels v = false.
Proof.
  unfold is_label. induction labels as [|l labels IH]; simpl; intros Hn.
  - reflexivity.
  - rewrite orb_false_iff. split.
    + apply Z.eqb_neq. intros ->. apply Hn. now left.
    + apply IH. intros Hin. apply Hn. now right.
Qed.

Lemma switch_default groups v :
  ~ In v (flat_map fst groups) -> switch groups v = GDB_SIGNAL_UNKNOWN.
Proof.
  induction groups as [|[labels sig] groups IH]; simpl; intros Hn.
  - reflexivity.
  - rewrite is_label_false.
    + apply IH. intros Hin. apply Hn, in_or_app. now right.
    + intros Hin. apply Hn, in_or_app. now left.
Qed.

(** C9.  Every target signal whose unsigned value is none of the case
    constants of [windows_gdb_signal_from_target] is mapped to
    [GDB_SIGNAL_UNKNOWN], and only those are.  In particular the exception code 0xC0000005,
    which the file's own [exception_values] table names ACCESS_VIOLATION,
    is mapped to [GDB_SIGNAL_UNKNOWN] (whether passed as the unsigned value
    or as the negative [int] with the same bits), because the label that
    returns [GDB_SIGNAL_SEGV] is the 7-digit constant 0xC000005. *)
Theorem signal_from_target_unlisted_is_unknown (signal : Z) :
  (~ In (to_uint32 signal) case_constants ->
   windows_gdb_signal_from_target signal = GDB_SIGNAL_UNKNOWN)
  /\ (In (to_uint32 signal) case_constants ->
      windows_gdb_signal_from_target signal <> GDB_SIGNAL_UNKNOWN)
  /\ exception_name 0xC0000005 = Some "ACCESS_VIOLATION"%string
  /\ windows_gdb_signal_from_target 0xC0000005 = GDB_SIGNAL_UNKNOWN
  /\ windows_gdb_signal_from_target (0xC0000005 - 2 ^ 32) = GDB_SIGNAL_UNKNOWN
  /\ windows_gdb_signal_from_target 0xC000005 = GDB_SIGNAL_SEGV
  /\ In 0xC000005 case_constants
  /\ ~ In 0xC0000005 case_constants.
Proof.
  split; [|split; [|repeat split]].
  - intros Hn. unfold windows_gdb_signal_from_target.
    now apply switch_default.
  - unfold windows_gdb_signal_from_target. intros Hin.
    change case_constants
      with (map fst (flat_map (fun g => map (fun l => (l, snd g)) (fst g))
                              case_groups)) in Hin.
    apply in_map_iff in Hin. destruct Hin as ([label sig] & Heq & Hin).
    cbn [fst] in Heq. rewrite <- Heq.
    cbn in Hin.
    repeat (destruct Hin as [[= <- <-]|Hin]; [vm_compute; discriminate|]).
    destruct Hin.
  - vm_compute. tauto.
  - vm_compute. intros H.
    repeat (destruct H as [H|H]; [discriminate H|]). exact H.
Qed.

Lemma signal_from_target_unlisted_is_unknown_witness :
  ~ In (to_uint32 0xC0000094) case_constants
  /\ windows_gdb_signal_from_target 0xC0000094 = GDB_SIGNAL_UNKNOWN.
Proof.
  assert (Hn : ~ In (to_uint32 0xC0000094) case_constants).
  { vm_compute. intros H.
    repeat (destruct H as [H|H]; [discriminate H|]). exact H. }
  split; [exact Hn|].
  exact (proj1 (signal_from_target_unlisted_is_unknown 0xC0000094) Hn).
Defined.

End SignalsProps.

Module SiginfoProps.
Import Siginfo ByteFacts.

Lemma copy_word_length rec dst src :
  (4 * src + 4 <= length rec)%nat -> (4 * dst + 4 <= length rec)%nat ->
  length (copy_word rec dst src) = length rec.
Proof.
  intros Hs Hd. unfold copy_word.
  rewrite !length_app, slice_length, length_firstn, length_skipn by lia. lia.
Qed.

Lemma nth_copy_word rec dst src p d :
  (4 * src + 4 <= length rec)%nat -> (4 * dst + 4 <= length rec)%nat ->
  nth p (copy_word rec dst src) d =
  if ((4 * dst <=? p) && (p <? 4 * dst + 4))%nat
  then nth (4 * src + (p - 4 * dst)) rec d
  else nth p rec d.
Proof.
  intros Hs Hd. unfold copy_word.
  assert (Hl1 : length (firstn (4 * dst) rec) = (4 * dst)%nat)
    by (rewrite length_firstn; lia).
  assert (Hl2 : length (slice rec (4 * src) 4) = 4%nat)
    by (apply slice_length; lia).
  destruct (Nat.leb_spec (4 * dst) p) as [Hge|Hlt]; cbn [andb].
  - rewrite app_nth2 by (rewrite Hl1; lia). rewrite Hl1.
    destruct (Nat.ltb_spec p (4 * dst + 4)) as [Hin|Hout].
    + rewrite app_nth1 by (rewrite Hl2; lia). rewrite nth_slice by lia.
      reflexivity.
    + rewrite app_nth2 by (rewrite Hl2; lia).
      rewrite Hl2, nth_skipn. f_equal. lia.
  - rewrite app_nth1 by (rewrite Hl1; lia). rewrite nth_firstn.
    destruct (Nat.ltb_spec p (4 * dst)); [reflexivity|lia].
Qed.

(** The loop invariant: after the iterations [r = 2 .. k+1], the words
    [3 .. k+2] hold the first halves of the 8-byte slots [2 .. k+1], and
    everything else is still as stored (the loop reads ahead of where it
    writes). *)
Lemma compact_from_spec k rec :
  (152 <= length rec)%nat -> (k <= 17)%nat ->
  length (compact_from 2 k rec) = length rec
  /\ forall p d,
      nth p (compact_from 2 k rec) d =
      if ((12 <=? p) && (p <? 4 * (k + 3)))%nat
      then nth (8 * (p / 4 - 1) + p mod 4) rec d
      else nth p rec d.
Proof.
  intros Hlen. induction k as [|k IH]; intros Hk.
  - split; [reflexivity|]. intros p d. cbn [compact_from seq fold_left].
    destruct (Nat.leb_spec 12 p); destruct (Nat.ltb_spec p (4 * (0 + 3)));
      cbn [andb]; try reflexivity; lia.
  - destruct IH as [IHlen IHnth]; [lia|].
    unfold compact_from in *. rewrite seq_S, fold_left_app.
    cbn [fold_left].
    set (prev := fold_left _ (seq 2 k) rec) in *.
    split.
    + rewrite copy_word_length; lia.
    + intros p d. rewrite nth_copy_word by lia.
      assert (Hdm := Nat.div_mod_eq p 4).
      assert (Hm := Nat.mod_upper_bound p 4 ltac:(lia)).
      destruct (Nat.leb_spec (4 * (2 + k + 1)) p) as [Hge|Hlt];
        destruct (Nat.ltb_spec p (4 * (2 + k + 1) + 4)) as [Hin|Hout];
        cbn [andb]; rewrite IHnth.
      * (* the word written by this iteration *)
        destruct (Nat.leb_spec 12 (4 * ((2 + k) * 2) + (p - 4 * (2 + k + 1))));
          destruct (Nat.ltb_spec (4 * ((2 + k) * 2) + (p - 4 * (2 + k + 1)))
                                 (4 * (k + 3)));
          cbn [andb]; try lia.
        destruct (Nat.leb_spec 12 p); destruct (Nat.ltb_spec p (4 * (S k + 3)));
          cbn [andb]; try lia.
        f_equal. lia.
      * destruct (Nat.leb_spec 12 p); destruct (Nat.ltb_spec p (4 * (k + 3)));
          destruct (Nat.ltb_spec p (4 * (S k + 3))); cbn [andb];
          try reflexivity; lia.
      * destruct (Nat.leb_spec 12 p); destruct (Nat.ltb_spec p (4 * (k + 3)));
          destruct (Nat.ltb_spec p (4 * (S k + 3))); cbn [andb];
          try reflexivity; lia.
      * lia.
Qed.

Lemma nth_compact rec p d :
  length rec = 152%nat -> (p < 80)%nat ->
  nth p (compact rec) d = nth (source_index p) rec d.
Proof.
  intros Hlen Hp. unfold compact, source_index.
  destruct (compact_from_spec 17 rec) as [_ Hnth]; [lia|lia|].
  rewrite Hnth.
  assert (Hdm := Nat.div_mod_eq p 4).
  assert (Hm := Nat.mod_upper_bound p 4 ltac:(lia)).
  destruct (Nat.leb_spec 12 p); destruct (Nat.ltb_spec p (4 * (17 + 3)));
    destruct (Nat.ltb_spec p 8); cbn [andb]; try reflexivity; try lia.
  f_equal. lia.
Qed.

Lemma compact_length rec :
  length rec = 152%nat -> length (compact rec) = 152%nat.
Proof.
  intros Hlen. destruct (compact_from_spec 17 rec) as [H _]; [lia|lia|].
  unfold compact. now rewrite H.
Qed.

Ltac unfold_xfer32 H32 :=
  unfold windows_core_xfer_siginfo; rewrite H32; cbn [Z.eqb Pos.eqb].

(** C2.  On a 32-bit target [windows_core_xfer_siginfo] fails for every
    offset above 80; it fails unless the stored [.coreexception] section
    is exactly 152 bytes, the size of the 64-bit record; and when it
    succeeds it returns [min len (80 - offset)] bytes of the logical
    32-bit record, in which code and flags are in place and, from byte 8
    on, each 4-byte word is the first half of the stored 8-byte slot of
    the same rank: read as little-endian numbers, word [k + 1] of the
    32-bit view is the low 32 bits of the 8-byte slot [k] of the stored
    record, for every slot [k] from 1 to 18 (the loop moves the 17 slots
    2 to 18; slot 1 is already where it belongs). *)
Theorem xfer_siginfo_32bit_downconversion
    (arch : gdbarch) (core_bfd : bfd) (offset len : Z) :
  gdbarch_ptr_bit arch = 32 -> 0 <= offset -> 0 <= len ->
  (offset > 80 -> windows_core_xfer_siginfo arch core_bfd offset len = None)
  /\ (forall section,
        bfd_get_section_by_name core_bfd ".coreexception" = Some section ->
        bfd_section_size section <> 152 ->
        windows_core_xfer_siginfo arch core_bfd offset len = None)
  /\ (forall out,
        windows_core_xfer_siginfo arch core_bfd offset len = Some out ->
        exists section,
          bfd_get_section_by_name core_bfd ".coreexception" = Some section
          /\ bfd_section_size section = 152
          /\ offset <= 80
          /\ Z.of_nat (length out) = Z.min len (80 - offset)
          /\ (forall i, (i < length out)%nat ->
                nth i out x00 =
                nth (source_index (Z.to_nat offset + i)) (sect_contents section) x00)
          /\ (forall k, (1 <= k <= 18)%nat ->
                (Z.to_nat offset <= 4 * (k + 1))%nat ->
                (4 * (k + 1) + 4 <= Z.to_nat offset + length out)%nat ->
                le_int (slice out (4 * (k + 1) - Z.to_nat offset) 4) =
                le_int (slice (sect_contents section) (8 * k) 8) mod 2 ^ 32)).
Proof.
  intros H32 Hoff Hlen. split; [|split].
  - intros Hbig. unfold_xfer32 H32.
    destruct (bfd_get_section_by_name _ _); [|reflexivity].
    unfold EXC_SIZE_32. destruct (Z.gtb_spec offset 80); [reflexivity|lia].
  - intros section Hsec Hsize. unfold_xfer32 H32. rewrite Hsec.
    destruct (offset >? EXC_SIZE_32); [reflexivity|].
    unfold EXC_SIZE_64. destruct (Z.eqb_spec (bfd_section_size section) 152);
      [contradiction|reflexivity].
  - intros out. unfold_xfer32 H32.
    destruct (bfd_get_section_by_name _ _) as [section|]; [|discriminate].
    unfold EXC_SIZE_32, EXC_SIZE_64.
    destruct (Z.gtb_spec offset 80) as [|Hle]; [discriminate|].
    destruct (Z.eqb_spec (bfd_section_size section) 152) as [Hsize|];
      [|discriminate].
    cbn [negb]. unfold bfd_get_section_contents. rewrite Hsize.
    destruct (sect_readable section); cbn [andb Z.add Z.leb Z.compare Pos.compare Pos.compare_cont];
      [|discriminate].
    assert (Hstored : length (sect_contents section) = 152%nat)
      by (unfold bfd_section_size in Hsize; lia).
    change (Z.to_nat 0) with 0%nat. change (Z.to_nat 152) with 152%nat.
    rewrite <- Hstored at 1. rewrite slice_all.
    set (stored := sect_contents section) in *.
    set (n := if len >? 80 - offset then 80 - offset else len).
    assert (Hn : n = Z.min len (80 - offset))
      by (subst n; destruct (Z.gtb_spec len (80 - offset)); lia).
    intros [= <-].
    assert (Hout : length (slice (compact stored) (Z.to_nat offset) (Z.to_nat n))
                   = Z.to_nat n)
      by (apply slice_length; rewrite compact_length by assumption; lia).
    assert (Hbyte : forall i, (i < Z.to_nat n)%nat ->
              nth i (slice (compact stored) (Z.to_nat offset) (Z.to_nat n)) x00
              = nth (source_index (Z.to_nat offset + i)) stored x00).
    { intros i Hi. rewrite nth_slice by assumption.
      apply nth_compact; [assumption|lia]. }
    exists section. repeat split; try assumption.
    + rewrite Hout. lia.
    + intros i Hi. apply Hbyte. lia.
    + intros k Hk Hlo Hhi. rewrite Hout in Hhi. fold stored.
      rewrite le_int_low32 by (rewrite slice_length; lia).
      rewrite slice_slice_prefix by lia. f_equal.
      apply (nth_ext _ _ x00 x00).
      * rewrite !slice_length; rewrite ?Hout; lia.
      * intros i Hi. rewrite slice_length in Hi by (rewrite Hout; lia).
        rewrite !nth_slice by lia. rewrite nth_compact; [|assumption|lia].
        f_equal. unfold source_index.
        replace (Z.to_nat offset + (4 * (k + 1) - Z.to_nat offset + i))%nat
          with (4 * (k + 1) + i)%nat by lia.
        destruct (Nat.ltb_spec (4 * (k + 1) + i) 8); [lia|].
        replace (4 * (k + 1) + i)%nat with (i + (k + 1) * 4)%nat by lia.
        rewrite Nat.div_add, Nat.Div0.mod_add by lia.
        rewrite Nat.div_small, Nat.mod_small by lia. lia.
Qed.

Lemma xfer_siginfo_32bit_downconversion_witness :
  gdbarch_ptr_bit arch32 = 32 /\ 0 <= 0 /\ 0 <= 200
  /\ match windows_core_xfer_siginfo arch32 sample_core 0 200 with
     | Some out =>
       Z.of_nat (length out) = 80 /\ le_int (slice out 76 4) = 0x22334412
     | None => False
     end.
Proof.
  split; [reflexivity|]. split; [lia|]. split; [lia|].
  destruct (xfer_siginfo_32bit_downconversion arch32 sample_core 0 200
              eq_refl ltac:(lia) ltac:(lia)) as (_ & _ & H).
  destruct (windows_core_xfer_siginfo arch32 sample_core 0 200) as [out|] eqn:E.
  - destruct (H out eq_refl) as (section & Hsec & _ & _ & Hlen & _ & Hword).
    split; [rewrite Hlen; reflexivity|].
    injection Hsec as <-.
    etransitivity; [apply (Hword 18%nat); lia|].
    vm_compute. reflexivity.
  - vm_compute in E. discriminate E.
Defined.

End SiginfoProps.

Module InfoProcProps.
Import InfoProc ByteFacts.

Lemma read_bytes_length mem addr len bs :
  read_bytes mem addr len = Some bs -> length bs = len.
Proof.
  revert addr bs. induction len as [|len IH]; intros addr bs; cbn [read_bytes].
  - now intros [= <-].
  - destruct (mem addr); [|discriminate].
    destruct (read_bytes mem _ len) eqn:E; [|discriminate].
    intros [= <-]. cbn [length]. f_equal. eapply IH, E.
Qed.

(** C3, as stated, fails: all three reads succeed and the length is 6,
    yet the string returned is "a", not the re-encoding of the 6 bytes
    (three characters: 'a', NUL, 'b'). *)
Lemma read_unicode_string_stops_at_nul :
  target_read_memory nul_target 0x1000 2 = Some (le_bytes 2 6)
  /\ target_read_memory nul_target 0x1004 4 = Some (le_bytes 4 0x2000)
  /\ target_read_memory nul_target 0x2000 6 = Some (bytes_of [97; 0; 0; 0; 98; 0])
  /\ wide_to_host nul_target (bytes_of [97; 0; 0; 0; 98; 0]) = bytes_of [97; 0; 98]
  /\ read_unicode_string nul_target 0x1000 BFD_ENDIAN_LITTLE 4 = Some "a"%string
  /\ string_of_list_byte (bytes_of [97; 0; 98]) <> "a"%string.
Proof.
  repeat split; try (vm_compute; reflexivity).
  vm_compute. discriminate.
Qed.

(** C3 (amended).  [read_unicode_string] returns none when the 2-byte
    length read fails, when the length is 0, when the pointer-width read
    of the buffer address fails, and when the read of [length] bytes at
    the buffer address fails.  It returns a string only when all three
    reads succeed with a non-zero length, and that string is the host
    re-encoding of exactly the [length] bytes read at the buffer address,
    up to the first NUL character of the re-encoding. *)
Theorem read_unicode_string_all_or_nothing
    (t : target) (addr : Z) (order : bfd_endian) (ptr_bytes : Z) :
  (target_read_memory t addr 2 = None ->
   read_unicode_string t addr order ptr_bytes = None)
  /\ (forall lenbuf,
        target_read_memory t addr 2 = Some lenbuf ->
        extract_unsigned_integer lenbuf order = 0 ->
        read_unicode_string t addr order ptr_bytes = None)
  /\ (target_read_memory t (to_uint64 (addr + ptr_bytes)) ptr_bytes = None ->
      read_unicode_string t addr order ptr_bytes = None)
  /\ (forall lenbuf ptrbuf,
        target_read_memory t addr 2 = Some lenbuf ->
        target_read_memory t (to_uint64 (addr + ptr_bytes)) ptr_bytes = Some ptrbuf ->
        target_read_memory t (extract_unsigned_integer ptrbuf order)
          (extract_unsigned_integer lenbuf order) = None ->
        read_unicode_string t addr order ptr_bytes = None)
  /\ (forall s,
        read_unicode_string t addr order ptr_bytes = Some s ->
        exists lenbuf ptrbuf content,
          target_read_memory t addr 2 = Some lenbuf
          /\ 0 < extract_unsigned_integer lenbuf order
          /\ target_read_memory t (to_uint64 (addr + ptr_bytes)) ptr_bytes = Some ptrbuf
          /\ target_read_memory t (extract_unsigned_integer ptrbuf order)
               (extract_unsigned_integer lenbuf order) = Some content
          /\ Z.of_nat (length content) = extract_unsigned_integer lenbuf order
          /\ s = string_of_list_byte (c_str (wide_to_host t content))).
Proof.
  unfold read_unicode_string. repeat split.
  - now intros ->.
  - intros lenbuf -> ->. reflexivity.
  - intros ->. destruct (target_read_memory t addr 2); [|reflexivity].
    now destruct (_ >? 0).
  - intros lenbuf ptrbuf -> -> ->. now destruct (_ >? 0).
  - intros s.
    destruct (target_read_memory t addr 2) as [lenbuf|]; [|discriminate].
    destruct (Z.gtb_spec (extract_unsigned_integer lenbuf order) 0) as [Hpos|];
      [|discriminate].
    destruct (target_read_memory t (to_uint64 (addr + ptr_bytes)) ptr_bytes)
      as [ptrbuf|]; [|discriminate].
    destruct (target_read_memory t _ (extract_unsigned_integer lenbuf order))
      as [content|] eqn:Hcontent; [|discriminate].
    rewrite c_str_terminated. intros [= <-].
    exists lenbuf, ptrbuf, content. repeat split; try assumption; try lia.
    apply read_bytes_length in Hcontent. lia.
Qed.

Lemma read_unicode_string_all_or_nothing_witness :
  read_unicode_string nul_target 0x1000 BFD_ENDIAN_LITTLE 4 = Some "a"%string
  /\ exists content,
       target_read_memory nul_target 0x2000 6 = Some content
       /\ "a"%string = string_of_list_byte (c_str (wide_to_host nul_target content)).
Proof.
  assert (E : read_unicode_string nul_target 0x1000 BFD_ENDIAN_LITTLE 4
              = Some "a"%string) by (vm_compute; reflexivity).
  split; [exact E|].
  destruct (read_unicode_string_all_or_nothing nul_target 0x1000
              BFD_ENDIAN_LITTLE 4) as (_ & _ & _ & _ & H).
  destruct (H _ E) as (lenbuf & ptrbuf & content & Hl & _ & Hp & Hc & _ & Hs).
  exists content. split; [|exact Hs].
  vm_compute in Hl. injection Hl as <-.
  vm_compute in Hp. injection Hp as <-.
  exact Hc.
Defined.

(** C6, as stated, fails: with neither a process nor a dump attached and
    a non-empty argument, the query fails, but not with "No current
    process": the argument is checked first. *)
Lemma info_proc_argument_checked_first :
  target_has_execution detached_target = false
  /\ core_bfd detached_target = None
  /\ windows_info_proc detached_target arch32 (Some "1234"%string) IP_ALL
     = ([], Threw "Only supported for the current process")
  /\ result (windows_info_proc detached_target arch32
               (Some "1234"%string) IP_ALL)
     <> Threw "No current process".
Proof.
  repeat split. vm_compute. discriminate.
Qed.

(** C6 (amended).  [windows_info_proc] fails with "Only supported for the
    current process" whenever a non-empty argument is supplied, whatever
    the fields requested and whatever is attached; it fails with "No
    current process" when no non-empty argument is supplied and neither an
    executing process nor a dump is attached.  In both failures nothing
    was printed or warned. *)
Theorem info_proc_precondition_errors
    (t : target) (arch : gdbarch) (args : option string) (what : info_proc_what) :
  (has_args args = true ->
   windows_info_proc t arch args what
   = ([], Threw "Only supported for the current process"))
  /\ (has_args args = false ->
      target_has_execution t = false -> core_bfd t = None ->
      windows_info_proc t arch args what = ([], Threw "No current process")).
Proof.
  unfold windows_info_proc. split.
  - intros ->. reflexivity.
  - intros -> -> ->. reflexivity.
Qed.

Lemma info_proc_precondition_errors_witness :
  has_args (Some "1234"%string) = true
  /\ windows_info_proc nul_target arch32 (Some "1234"%string) IP_CWD
     = ([], Threw "Only supported for the current process")
  /\ has_args None = false
  /\ target_has_execution detached_target = false
  /\ core_bfd detached_target = None
  /\ windows_info_proc detached_target arch32 None IP_CWD
     = ([], Threw "No current process").
Proof.
  split; [reflexivity|]. split.
  - apply (proj1 (info_proc_precondition_errors nul_target arch32
                    (Some "1234"%string) IP_CWD)). reflexivity.
  - split; [reflexivity|]. split; [reflexivity|]. split; [reflexivity|].
    apply (proj2 (info_proc_precondition_errors detached_target
                    arch32 None IP_CWD)); reflexivity.
Defined.

(** C7.  When the query passes its preconditions, its output is one
    report per requested field, in the order command line, cwd, executable
    path, and the report of a field is decided by that field alone: the
    field resolved through TIB, PEB and process parameters is printed when
    it can be read and is reported by its own warning when it cannot,
    whatever happens to the other requested fields; the query then returns
    normally. *)
Theorem info_proc_fields_independent
    (t : target) (arch : gdbarch) (args : option string) (what : info_proc_what) :
  has_args args = false ->
  negb (target_has_execution t)
  && match core_bfd t with None => true | Some _ => false end = false ->
  windows_info_proc t arch args what
  = (map (fun f => field_report f (field_value t arch f)) (requested what),
     Returned tt)
  /\ (forall f s,
        wanted what f = true -> field_value t arch f = Some s ->
        In (Printed (field_name f ++ " = '" ++ s ++ "'" ++ newline))
           (events (windows_info_proc t arch args what)))
  /\ (forall f,
        wanted what f = true -> field_value t arch f = None ->
        In (Warned ("unable to read " ++ field_name f))
           (events (windows_info_proc t arch args what))).
Proof.
  intros Hargs Hattached.
  assert (Heq : windows_info_proc t arch args what
                = (map (fun f => field_report f (field_value t arch f))
                       (requested what), Returned tt)).
  { unfold windows_info_proc, field_value, process_parameters.
    rewrite Hargs, Hattached.
    set (l := layout_for arch). set (order := gdbarch_byte_order arch).
    destruct (target_get_tib_address t) as [tlb|].
    - destruct (target_read_memory t (to_uint64 (tlb + peb_offset l)) (ptr_bytes l))
        as [pebbuf|].
      + destruct (target_read_memory t _ (ptr_bytes l)) as [ppbuf|];
          cbn [option_map].
        * set (pp := extract_unsigned_integer ppbuf order).
          destruct what; cbn [what_eqb orb requested wanted filter map field_offset];
            repeat match goal with
                   | |- context [read_unicode_string t ?a ?o ?n] =>
                     destruct (read_unicode_string t a o n)
                   end; reflexivity.
        * destruct what; reflexivity.
      + destruct what; reflexivity.
    - destruct what; reflexivity. }
  split; [exact Heq|]. rewrite Heq. unfold events. cbn [fst].
  split.
  - intros f s Hw Hv. apply in_map_iff. exists f. split.
    + rewrite Hv. reflexivity.
    + apply filter_In. split; [destruct f; cbn; tauto|exact Hw].
  - intros f Hw Hv. apply in_map_iff. exists f. split.
    + rewrite Hv. reflexivity.
    + apply filter_In. split; [destruct f; cbn; tauto|exact Hw].
Qed.

Lemma info_proc_fields_independent_witness :
  has_args None = false
  /\ negb (target_has_execution partly_readable_target)
     && match core_bfd partly_readable_target with
        | None => true
        | Some _ => false
        end = false
  /\ windows_info_proc partly_readable_target arch32 None IP_ALL
     = ([ Printed ("cmdline = 'a b'" ++ newline);
          Warned "unable to read cwd";
          Printed ("exe = 'x'" ++ newline) ], Returned tt).
Proof.
  split; [reflexivity|]. split; [reflexivity|].
  rewrite (proj1 (info_proc_fields_independent partly_readable_target arch32
                    None IP_ALL eq_refl eq_refl)).
  vm_compute. reflexivity.
Defined.

End InfoProcProps.

Module ImportsProps.
Import Imports ByteFacts.

Lemma byte_eqb_eq a b : byte_eqb a b = true <-> a = b.
Proof.
  unfold byte_eqb. rewrite Z.eqb_eq. split; [apply byte_val_inj|now intros ->].
Qed.

Lemma load_in_bounds contents i :
  0 <= i < Z.of_nat (length contents) ->
  load contents i = ([], Returned (nth (Z.to_nat i) contents x00)).
Proof.
  intros Hi. unfold load.
  destruct (Z.leb_spec 0 i); [|lia].
  rewrite (nth_error_nth' contents x00) by lia. reflexivity.
Qed.

Lemma load_range_in_bounds contents n : forall i,
  0 <= i -> i + Z.of_nat n <= Z.of_nat (length contents) ->
  load_range contents i n = ([], Returned (slice contents (Z.to_nat i) n)).
Proof.
  induction n as [|n IH]; intros i Hi Hn; cbn [load_range].
  - unfold slice. reflexivity.
  - rewrite load_in_bounds by lia. cbn [bind ret app].
    rewrite IH by lia. cbn [bind ret app].
    rewrite (slice_S contents (Z.to_nat i) n x00) by lia.
    replace (Z.to_nat (i + 1)) with (S (Z.to_nat i)) by lia. reflexivity.
Qed.

(** [streq] stays inside the buffer when the name and its NUL fit, and
    says whether the bytes at [i] are exactly [s] followed by a NUL. *)
Lemma streq_at_in_bounds contents s : forall i,
  0 <= i -> i + Z.of_nat (length s) + 1 <= Z.of_nat (length contents) ->
  exists b,
    streq_at contents i s = ([], Returned b)
    /\ (b = true <-> slice contents (Z.to_nat i) (length s + 1) = s ++ [x00]).
Proof.
  induction s as [|c s IH]; intros i Hi Hfit; cbn [length] in Hfit;
    cbn [streq_at length app Nat.add].
  - rewrite load_in_bounds by lia. cbn [bind ret app].
    eexists. split; [reflexivity|].
    rewrite (slice_S contents (Z.to_nat i) 0 x00) by lia.
    unfold slice at 1. cbn [firstn].
    unfold byte_is_nul. rewrite Z.eqb_eq. change 0 with (byte_val x00).
    split.
    + intros H. apply byte_val_inj in H. now rewrite H.
    + intros [= ->]. reflexivity.
  - rewrite load_in_bounds by lia. cbn [bind ret app].
    rewrite (slice_S contents (Z.to_nat i) (length s + 1) x00) by lia.
    destruct (byte_eqb (nth (Z.to_nat i) contents x00) c) eqn:Hc.
    + apply byte_eqb_eq in Hc. rewrite Hc.
      destruct (IH (i + 1)) as (b & Hb & Hiff); [lia|lia|].
      exists b. split; [rewrite Hb; reflexivity|].
      replace (S (Z.to_nat i)) with (Z.to_nat (i + 1)) by lia.
      rewrite Hiff. split; [now intros ->|now intros [= ->]].
    + exists false. split; [reflexivity|].
      split; [discriminate|].
      intros [= H _]. apply byte_eqb_eq in H. congruence.
Qed.

Lemma length_list_byte_of_string s :
  length (list_byte_of_string s) = String.length s.
Proof.
  unfold list_byte_of_string. rewrite length_map.
  induction s as [|a s IH]; cbn; [reflexivity|now rewrite IH].
Qed.

Lemma bytes_eqb_eq a : forall b, bytes_eqb a b = true <-> a = b.
Proof.
  induction a as [|x a IH]; intros [|y b]; cbn [bytes_eqb];
    try (split; [discriminate|discriminate]); [tauto|].
  rewrite andb_true_iff, byte_eqb_eq, IH.
  split; [intros [-> ->]; reflexivity|intros [= -> ->]; tauto].
Qed.

Section WalkFacts.

Variable host_byte_order : bfd_endian.
Variable filename : string.
Variable idata_contents : list byte.
Variables idata_section_va idata_section_end_va : Z.
Variable dll_name : string.

Let size := section_end idata_contents.
Let the_walk :=
  walk host_byte_order filename idata_contents
       idata_section_va idata_section_end_va dll_name.
Let the_class :=
  classify host_byte_order idata_contents
           idata_section_va idata_section_end_va dll_name.

(** The end address does not overstate the section: it is the start
    plus the size, possibly reduced modulo [2^64]. *)
Hypothesis end_va_in_section :
  idata_section_end_va <= idata_section_va + size.

(** One turn of the loop: every access it makes is inside the section,
    and what it does is what the bytes of the entry call for. *)
Lemma walk_step fuel iter :
  0 <= iter ->
  the_walk (S fuel) iter =
  match the_class iter with
  | UnexpectedEnd =>
    ([Warned (filename ++ ": unexpected end of .idata section.")],
     Returned false)
  | Terminator => ([], Returned false)
  | NameOutside name_va =>
    ([Warned (name_outside_warning filename idata_section_va
                idata_section_end_va name_va)], Returned false)
  | NameTooNearEnd => the_walk fuel (iter + entry_size)
  | NameCompared true => ([], Returned true)
  | NameCompared false => the_walk fuel (iter + entry_size)
  end.
Proof.
  intros Hiter. subst the_walk the_class size. cbn [walk]. unfold classify.
  unfold section_end in *.
  destruct (Z.gtb_spec (iter + entry_size) (Z.of_nat (length idata_contents)))
    as [Hend|Hroom]; [reflexivity|].
  unfold entry_size in *.
  rewrite load_range_in_bounds by (change (Z.of_nat (Z.to_nat 20)) with 20; lia).
  cbn [bind ret app].
  set (dir_entry := slice idata_contents (Z.to_nat iter) (Z.to_nat 20)).
  destruct (forallb byte_is_nul dir_entry); [reflexivity|].
  set (name_va := extract_unsigned_integer (slice dir_entry 12 4) host_byte_order).
  destruct (Z.ltb_spec name_va idata_section_va) as [|Hlo]; [reflexivity|].
  destruct (Z.geb_spec name_va idata_section_end_va) as [|Hhi]; [reflexivity|].
  cbn [orb]. unfold element_address.
  destruct (Z.leb_spec 0 (name_va - idata_section_va)); [|lia].
  destruct (Z.ltb_spec (name_va - idata_section_va)
                       (Z.of_nat (length idata_contents))); [|lia].
  cbn [andb bind ret app]. unfold sizeof_dll_name.
  destruct (Z.leb_spec (name_va - idata_section_va
                        + (Z.of_nat (String.length dll_name) + 1))
                       (Z.of_nat (length idata_contents))) as [Hfit|Hpast].
  - destruct (streq_at_in_bounds idata_contents (list_byte_of_string dll_name)
                (name_va - idata_section_va)) as (b & Hb & Hiff);
      [lia|rewrite length_list_byte_of_string; lia|].
    rewrite Hb. cbn [bind ret app].
    replace (Z.to_nat (Z.of_nat (String.length dll_name) + 1))
      with (length (list_byte_of_string dll_name) + 1)%nat
      by (rewrite length_list_byte_of_string; lia).
    destruct b.
    + replace (bytes_eqb _ _) with true; [reflexivity|].
      symmetry. apply bytes_eqb_eq. now apply Hiff.
    + replace (bytes_eqb _ _) with false;
        [destruct (walk _ _ _ _ _ _ fuel (iter + 20)); reflexivity|].
      symmetry. apply not_true_is_false. rewrite bytes_eqb_eq, <- Hiff.
      discriminate.
  - cbn [bind ret app].
    destruct (walk _ _ _ _ _ _ fuel (iter + 20)); reflexivity.
Qed.

Lemma classify_room iter :
  the_class iter <> UnexpectedEnd -> iter + entry_size <= size.
Proof.
  subst the_class size. unfold classify.
  destruct (Z.gtb_spec (iter + entry_size) (section_end idata_contents));
    [congruence|lia].
Qed.

(** The walk ends: with a turn for every entry that fits and one more,
    it returns, having warned at most once and never after a match. *)
Lemma walk_returns fuel : forall iter,
  0 <= iter -> size - iter < entry_size * (Z.of_nat fuel + 1) ->
  exists ev b,
    the_walk (S fuel) iter = (ev, Returned b)
    /\ (length ev <= 1)%nat
    /\ (b = true -> ev = []).
Proof.
  assert (Hnext : forall iter,
            the_class iter <> UnexpectedEnd -> 0 <= iter ->
            0 <= iter + entry_size /\ iter + entry_size <= size).
  { intros iter Hc Hiter. apply classify_room in Hc.
    unfold entry_size in *. lia. }
  induction fuel as [|fuel IH]; intros iter Hiter Hfuel;
    rewrite walk_step by assumption;
    specialize (Hnext iter);
    destruct (the_class iter) as [| |name_va| |[|]];
    try (eexists _, _; split; [reflexivity|split; [cbn; lia|
           try discriminate; reflexivity]]);
    (destruct Hnext as [Hpos Hle]; [discriminate|assumption|]);
    unfold entry_size in *.
  - exfalso. lia.
  - exfalso. lia.
  - apply IH; lia.
  - apply IH; lia.
Qed.

(** A walk that answers yes has found, [k] entries on, an entry whose
    name pointer is inside the section, with room for the comparison,
    and whose name is the name looked for, exactly. *)
Lemma walk_true fuel : forall iter ev,
  0 <= iter ->
  the_walk fuel iter = (ev, Returned true) ->
  exists k : nat,
    the_class (iter + entry_size * Z.of_nat k) = NameCompared true.
Proof.
  induction fuel as [|fuel IH]; intros iter ev Hiter.
  - subst the_walk. cbn [walk]. discriminate.
  - rewrite walk_step by assumption.
    destruct (the_class iter) as [| |name_va| |[|]] eqn:Hclass;
      try discriminate.
    + intros H. apply IH in H; [|unfold entry_size; lia].
      destruct H as [k Hk].
      exists (S k). rewrite <- Hk. f_equal. lia.
    + intros _. exists 0%nat. rewrite <- Hclass. f_equal. lia.
    + intros H. apply IH in H; [|unfold entry_size; lia].
      destruct H as [k Hk].
      exists (S k). rewrite <- Hk. f_equal. lia.
Qed.

(** What [NameCompared true] says of the bytes. *)
Lemma classify_compared_true iter :
  the_class iter = NameCompared true ->
  iter + entry_size <= size
  /\ let name_va :=
       extract_unsigned_integer
         (slice (slice idata_contents (Z.to_nat iter) (Z.to_nat entry_size)) 12 4)
         host_byte_order in
     idata_section_va <= name_va < idata_section_end_va
     /\ name_va - idata_section_va + sizeof_dll_name dll_name <= size
     /\ slice idata_contents (Z.to_nat (name_va - idata_section_va))
              (Z.to_nat (sizeof_dll_name dll_name))
        = list_byte_of_string dll_name ++ [x00].
Proof.
  intros H. split; [apply classify_room; congruence|].
  subst the_class size. unfold classify in H.
  destruct (_ >? _); [discriminate|].
  destruct (forallb _ _); [discriminate|].
  cbv zeta.
  set (name_va := extract_unsigned_integer _ _) in *.
  destruct (Z.ltb_spec name_va idata_section_va); [discriminate|].
  destruct (Z.geb_spec name_va idata_section_end_va); [discriminate|].
  cbn [orb] in H.
  destruct (Z.leb_spec (name_va - idata_section_va + sizeof_dll_name dll_name)
                       (section_end idata_contents)); [|discriminate].
  injection H as H. apply bytes_eqb_eq in H. auto with zarith.
Qed.

Lemma classify_meaning iter :
  class_meaning host_byte_order idata_contents idata_section_va
    idata_section_end_va dll_name iter (the_class iter).
Proof.
  subst the_class size. unfold class_meaning, classify.
  destruct (Z.gtb_spec (iter + entry_size) (section_end idata_contents));
    [lia|].
  destruct (forallb _ _) eqn:Hnul; [split; [lia|reflexivity]|].
  set (name_va := extract_unsigned_integer _ _).
  destruct (Z.ltb_spec name_va idata_section_va);
    [cbn [orb]; repeat split; try lia; tauto|].
  destruct (Z.geb_spec name_va idata_section_end_va);
    [cbn [orb]; repeat split; try lia; tauto|].
  cbn [orb].
  destruct (Z.leb_spec (name_va - idata_section_va + sizeof_dll_name dll_name)
                       (section_end idata_contents)).
  - split; [lia|]. split; [reflexivity|]. split; [lia|]. split; [lia|].
    apply bytes_eqb_eq.
  - repeat split; try lia.
Qed.

End WalkFacts.

Lemma imports_named_library_cases host abfd dll_name :
  scan_case host abfd dll_name (imports_named_library host abfd dll_name).
Proof.
  unfold imports_named_library.
  destruct (bfd_get_section_by_name _ _) as [idata|] eqn:Hsec;
    [|now apply NoIdata].
  unfold gdb_assert.
  destruct (Z.geb_spec (sect_vma idata) (pe_ImageBase abfd)) as [Hbase|Hbase];
    [|eapply AssertFails; eassumption].
  cbn [bind ret app].
  set (va := sect_vma idata - pe_ImageBase abfd).
  set (end_va := to_uint64 (va + bfd_section_size idata)).
  assert (Hsize : 0 <= bfd_section_size idata)
    by (unfold bfd_section_size; lia).
  assert (Hend : end_va <= va + bfd_section_size idata)
    by (apply to_uint64_le; lia).
  destruct (Z.ltb_spec (pe_import_table_va abfd) va) as [Hlo|Hlo].
  { eapply TableOutside; [eassumption|lia|]. left. exact Hlo. }
  destruct (Z.geb_spec (pe_import_table_va abfd) end_va) as [Hhi|Hhi].
  { eapply TableOutside; [eassumption|lia|]. right. fold va end_va. lia. }
  cbn [orb].
  destruct (sect_readable idata) eqn:Hr.
  - rewrite get_full_section_contents by assumption.
    destruct (walk _ _ _ _ _ _ _ _) as [ev r] eqn:Hw.
    rewrite <- Hw. apply Walked; [assumption|lia|].
    fold va end_va. cbv zeta. split; [lia|]. split; [exact Hend|].
    unfold entry_size. rewrite Nat2Z.inj_succ, Z2Nat.id by (apply Z.div_pos; lia).
    pose proof (Z.mod_pos_bound (bfd_section_size idata) 20 ltac:(lia)).
    pose proof (Z.div_mod (bfd_section_size idata) 20 ltac:(lia)). lia.
  - unfold bfd_get_section_contents. rewrite Hr. cbn [andb].
    eapply Unreadable; eassumption.
Qed.

(** C4.  [is_linked_with_cygwin_dll] answers no when the binary has no
    [.idata] section; it answers no, after one warning, when the import
    table's virtual address lies outside the range of the [.idata]
    section; on a hand-built section whose import directory names
    "foo.dll" and "cygwin1.dll" it answers yes, the same walk looking for
    "bar.dll" answers no, and so does the function on a directory naming
    only "foo.dll" and "kernel32.dll"; with the directory's address
    pointing outside the section it warns and answers no.  In general a
    yes is only given for an entry of the directory whose name is exactly
    "cygwin1.dll". *)
Theorem is_linked_with_cygwin_dll_scan (host : bfd_endian) (abfd : pe_binary) :
  (bfd_get_section_by_name (pe_sections abfd) ".idata" = None ->
   is_linked_with_cygwin_dll host abfd = ([], Returned false))
  /\ (forall idata,
        bfd_get_section_by_name (pe_sections abfd) ".idata" = Some idata ->
        pe_ImageBase abfd <= sect_vma idata ->
        pe_import_table_va abfd < sect_vma idata - pe_ImageBase abfd
        \/ to_uint64 (sect_vma idata - pe_ImageBase abfd + bfd_section_size idata)
           <= pe_import_table_va abfd ->
        exists msg,
          is_linked_with_cygwin_dll host abfd = ([Warned msg], Returned false))
  /\ is_linked_with_cygwin_dll BFD_ENDIAN_LITTLE
       (binary_with (idata_of "foo.dll" "cygwin1.dll") 0x3000)
     = ([], Returned true)
  /\ imports_named_library BFD_ENDIAN_LITTLE
       (binary_with (idata_of "foo.dll" "cygwin1.dll") 0x3000) "bar.dll"
     = ([], Returned false)
  /\ is_linked_with_cygwin_dll BFD_ENDIAN_LITTLE
       (binary_with (idata_of "foo.dll" "kernel32.dll") 0x3000)
     = ([], Returned false)
  /\ (exists msg,
        is_linked_with_cygwin_dll BFD_ENDIAN_LITTLE
          (binary_with (idata_of "foo.dll" "cygwin1.dll") 0x5000)
        = ([Warned msg], Returned false))
  /\ (forall ev,
        is_linked_with_cygwin_dll host abfd = (ev, Returned true) ->
        exists idata (k : nat),
          bfd_get_section_by_name (pe_sections abfd) ".idata" = Some idata
          /\ let va := sect_vma idata - pe_ImageBase abfd in
             let entry := pe_import_table_va abfd - va + entry_size * Z.of_nat k in
             let name_va :=
               extract_unsigned_integer
                 (slice (slice (sect_contents idata) (Z.to_nat entry) 20) 12 4)
                 host in
             entry + entry_size <= bfd_section_size idata
             /\ va <= name_va
             /\ slice (sect_contents idata) (Z.to_nat (name_va - va)) 12
                = nul_terminated CYGWIN_DLL_NAME).
Proof.
  unfold is_linked_with_cygwin_dll.
  pose proof (imports_named_library_cases host abfd CYGWIN_DLL_NAME) as Hcase.
  split; [|split; [|split; [|split; [|split; [|split]]]]].
  - intros Hnone. unfold imports_named_library. now rewrite Hnone.
  - intros idata Hsec Hbase Hout.
    inversion Hcase as [Hs|i m Hs Hb|i m Hs Hb Ho|i m Hs Hr|i f Hs Hb Hin];
      rewrite Hsec in Hs; try discriminate; injection Hs as ->;
      try lia; try (now exists m).
    cbv zeta in Hin. lia.
  - vm_compute. reflexivity.
  - vm_compute. reflexivity.
  - vm_compute. reflexivity.
  - eexists. vm_compute. reflexivity.
  - intros ev Hyes.
    inversion Hcase as [Hs Heq|i m Hs Hb Heq|i m Hs Hb Ho Heq|i m Hs Hr Heq
                       |idata fuel Hs Hb Hin Heq];
      rewrite Hyes in Heq; try discriminate.
    cbv zeta in Hin. destruct Hin as (Hrange & Hend & _).
    apply walk_true in Heq; [|exact Hend|lia].
    destruct Heq as [k Hk]. exists idata, k. split; [exact Hs|].
    apply classify_compared_true in Hk.
    destruct Hk as (Hroom & Hname & _ & Hbytes).
    cbv zeta in *. split; [exact Hroom|]. split; [exact (proj1 Hname)|].
    exact Hbytes.
Qed.

Lemma is_linked_with_cygwin_dll_scan_witness :
  bfd_get_section_by_name (pe_sections binary_without_idata) ".idata" = None
  /\ is_linked_with_cygwin_dll BFD_ENDIAN_LITTLE binary_without_idata
     = ([], Returned false)
  /\ is_linked_with_cygwin_dll BFD_ENDIAN_LITTLE
       (binary_with (idata_of "foo.dll" "cygwin1.dll") 0x3000)
     = ([], Returned true)
  /\ exists idata (k : nat),
       bfd_get_section_by_name
         (pe_sections (binary_with (idata_of "foo.dll" "cygwin1.dll") 0x3000))
         ".idata" = Some idata
       /\ slice (sect_contents idata) 68 12 = nul_terminated CYGWIN_DLL_NAME.
Proof.
  split; [reflexivity|]. split.
  { apply (proj1 (is_linked_with_cygwin_dll_scan BFD_ENDIAN_LITTLE
                    binary_without_idata)). reflexivity. }
  destruct (is_linked_with_cygwin_dll_scan BFD_ENDIAN_LITTLE
              (binary_with (idata_of "foo.dll" "cygwin1.dll") 0x3000))
    as (_ & _ & Hyes & _ & _ & _ & Hsound).
  split; [exact Hyes|].
  destruct (Hsound _ Hyes) as (idata & k & Hsec & _).
  exists idata, k. split; [exact Hsec|].
  vm_compute in Hsec. injection Hsec as <-. vm_compute. reflexivity.
Defined.

(** C5.  The import directory walk never reads outside the contents of
    the [.idata] section and always ends having warned at most once.  At
    each entry it does what the bytes call for: with fewer than 20 bytes
    left it warns and stops; at an all-zero 20-byte entry it stops without
    a warning; at an entry whose name pointer is outside the section's
    range of virtual addresses it warns and stops; an entry whose name
    could not be compared without passing the end of the section is
    skipped, not compared; any other entry is compared, and it matches
    only when the bytes at its name are exactly "cygwin1.dll" followed by
    a NUL (so neither a longer name containing it nor the name in another
    case matches).  Every access of the model is bounds-checked where it
    happens, so a check made too late would end the run as [OutOfBounds];
    no run of the function does. *)
Theorem import_walk_stays_in_section
    (host : bfd_endian) (filename : string) (contents : list byte)
    (va end_va : Z) (fuel : nat) (iter : Z) (abfd : pe_binary) :
  end_va <= va + Z.of_nat (length contents) ->
  0 <= iter ->
  Z.of_nat (length contents) - iter < entry_size * (Z.of_nat fuel + 1) ->
  let the_walk := walk host filename contents va end_va CYGWIN_DLL_NAME in
  let class := classify host contents va end_va CYGWIN_DLL_NAME iter in
  (exists ev b,
     the_walk (S fuel) iter = (ev, Returned b) /\ (length ev <= 1)%nat)
  /\ the_walk (S fuel) iter =
     match class with
     | UnexpectedEnd =>
       ([Warned (filename ++ ": unexpected end of .idata section.")],
        Returned false)
     | Terminator => ([], Returned false)
     | NameOutside name_va =>
       ([Warned (name_outside_warning filename va end_va name_va)],
        Returned false)
     | NameTooNearEnd => the_walk fuel (iter + entry_size)
     | NameCompared true => ([], Returned true)
     | NameCompared false => the_walk fuel (iter + entry_size)
     end
  /\ class_meaning host contents va end_va CYGWIN_DLL_NAME iter class
  /\ (exists ev r,
        is_linked_with_cygwin_dll host abfd = (ev, r)
        /\ ((exists b, r = Returned b) \/ (exists msg, r = Threw msg))
        /\ (length ev <= 1)%nat)
  /\ is_linked_with_cygwin_dll BFD_ENDIAN_LITTLE
       (binary_with (idata_of "foo.dll" "xcygwin1.dll") 0x3000)
     = ([], Returned false)
  /\ is_linked_with_cygwin_dll BFD_ENDIAN_LITTLE
       (binary_with (idata_of "foo.dll" "cygwin1.dll.bak") 0x3000)
     = ([], Returned false)
  /\ is_linked_with_cygwin_dll BFD_ENDIAN_LITTLE
       (binary_with (idata_of "foo.dll" "CYGWIN1.DLL") 0x3000)
     = ([], Returned false).
Proof.
  intros Hend Hiter Hfuel the_walk class.
  split; [|split; [|split; [|split; [|split; [|split]]]]].
  - destruct (walk_returns host filename contents va end_va CYGWIN_DLL_NAME
                Hend fuel iter Hiter Hfuel) as (ev & b & Hw & Hlen & _).
    now exists ev, b.
  - apply walk_step; assumption.
  - apply classify_meaning.
  - unfold is_linked_with_cygwin_dll.
    destruct (imports_named_library_cases host abfd CYGWIN_DLL_NAME)
      as [Hs|i m Hs Hb|i m Hs Hb Ho|i m Hs Hr|idata n Hs Hb Hin].
    + eexists _, _. split; [reflexivity|]. split; [left; eauto|cbn; lia].
    + eexists _, _. split; [reflexivity|]. split; [right; eauto|cbn; lia].
    + eexists _, _. split; [reflexivity|]. split; [left; eauto|cbn; lia].
    + eexists _, _. split; [reflexivity|]. split; [left; eauto|cbn; lia].
    + cbv zeta in Hin. destruct Hin as (Hrange & Hend' & Hn).
      destruct n as [|n].
      { exfalso. unfold bfd_section_size in *. cbn [Z.of_nat] in Hn. lia. }
      destruct (walk_returns host (bfd_get_filename abfd) (sect_contents idata)
                  (sect_vma idata - pe_ImageBase abfd)
                  (to_uint64 (sect_vma idata - pe_ImageBase abfd
                              + bfd_section_size idata))
                  CYGWIN_DLL_NAME Hend' n
                  (pe_import_table_va abfd - (sect_vma idata - pe_ImageBase abfd)))
        as (ev & b & Hw & Hlen & _).
      * lia.
      * unfold section_end. unfold bfd_section_size in Hn. lia.
      * exists ev, (Returned b). split; [exact Hw|]. split; [left; eauto|exact Hlen].
  - vm_compute. reflexivity.
  - vm_compute. reflexivity.
  - vm_compute. reflexivity.
Qed.

Lemma import_walk_stays_in_section_witness :
  0x305c <= 0x3000 + Z.of_nat (length (idata_of "foo.dll" "cygwin1.dll"))
  /\ 0 <= 0
  /\ Z.of_nat (length (idata_of "foo.dll" "cygwin1.dll")) - 0
     < entry_size * (Z.of_nat 4 + 1)
  /\ exists ev b,
       walk BFD_ENDIAN_LITTLE "a.exe" (idata_of "foo.dll" "cygwin1.dll")
            0x3000 0x305c CYGWIN_DLL_NAME 5 0 = (ev, Returned b)
       /\ (length ev <= 1)%nat.
Proof.
  assert (H1 : 0x305c <= 0x3000 + Z.of_nat (length (idata_of "foo.dll" "cygwin1.dll")))
    by (vm_compute; discriminate).
  assert (H3 : Z.of_nat (length (idata_of "foo.dll" "cygwin1.dll")) - 0
               < entry_size * (Z.of_nat 4 + 1))
    by (vm_compute; reflexivity).
  split; [exact H1|]. split; [lia|]. split; [exact H3|].
  exact (proj1 (import_walk_stays_in_section BFD_ENDIAN_LITTLE "a.exe"
                  (idata_of "foo.dll" "cygwin1.dll") 0x3000 0x305c 4 0
                  (binary_with [] 0) H1 (Z.le_refl 0) H3)).
Defined.

End ImportsProps.

Module CoreModulesProps.
Import CoreModules ByteFacts.

(** What [core_get_module_name] returns: without a symbol server (a host
    that is not [_WIN32], or a server that did not start) the name in the
    payload and no warning; with one, either a path the server gave for
    the name in the payload, or that name with one warning. *)
Lemma core_get_module_name_cases gdb core_bfd sect_name wide symbol_server :
  let payload := string_of_list_byte (c_str (wide_to_host gdb wide)) in
  let '(warned, name) :=
    core_get_module_name gdb core_bfd sect_name wide symbol_server in
  (host_win32 gdb = false \/ symbol_server = 0 ->
   warned = [] /\ name = payload)
  /\ ((warned = []
       /\ exists size timestamp b,
            symbol_server_lib gdb payload size timestamp b = Some name)
      \/ (name = payload
          /\ (warned = [] \/ exists text, warned = [Warned text]))).
Proof.
  cbv zeta. unfold core_get_module_name. rewrite c_str_terminated.
  set (payload := string_of_list_byte (c_str (wide_to_host gdb wide))).
  destruct (host_win32 gdb) eqn:Hhost; cbn [andb].
  - destruct (Z.eqb_spec symbol_server 0) as [Hzero|Hserver]; cbn [negb].
    + split; [now split|]. right. split; [reflexivity|now left].
    + match goal with
      | |- context [symbol_server_lib gdb payload ?s ?t ?b] =>
        destruct (symbol_server_lib gdb payload s t b) as [symlib|] eqn:Hlib
      end.
      * split; [intros [H|H]; [discriminate|contradiction]|].
        left. split; [reflexivity|]. eauto.
      * destruct (strstr sect_name ";v="); 
          (split; [intros [H|H]; [discriminate|contradiction]|]);
          right; (split; [reflexivity|]); right; eauto.
  - split; [now split|]. right. split; [reflexivity|now left].
Qed.

(** A section that is not named [name] does not count when the section
    of that name is looked for. *)
Lemma section_by_name_without before sect after name :
  String.eqb (sect_name sect) name = false ->
  bfd_get_section_by_name (before ++ sect :: after) name
  = bfd_get_section_by_name (before ++ after) name.
Proof.
  intros Hother. unfold bfd_get_section_by_name.
  induction before as [|s before IH]; cbn [app find].
  - now rewrite Hother.
  - now rewrite IH.
Qed.

Lemma module_is_not_corebuildid (name suffix : string) :
  startswith name ".module" = true ->
  String.eqb name (".corebuildid/" ++ suffix) = false.
Proof.
  unfold startswith.
  destruct name as [|c1 [|c2 name]]; cbn [String.prefix]; try discriminate.
  - destruct (ascii_dec _ c1); discriminate.
  - destruct (ascii_dec "." c1) as [<-|]; [|discriminate].
    destruct (ascii_dec "m" c2) as [<-|]; [|discriminate].
    intros _. reflexivity.
Qed.

(** The names resolved are the same in a dump with and without a legacy
    section. *)
Lemma core_get_module_name_without gdb before sect after name wide server :
  startswith (sect_name sect) ".module" = true ->
  core_get_module_name gdb (before ++ sect :: after) name wide server
  = core_get_module_name gdb (before ++ after) name wide server.
Proof.
  intros Hmod. unfold core_get_module_name.
  rewrite section_by_name_without
    by (now apply module_is_not_corebuildid).
  reflexivity.
Qed.

(** The callback looks at the global [core_bfd] through
    [core_get_module_name] only. *)
Lemma core_process_module_section_global gdb arch core_bfd core_bfd' :
  (forall name wide server,
     core_get_module_name gdb core_bfd name wide server
     = core_get_module_name gdb core_bfd' name wide server) ->
  forall sect data,
    core_process_module_section gdb arch core_bfd sect data
    = core_process_module_section gdb arch core_bfd' sect data.
Proof.
  intros Hname sect data. unfold core_process_module_section.
  destruct (negb _ && negb _); [reflexivity|].
  destruct (bfd_get_section_contents _ _ _); [|reflexivity].
  destruct (startswith (sect_name sect) ".coremodule/"); [|reflexivity].
  destruct (negb (module_count data =? 0)); [|reflexivity].
  now rewrite Hname.
Qed.

Lemma bfd_map_over_sections_global gdb arch core_bfd core_bfd' :
  (forall name wide server,
     core_get_module_name gdb core_bfd name wide server
     = core_get_module_name gdb core_bfd' name wide server) ->
  forall abfd data,
    bfd_map_over_sections gdb arch core_bfd abfd data
    = bfd_map_over_sections gdb arch core_bfd' abfd data.
Proof.
  intros Hname abfd data. unfold bfd_map_over_sections.
  generalize (@nil event, data).
  induction abfd as [|sect rest IH]; intros state; cbn [fold_left];
    [reflexivity|].
  rewrite (core_process_module_section_global _ _ _ _ Hname). apply IH.
Qed.

Section ScannerFacts.

Variable gdb : collaborators.
Variable arch : gdbarch.
Variable core_bfd : bfd.

Lemma process_coremodule sect data :
  startswith (sect_name sect) ".coremodule/" = true ->
  core_process_module_section gdb arch core_bfd sect data =
  match decode_coremodule gdb core_bfd (use_symbol_server data) sect with
  | Some m => count_module gdb m data
  | None => ([], data)
  end.
Proof.
  intros Hcore. unfold core_process_module_section, decode_coremodule.
  rewrite Hcore, andb_false_r.
  destruct (sect_readable sect) eqn:Hr.
  - rewrite get_full_section_contents by assumption.
    destruct (core_get_module_name gdb core_bfd (sect_name sect)
                (sect_contents sect) (use_symbol_server data))
      as [warned name].
    unfold count_module, element_of, windows_xfer_shared_library.
    cbn [mod_name mod_load_address mod_warnings].
    destruct (module_count data =? 0); reflexivity.
  - now rewrite get_unreadable_section_contents.
Qed.

Lemma process_module_note sect data :
  startswith (sect_name sect) ".coremodule/" = false ->
  startswith (sect_name sect) ".module" = true ->
  core_process_module_section gdb arch core_bfd sect data =
  match decode_module_note arch sect with
  | Some m => count_module gdb m data
  | None => ([], data)
  end.
Proof.
  intros Hcore Hmod.
  unfold core_process_module_section, decode_module_note, legacy_malformed.
  rewrite Hcore, Hmod. cbn [negb andb].
  destruct (sect_readable sect) eqn:Hr;
    [|now rewrite get_unreadable_section_contents].
  rewrite get_full_section_contents by assumption. cbn [andb].
  assert (Hsize : bfd_section_size sect = Z.of_nat (length (sect_contents sect)))
    by reflexivity.
  destruct (Z.ltb_spec (bfd_section_size sect) 4) as [|H4]; [reflexivity|].
  cbn [orb]. unfold u32_at.
  rewrite (slice_app_l _ _ 0 4) by lia.
  set (tag := extract_unsigned_integer (slice (sect_contents sect) 0 4) _).
  destruct (tag =? NOTE_INFO_MODULE) eqn:H32.
  - destruct (Z.ltb_spec (bfd_section_size sect) 12) as [|H12];
      [reflexivity|].
    cbn [orb]. rewrite (slice_app_l _ _ 4 4), (slice_app_l _ _ 8 4) by lia.
    destruct (12 + _ >? bfd_section_size sect); [reflexivity|].
    cbn [negb]. apply Z.eqb_eq in H32.
    replace (tag =? NOTE_INFO_MODULE64) with false
      by (rewrite H32; reflexivity).
    change (Z.to_nat 12) with 12%nat.
    rewrite c_str_skipn_terminated by lia.
    unfold count_module, element_of, windows_xfer_shared_library.
    cbn [mod_name mod_load_address mod_warnings].
    destruct (module_count data =? 0); reflexivity.
  - destruct (tag =? NOTE_INFO_MODULE64) eqn:H64; [|reflexivity].
    destruct (Z.ltb_spec (bfd_section_size sect) 16) as [|H16];
      [reflexivity|].
    cbn [orb]. rewrite (slice_app_l _ _ 4 8), (slice_app_l _ _ 12 4) by lia.
    destruct (16 + _ >? bfd_section_size sect); [reflexivity|].
    cbn [negb]. change (Z.to_nat 16) with 16%nat.
    rewrite c_str_skipn_terminated by lia.
    unfold count_module, element_of, windows_xfer_shared_library.
    cbn [mod_name mod_load_address mod_warnings].
    destruct (module_count data =? 0); reflexivity.
Qed.

(** One section: the callback does to [data] what the section, decoded
    on its own, calls for. *)
Lemma process_section sect data :
  core_process_module_section gdb arch core_bfd sect data =
  match decode_module gdb arch core_bfd (use_symbol_server data) sect with
  | Some m => count_module gdb m data
  | None => ([], data)
  end.
Proof.
  unfold decode_module.
  destruct (startswith (sect_name sect) ".coremodule/") eqn:Hcore.
  - now apply process_coremodule.
  - destruct (startswith (sect_name sect) ".module") eqn:Hmod.
    + now apply process_module_note.
    + unfold core_process_module_section. now rewrite Hcore, Hmod.
Qed.

Lemma append_assoc (a b c : string) :
  ((a ++ b) ++ c = a ++ (b ++ c))%string.
Proof. induction a as [|x a IH]; cbn; [reflexivity|now rewrite IH]. Qed.

Lemma append_nil_r (a : string) : (a ++ EmptyString = a)%string.
Proof. induction a as [|x a IH]; cbn; [reflexivity|now rewrite IH]. Qed.

(** The whole scan, from any data with a count that is not negative:
    the modules decoded are counted, and all of them are written, with
    their warnings, except the first when nothing was counted before. *)
Lemma scan_sections abfd : forall warned data,
  0 <= module_count data ->
  fold_left (fun state sect =>
               let '(warned, data) :=
                 core_process_module_section gdb arch core_bfd sect (snd state) in
               (fst state ++ warned, data))
            abfd (warned, data) =
  let ms := decoded_modules gdb arch core_bfd (use_symbol_server data) abfd in
  let listed := if module_count data =? 0 then tl ms else ms in
  (warned ++ flat_map mod_warnings listed,
   {| obstack := String.append (obstack data) (elements gdb listed);
      module_count := module_count data + Z.of_nat (length ms);
      use_symbol_server := use_symbol_server data |}).
Proof.
  induction abfd as [|sect rest IH]; intros warned data Hcount;
    cbn [fold_left decoded_modules].
  - cbv zeta. destruct data as [obs n server];
      cbn [obstack module_count use_symbol_server length tl].
    destruct (n =? 0); unfold elements; cbn [map fold_right flat_map];
      rewrite append_nil_r, app_nil_r; do 2 f_equal; lia.
  - cbn [snd fst]. rewrite process_section.
    destruct (decode_module gdb arch core_bfd (use_symbol_server data) sect)
      as [m|].
    + unfold count_module at 1.
      rewrite IH by (cbn [module_count]; lia).
      cbv zeta. cbn [module_count obstack use_symbol_server length tl].
      destruct (Z.eqb_spec (module_count data + 1) 0) as [|_]; [lia|].
      destruct (module_count data =? 0).
      * rewrite app_nil_r. do 2 f_equal. lia.
      * cbn [flat_map]. rewrite app_assoc. f_equal. f_equal; [|lia].
        unfold elements. cbn [map fold_right]. apply append_assoc.
    + rewrite app_nil_r. now apply IH.
Qed.

Lemma build_library_list_decoded :
  build_library_list gdb arch core_bfd =
  (flat_map mod_warnings (tl (modules_of gdb arch core_bfd)),
   ("<library-list>" ++ newline
    ++ elements gdb (tl (modules_of gdb arch core_bfd))
    ++ "</library-list>" ++ newline)%string).
Proof.
  unfold build_library_list, bfd_map_over_sections, modules_of.
  rewrite scan_sections by (cbn; lia).
  cbv zeta. cbn [obstack module_count use_symbol_server Z.eqb app].
  rewrite !append_assoc. reflexivity.
Qed.

End ScannerFacts.

Lemma module_is_not_coremodule (name : string) :
  startswith name ".module" = true -> startswith name ".coremodule/" = false.
Proof.
  unfold startswith.
  destruct name as [|c1 [|c2 name]]; cbn [String.prefix]; try discriminate.
  - destruct (ascii_dec _ c1); discriminate.
  - destruct (ascii_dec "." c1); [|discriminate].
    destruct (ascii_dec "m" c2) as [<-|]; [|discriminate].
    intros _. destruct (ascii_dec "c" "m"); [discriminate|reflexivity].
Qed.



(** C10.  A legacy [.module] section that is malformed (smaller than 4
    bytes, a type tag that is neither MODULE32 nor MODULE64, smaller than
    the fixed offset of the name, or a declared name length that with the
    header exceeds the section's size) leaves the scanner's data as it
    was, the module counter included, and warns of nothing, so the list
    of a dump is the list of the dump without that section.  When such a
    section is discovered first, the module decoded from the next section
    is therefore the one that is left out. *)
Theorem malformed_module_note_not_counted
    (gdb : collaborators) (arch : gdbarch) (sect : asection) :
  startswith (sect_name sect) ".module" = true ->
  legacy_malformed arch sect = true ->
  (forall core_bfd data,
     core_process_module_section gdb arch core_bfd sect data = ([], data))
  /\ (forall before after,
        build_library_list gdb arch (before ++ sect :: after)
        = build_library_list gdb arch (before ++ after))
  /\ (forall next m rest,
        let core_bfd := sect :: next :: rest in
        let server := symbol_server_in_use gdb in
        decode_module gdb arch core_bfd server next = Some m ->
        build_library_list gdb arch core_bfd
        = (flat_map mod_warnings
             (decoded_modules gdb arch core_bfd server rest),
           ("<library-list>" ++ newline
            ++ elements gdb (decoded_modules gdb arch core_bfd server rest)
            ++ "</library-list>" ++ newline)%string)).
Proof.
  intros Hmod Hbad.
  assert (Hnone : forall core_bfd server,
            decode_module gdb arch core_bfd server sect = None).
  { intros core_bfd server. unfold decode_module.
    rewrite (module_is_not_coremodule _ Hmod), Hmod.
    unfold decode_module_note. rewrite Hbad, andb_false_r. reflexivity. }
  assert (Hskip : forall core_bfd data,
            core_process_module_section gdb arch core_bfd sect data = ([], data)).
  { intros core_bfd data. rewrite process_section, Hnone. reflexivity. }
  split; [exact Hskip|]. split.
  - intros before after. unfold build_library_list.
    rewrite (bfd_map_over_sections_global gdb arch (before ++ sect :: after)
               (before ++ after))
      by (intros; now apply core_get_module_name_without).
    unfold bfd_map_over_sections.
    rewrite !fold_left_app. cbn [fold_left]. rewrite Hskip.
    rewrite app_nil_r. now destruct (fold_left _ before _).
  - intros next m rest core_bfd server Hnext.
    rewrite build_library_list_decoded. unfold modules_of.
    fold core_bfd. fold server. unfold core_bfd at 2 4.
    cbn [decoded_modules]. rewrite Hnone, Hnext. reflexivity.
Qed.

Lemma malformed_module_note_not_counted_witness :
  startswith (sect_name (module_note (le_bytes 4 7))) ".module" = true
  /\ legacy_malformed arch32 (module_note (le_bytes 4 7)) = true
  /\ build_library_list sample_gdb arch32
       (module_note (le_bytes 4 7) :: scenario_core)
     = ([], library_list_text [("lib.dll", "0x3000")]%string).
Proof.
  split; [reflexivity|]. split; [reflexivity|].
  destruct (malformed_module_note_not_counted sample_gdb arch32
              (module_note (le_bytes 4 7)) eq_refl eq_refl) as (_ & _ & H).
  unfold scenario_core.
  rewrite (H (coremodule "1000" "app.exe") _ [coremodule "2000" "lib.dll"] eq_refl).
  vm_compute. reflexivity.
Defined.

End CoreModulesProps.

Module EntryBreakpointProps.
Import EntryBreakpoint.

Lemma at_entry_spec pspace entry locations :
  existsb (fun loc => (loc_pspace loc =? pspace) && (loc_address loc =? entry))
          locations = true
  <-> exists loc,
        In loc locations /\ loc_pspace loc = pspace /\ loc_address loc = entry.
Proof.
  rewrite existsb_exists. split; intros (loc & Hin & H); exists loc;
    (split; [exact Hin|]).
  - apply andb_true_iff in H. now rewrite !Z.eqb_eq in H.
  - apply andb_true_iff. now rewrite !Z.eqb_eq.
Qed.

(** C8.  When the entry point recorded for the current program space is
    the address of one of the breakpoint's locations in that program
    space, [re_set] leaves the locations as they are and relocates
    nothing.  When it is the address of none of them, [re_set] makes
    exactly one call of [update_breakpoint_locations], for the current
    program space and the one address of the entry point.  Hence, once
    that update has put a location at the entry point, a second [re_set]
    changes nothing. *)
Theorem re_set_idempotent
    (update : list bp_location -> Z -> list Z -> list bp_location)
    (pspace entry : Z) (locations : list bp_location) :
  ((exists loc, In loc locations
                /\ loc_pspace loc = pspace /\ loc_address loc = entry) ->
   re_set update pspace entry locations = (locations, []))
  /\ ((forall loc, In loc locations ->
                   ~ (loc_pspace loc = pspace /\ loc_address loc = entry)) ->
      re_set update pspace entry locations
      = (update locations pspace [entry],
         [ {| reloc_pspace := pspace; reloc_sals := [entry] |} ]))
  /\ (In {| loc_pspace := pspace; loc_address := entry |}
         (update locations pspace [entry]) ->
      re_set update pspace entry (fst (re_set update pspace entry locations))
      = (fst (re_set update pspace entry locations), [])).
Proof.
  unfold re_set.
  destruct (existsb _ locations) eqn:Hat.
  - split; [reflexivity|]. split.
    + intros Hnone. apply at_entry_spec in Hat.
      destruct Hat as (loc & Hin & Hloc). now destruct (Hnone loc Hin).
    + intros _. cbn [fst]. now rewrite Hat.
  - split; [|split].
    + intros Hsome. apply at_entry_spec in Hsome. congruence.
    + reflexivity.
    + intros Hin. cbn [fst].
      replace (existsb _ (update locations pspace [entry])) with true;
        [reflexivity|].
      symmetry. apply at_entry_spec. eexists. split; [exact Hin|].
      split; reflexivity.
Qed.

Lemma re_set_idempotent_witness :
  (forall loc, In loc [ {| loc_pspace := 1; loc_address := 0x401000 |} ] ->
               ~ (loc_pspace loc = 1 /\ loc_address loc = 0x501000))
  /\ re_set replace_locations 1 0x501000
       [ {| loc_pspace := 1; loc_address := 0x401000 |} ]
     = ([ {| loc_pspace := 1; loc_address := 0x501000 |} ],
        [ {| reloc_pspace := 1; reloc_sals := [0x501000] |} ])
  /\ re_set replace_locations 1 0x501000
       [ {| loc_pspace := 1; loc_address := 0x501000 |} ]
     = ([ {| loc_pspace := 1; loc_address := 0x501000 |} ], []).
Proof.
  assert (Hnone : forall loc,
            In loc [ {| loc_pspace := 1; loc_address := 0x401000 |} ] ->
            ~ (loc_pspace loc = 1 /\ loc_address loc = 0x501000)).
  { intros loc [<-|[]] [_ H]. discriminate H. }
  split; [exact Hnone|]. split.
  - exact (proj1 (proj2 (re_set_idempotent replace_locations 1 0x501000
                           [ {| loc_pspace := 1; loc_address := 0x401000 |} ]))
                 Hnone).
  - apply (proj1 (re_set_idempotent replace_locations 1 0x501000
                    [ {| loc_pspace := 1; loc_address := 0x501000 |} ])).
    eexists. split; [left; reflexivity|]. split; reflexivity.
Defined.

End EntryBreakpointProps.

Module TargetSignalsProps.
Import TargetSignals.

(** X1.  Both tables give -1 exactly for the signals they do not list,
    give numbers of their own enumeration otherwise (0 to 22 for Windows,
    0 to 31 for Cygwin), and never give two signals the same number.
    Where the Windows table knows a signal the Cygwin table gives the same
    number, except for SIGABRT (22 on Windows, 6 on Cygwin).  The
    signals listed are 0, HUP, INT, QUIT, ILL, TRAP, ABRT, EMT, FPE, KILL,
    BUS, SEGV, SYS, PIPE, ALRM and TERM for Windows, and for Cygwin these
    with URG, STOP, TSTP, CONT, CHLD, TTIN, TTOU, IO, XCPU, XFSZ, VTALRM,
    PROF, WINCH, PWR, USR1 and USR2; the Cygwin numbers are 0 to 31 in
    that order. *)
Theorem signal_to_target_tables (a b : gdb_signal) :
  (windows_gdb_signal_to_target a = -1
   \/ 0 <= windows_gdb_signal_to_target a <= 22)
  /\ (cygwin_gdb_signal_to_target a = -1
      \/ 0 <= cygwin_gdb_signal_to_target a <= 31)
  /\ (windows_gdb_signal_to_target a = windows_gdb_signal_to_target b ->
      windows_gdb_signal_to_target a <> -1 -> a = b)
  /\ (cygwin_gdb_signal_to_target a = cygwin_gdb_signal_to_target b ->
      cygwin_gdb_signal_to_target a <> -1 -> a = b)
  /\ (windows_gdb_signal_to_target a <> -1 -> a <> GDB_SIGNAL_ABRT ->
      cygwin_gdb_signal_to_target a = windows_gdb_signal_to_target a)
  /\ (windows_gdb_signal_to_target a <> -1 ->
      cygwin_gdb_signal_to_target a <> -1)
  /\ (windows_gdb_signal_to_target a <> -1 <-> In a windows_signals)
  /\ (cygwin_gdb_signal_to_target a <> -1 <-> In a cygwin_signals)
  /\ (forall n, (n < 32)%nat ->
        cygwin_gdb_signal_to_target (nth n cygwin_signals GDB_SIGNAL_UNKNOWN)
        = Z.of_nat n)
  /\ windows_gdb_signal_to_target GDB_SIGNAL_ABRT = 22
  /\ cygwin_gdb_signal_to_target GDB_SIGNAL_ABRT = 6.
Proof.
  split; [|split; [|split; [|split; [|split; [|split; [|split; [|split;
    [|split; [|split]]]]]]]]].
  7:{ split; [intros Hn|intros Hin Hn].
      - destruct a; try (exfalso; apply Hn; reflexivity);
          unfold windows_signals; cbn [In]; tauto.
      - unfold windows_signals in Hin. cbn [In] in Hin.
        destruct a; try discriminate Hn;
          repeat (destruct Hin as [Hin|Hin]; [discriminate Hin|]);
          exact Hin. }
  7:{ split; [intros Hn|intros Hin Hn].
      - destruct a; try (exfalso; apply Hn; reflexivity);
          unfold cygwin_signals; cbn [In]; tauto.
      - unfold cygwin_signals in Hin. cbn [In] in Hin.
        destruct a; try discriminate Hn;
          repeat (destruct Hin as [Hin|Hin]; [discriminate Hin|]);
          exact Hin. }
  7:{ intros n Hn.
      do 32 (destruct n as [|n]; [reflexivity|]). lia. }
  7:{ reflexivity. }
  7:{ reflexivity. }
  - destruct a; cbv; (left; reflexivity) || (right; split; discriminate).
  - destruct a; cbv; (left; reflexivity) || (right; split; discriminate).
  - destruct a, b; intros H Hn; try reflexivity; try discriminate H;
      exfalso; apply Hn; reflexivity.
  - destruct a, b; intros H Hn; try reflexivity; try discriminate H;
      exfalso; apply Hn; reflexivity.
  - destruct a; intros Hn Ha; try reflexivity;
      try (exfalso; apply Hn; reflexivity); exfalso; apply Ha; reflexivity.
  - destruct a; intros Hn; try (cbv; discriminate);
      exfalso; apply Hn; reflexivity.
Qed.

Lemma signal_to_target_tables_witness :
  windows_gdb_signal_to_target GDB_SIGNAL_SEGV
  = windows_gdb_signal_to_target GDB_SIGNAL_SEGV
  /\ windows_gdb_signal_to_target GDB_SIGNAL_SEGV <> -1
  /\ GDB_SIGNAL_SEGV <> GDB_SIGNAL_ABRT
  /\ cygwin_gdb_signal_to_target GDB_SIGNAL_SEGV = 11.
Proof.
  assert (Hn : windows_gdb_signal_to_target GDB_SIGNAL_SEGV <> -1)
    by (cbn; discriminate).
  assert (Ha : GDB_SIGNAL_SEGV <> GDB_SIGNAL_ABRT) by discriminate.
  split; [reflexivity|]. split; [exact Hn|]. split; [exact Ha|].
  destruct (signal_to_target_tables GDB_SIGNAL_SEGV GDB_SIGNAL_SEGV)
    as (_ & _ & _ & _ & H & _).
  rewrite (H Hn Ha). reflexivity.
Defined.

Lemma switch_listed v :
  In v Signals.case_constants ->
  Signals.switch Signals.case_groups v <> Signals.GDB_SIGNAL_UNKNOWN.
Proof.
  intros Hin. cbn in Hin.
  repeat (destruct Hin as [<-|Hin]; [vm_compute; discriminate|]).
  destruct Hin.
Qed.

(** X2.  Every case label of [windows_gdb_signal_from_target] other than
    0 is the code of an entry of [exception_values] with one zero
    hexadecimal digit missing, and no code of [exception_values] is a
    case label: the switch maps every exception code the file names to
    [GDB_SIGNAL_UNKNOWN].  A signal is handed on to the program as a
    Windows signal number (not -1) exactly when its value is one of the
    case labels. *)
Theorem named_exception_codes_are_unknown (signal : Z) :
  (forall label, In label Signals.case_constants -> label <> 0 ->
     Signals.exception_name (with_eight_digits label) <> None
     /\ Signals.windows_gdb_signal_from_target (with_eight_digits label)
        = Signals.GDB_SIGNAL_UNKNOWN)
  /\ (forall code name, In (code, name) Signals.exception_values ->
        Signals.windows_gdb_signal_from_target code
        = Signals.GDB_SIGNAL_UNKNOWN)
  /\ (windows_gdb_signal_to_target
        (of_from_target (Signals.windows_gdb_signal_from_target signal)) <> -1
      <-> In (to_uint32 signal) Signals.case_constants).
Proof.
  split; [|split].
  - intros label Hin Hnz. cbn in Hin.
    repeat (destruct Hin as [<-|Hin];
            [first [ exfalso; apply Hnz; reflexivity
                   | split; [vm_compute; discriminate|vm_compute; reflexivity] ]|]).
    destruct Hin.
  - intros code name Hin. cbn in Hin.
    repeat (destruct Hin as [[= <- <-]|Hin]; [vm_compute; reflexivity|]).
    destruct Hin.
  - unfold Signals.windows_gdb_signal_from_target. split.
    + intros Hn.
      destruct (in_dec Z.eq_dec (to_uint32 signal) Signals.case_constants)
        as [Hin|Hout]; [exact Hin|].
      exfalso. apply Hn.
      rewrite (SignalsProps.switch_default _ _ Hout). reflexivity.
    + intros Hin. apply switch_listed in Hin.
      destruct (Signals.switch Signals.case_groups (to_uint32 signal));
        cbn; try discriminate. now destruct Hin.
Qed.

Lemma named_exception_codes_are_unknown_witness :
  In 0xC000005 Signals.case_constants /\ 0xC000005 <> 0
  /\ with_eight_digits 0xC000005 = 0xC0000005
  /\ Signals.windows_gdb_signal_from_target 0xC0000005
     = Signals.GDB_SIGNAL_UNKNOWN.
Proof.
  assert (Hin : In 0xC000005 Signals.case_constants)
    by (cbn; right; left; reflexivity).
  assert (Hnz : 0xC000005 <> 0) by discriminate.
  split; [exact Hin|]. split; [exact Hnz|]. split; [reflexivity|].
  exact (proj2 (proj1 (named_exception_codes_are_unknown 0) _ Hin Hnz)).
Defined.

End TargetSignalsProps.

Module ObjfilesProps.
Import Objfiles.

Lemma visit_others_spec cb current objfiles :
  let candidates :=
    filter (fun o => match current with
                     | Some cur => negb (o =? cur)
                     | None => true
                     end) objfiles in
  match find cb candidates with
  | None => visit_others cb current objfiles = candidates
  | Some hit =>
    exists before after,
      candidates = before ++ hit :: after
      /\ visit_others cb current objfiles = before ++ [hit]
      /\ forallb (fun o => negb (cb o)) before = true
  end.
Proof.
  cbv zeta.
  set (keep := fun o => match current with
                        | Some cur => negb (o =? cur)
                        | None => true
                        end).
  induction objfiles as [|o rest IH]; cbn [visit_others filter].
  - reflexivity.
  - change (match current with Some cur => negb (o =? cur) | None => true end)
      with (keep o).
    destruct (keep o).
    + cbn [find]. destruct (cb o) eqn:Hcb.
      * exists [], (filter keep rest). repeat split.
      * destruct (find cb (filter keep rest)) as [hit|].
        -- destruct IH as (before & after & Hc & Hv & Hb).
           exists (o :: before), after. rewrite Hc, Hv. cbn [forallb app].
           rewrite Hcb. repeat split. exact Hb.
        -- now rewrite IH.
    + exact IH.
Qed.

(** X3.  The objfiles the callback is called on are the current objfile,
    when there is one, followed by the other objfiles of the program
    space in their order, up to and including the first the callback
    accepts: the current objfile is asked first and is not asked again
    when the list is reached, every objfile asked before the last was
    refused, and when the program space lists no objfile twice none is
    asked twice. *)
Theorem objfiles_search_order
    (cb : Z -> bool) (current_objfile : option Z) (objfiles : list Z) :
  let order :=
    match current_objfile with
    | Some cur => cur :: filter (fun o => negb (o =? cur)) objfiles
    | None => objfiles
    end in
  let visited :=
    windows_iterate_over_objfiles_in_search_order cb current_objfile objfiles in
  (match find cb order with
   | None => visited = order
   | Some hit =>
     exists before after,
       order = before ++ hit :: after
       /\ visited = before ++ [hit]
       /\ forallb (fun o => negb (cb o)) before = true
   end)
  /\ (NoDup objfiles -> NoDup visited).
Proof.
  cbv zeta.
  assert (Hfilter : forall l : list Z, filter (fun _ => true) l = l).
  { induction l as [|x l IH]; cbn; [reflexivity|now rewrite IH]. }
  assert (Hmain :
    match find cb
            match current_objfile with
            | Some cur => cur :: filter (fun o => negb (o =? cur)) objfiles
            | None => objfiles
            end with
    | None =>
      windows_iterate_over_objfiles_in_search_order cb current_objfile objfiles
      = match current_objfile with
        | Some cur => cur :: filter (fun o => negb (o =? cur)) objfiles
        | None => objfiles
        end
    | Some hit =>
      exists before after,
        match current_objfile with
        | Some cur => cur :: filter (fun o => negb (o =? cur)) objfiles
        | None => objfiles
        end = before ++ hit :: after
        /\ windows_iterate_over_objfiles_in_search_order cb current_objfile
             objfiles = before ++ [hit]
        /\ forallb (fun o => negb (cb o)) before = true
    end).
  { unfold windows_iterate_over_objfiles_in_search_order.
    pose proof (visit_others_spec cb current_objfile objfiles) as Hv.
    cbv zeta in Hv. destruct current_objfile as [cur|].
    - cbn [find]. destruct (cb cur) eqn:Hcb.
      + exists [], (filter (fun o => negb (o =? cur)) objfiles). repeat split.
      + destruct (find cb (filter _ objfiles)) as [hit|].
        * destruct Hv as (before & after & Hc & Hvis & Hb).
          exists (cur :: before), after. rewrite Hc, Hvis. cbn [forallb app].
          rewrite Hcb. repeat split. exact Hb.
        * now rewrite Hv.
    - rewrite Hfilter in Hv. exact Hv. }
  split; [exact Hmain|].
  intros Hnd.
  assert (Horder : NoDup match current_objfile with
                         | Some cur => cur :: filter (fun o => negb (o =? cur)) objfiles
                         | None => objfiles
                         end).
  { destruct current_objfile as [cur|]; [|exact Hnd].
    constructor.
    - rewrite filter_In. intros [_ H]. now rewrite Z.eqb_refl in H.
    - now apply NoDup_filter. }
  destruct (find cb _) as [hit|].
  - destruct Hmain as (before & after & Hc & Hvis & _).
    rewrite Hvis. rewrite Hc in Horder.
    apply NoDup_remove_1 in Horder as Hrest.
    apply NoDup_remove_2 in Horder as Hnotin.
    apply NoDup_app_remove_r in Hrest.
    clear - Hrest Hnotin.
    induction before as [|x before IH]; cbn.
    + constructor; [intros []|constructor].
    + inversion Hrest as [|? ? Hx Hb]; subst. constructor.
      * rewrite in_app_iff. intros [H|[<-|[]]]; [now apply Hx|].
        apply Hnotin. cbn. now left.
      * apply IH; [exact Hb|]. intros H. apply Hnotin. cbn. now right.
  - now rewrite Hmain.
Qed.

Lemma objfiles_search_order_witness :
  NoDup [1; 2; 3; 4]
  /\ windows_iterate_over_objfiles_in_search_order (fun o => o =? 2)
       (Some 3) [1; 2; 3; 4] = [3; 1; 2]
  /\ NoDup (windows_iterate_over_objfiles_in_search_order (fun o => o =? 2)
              (Some 3) [1; 2; 3; 4]).
Proof.
  assert (Hnd : NoDup [1; 2; 3; 4]).
  { repeat constructor; cbn; intuition discriminate. }
  split; [exact Hnd|]. split; [reflexivity|].
  exact (proj2 (objfiles_search_order (fun o => o =? 2) (Some 3) [1; 2; 3; 4])
               Hnd).
Defined.

End ObjfilesProps.

Module TransferProps.
Import ByteFacts.

Lemma firstn_add {A} (l : list A) : forall n m,
  firstn (n + m) l = firstn n l ++ firstn m (skipn n l).
Proof.
  induction l as [|x l IH]; intros [|n] m; cbn [Nat.add firstn skipn app];
    try reflexivity.
  - now rewrite firstn_nil.
  - now rewrite IH.
Qed.

Lemma slice_add (buf : list byte) off n m :
  slice buf off (n + m) = slice buf off n ++ slice buf (off + n) m.
Proof.
  unfold slice. rewrite firstn_add, skipn_skipn.
  now replace (n + off)%nat with (off + n)%nat by lia.
Qed.

Lemma slice_clamp (buf : list byte) off n :
  slice buf off (Nat.min n (length buf - off)) = slice buf off n.
Proof.
  unfold slice. destruct (Nat.le_gt_cases n (length buf - off)).
  - now rewrite Nat.min_l.
  - rewrite Nat.min_r by lia.
    rewrite !firstn_all2; [reflexivity| |]; rewrite length_skipn; lia.
Qed.

Lemma slice_of_prefix (buf : list byte) k off n :
  (off + n <= k)%nat -> slice (firstn k buf) off n = slice buf off n.
Proof.
  intros H. unfold slice. rewrite skipn_firstn_comm, firstn_firstn.
  f_equal. lia.
Qed.

Lemma slice_length_le (buf : list byte) off n :
  (length (slice buf off n) <= n)%nat.
Proof. unfold slice. rewrite length_firstn. lia. Qed.

Lemma c_str_prefix bs : c_str bs = firstn (length (c_str bs)) bs.
Proof.
  induction bs as [|b bs IH]; cbn [c_str]; [reflexivity|].
  destruct (byte_is_nul b); [reflexivity|].
  cbn [length firstn]. now rewrite <- IH.
Qed.

Lemma c_str_no_nul bs : forallb (fun b => negb (byte_is_nul b)) (c_str bs) = true.
Proof.
  induction bs as [|b bs IH]; cbn [c_str]; [reflexivity|].
  destruct (byte_is_nul b) eqn:Hb; [reflexivity|].
  cbn [forallb]. now rewrite Hb, IH.
Qed.

Lemma c_str_until_nul a rest :
  forallb (fun b => negb (byte_is_nul b)) a = true ->
  c_str (a ++ x00 :: rest) = a.
Proof.
  induction a as [|b a IH]; cbn [forallb app c_str].
  - reflexivity.
  - intros H. apply andb_true_iff in H. destruct H as [Hb Ha].
    apply negb_true_iff in Hb. rewrite Hb. now rewrite IH.
Qed.

Lemma c_str_idempotent bs : c_str (c_str bs) = c_str bs.
Proof.
  induction bs as [|b bs IH]; cbn [c_str]; [reflexivity|].
  destruct (byte_is_nul b) eqn:Hb; [reflexivity|].
  cbn [c_str]. now rewrite Hb, IH.
Qed.

Lemma forallb_firstn {A} (f : A -> bool) n (l : list A) :
  forallb f l = true -> forallb f (firstn n l) = true.
Proof.
  revert n. induction l as [|x l IH]; intros [|n]; cbn; try reflexivity.
  intros H. apply andb_true_iff in H. destruct H as [-> H]. now apply IH.
Qed.

Section Siginfo32.

Import Siginfo.

Variable arch : gdbarch.
Variable core_bfd : bfd.
Hypothesis target_is_32bit : gdbarch_ptr_bit arch = 32.

(** A read of the 32-bit record is a slice of the converted record, as
    soon as any read works at all. *)
Lemma xfer_siginfo_32_slice offset len full :
  0 <= offset <= 80 -> 0 <= len ->
  windows_core_xfer_siginfo arch core_bfd 0 80 = Some full ->
  length full = 80%nat
  /\ windows_core_xfer_siginfo arch core_bfd offset len
     = Some (slice full (Z.to_nat offset) (Z.to_nat len)).
Proof.
  intros Hoff Hlen. unfold windows_core_xfer_siginfo.
  rewrite target_is_32bit. cbn [Z.eqb Pos.eqb].
  destruct (bfd_get_section_by_name _ _) as [section|]; [|discriminate].
  unfold EXC_SIZE_32, EXC_SIZE_64.
  destruct (Z.gtb_spec offset 80); [lia|].
  change (0 >? 80) with false. cbv iota.
  destruct (Z.eqb_spec (bfd_section_size section) 152) as [Hsize|];
    [|discriminate].
  cbn [negb].
  destruct (bfd_get_section_contents section 0 152) as [rec|] eqn:Hrec;
    [|discriminate].
  assert (Hlenrec : length rec = 152%nat).
  { unfold bfd_get_section_contents in Hrec. rewrite Hsize in Hrec.
    change (0 + 152 <=? 152) with true in Hrec.
    destruct (sect_readable section); [|discriminate].
    cbn [andb] in Hrec. injection Hrec as <-.
    apply slice_length. unfold bfd_section_size in Hsize. lia. }
  pose proof (SiginfoProps.compact_length rec Hlenrec) as Hc.
  change (80 >? 80 - 0) with false. cbv iota.
  change (Z.to_nat 0) with 0%nat. change (Z.to_nat (80 - 0)) with 80%nat.
  change (Z.to_nat 80) with 80%nat.
  intros [= <-]. split; [apply slice_length; lia|].
  f_equal. unfold slice at 2. cbn [skipn].
  assert (Hn : Z.to_nat (if len >? 80 - offset then 80 - offset else len)
               = Nat.min (Z.to_nat len) (80 - Z.to_nat offset))
    by (destruct (Z.gtb_spec len (80 - offset)); lia).
  rewrite Hn.
  rewrite <- (slice_of_prefix (compact rec) 80) by lia.
  unfold slice at 2. cbn [skipn].
  replace (80 - Z.to_nat offset)%nat
    with (length (firstn 80 (compact rec)) - Z.to_nat offset)%nat
    by (rewrite length_firstn; lia).
  apply slice_clamp.
Qed.

End Siginfo32.

(** X4.  On a 32-bit target, a read of the exception record that starts
    at an offset up to 80 succeeds whenever the read of the whole record
    does, and gives the bytes of the whole 80-byte record from that offset
    on, at most [len] of them: a read at offset 80 succeeds with no byte
    (the end of the record, whereas a read past it fails), and two reads
    that follow each other give together what one read of both lengths
    gives. *)
Theorem xfer_siginfo_32bit_reads_compose
    (arch : gdbarch) (core_bfd : bfd) (offset a b : Z) (full : list byte) :
  gdbarch_ptr_bit arch = 32 ->
  0 <= offset -> 0 <= a -> 0 <= b -> offset + a <= 80 ->
  Siginfo.windows_core_xfer_siginfo arch core_bfd 0 80 = Some full ->
  exists first second,
    Siginfo.windows_core_xfer_siginfo arch core_bfd offset a = Some first
    /\ Siginfo.windows_core_xfer_siginfo arch core_bfd (offset + a) b
       = Some second
    /\ Siginfo.windows_core_xfer_siginfo arch core_bfd offset (a + b)
       = Some (first ++ second)
    /\ first = slice full (Z.to_nat offset) (Z.to_nat a)
    /\ Siginfo.windows_core_xfer_siginfo arch core_bfd 80 b = Some []
    /\ Siginfo.windows_core_xfer_siginfo arch core_bfd 81 b = None.
Proof.
  intros H32 Hoff Ha Hb Hfit Hfull.
  destruct (xfer_siginfo_32_slice arch core_bfd H32 offset a full)
    as [Hlen H1]; [lia|lia|exact Hfull|].
  destruct (xfer_siginfo_32_slice arch core_bfd H32 (offset + a) b full)
    as [_ H2]; [lia|lia|exact Hfull|].
  destruct (xfer_siginfo_32_slice arch core_bfd H32 offset (a + b) full)
    as [_ H3]; [lia|lia|exact Hfull|].
  destruct (xfer_siginfo_32_slice arch core_bfd H32 80 b full)
    as [_ H4]; [lia|lia|exact Hfull|].
  eexists _, _. split; [exact H1|]. split; [exact H2|]. split.
  - rewrite H3. f_equal.
    rewrite Z2Nat.inj_add, slice_add by lia.
    now rewrite Z2Nat.inj_add by lia.
  - split; [reflexivity|]. split.
    + rewrite H4. f_equal. unfold slice.
      rewrite skipn_all2 by (rewrite Hlen; lia). apply firstn_nil.
    + unfold Siginfo.windows_core_xfer_siginfo. rewrite H32.
      cbn [Z.eqb Pos.eqb].
      now destruct (bfd_get_section_by_name _ _).
Qed.

Lemma xfer_siginfo_32bit_reads_compose_witness :
  gdbarch_ptr_bit arch32 = 32
  /\ (exists full,
        Siginfo.windows_core_xfer_siginfo arch32 Siginfo.sample_core 0 80
        = Some full)
  /\ exists first second,
       Siginfo.windows_core_xfer_siginfo arch32 Siginfo.sample_core 10 30
       = Some first
       /\ Siginfo.windows_core_xfer_siginfo arch32 Siginfo.sample_core 40 100
          = Some second
       /\ Siginfo.windows_core_xfer_siginfo arch32 Siginfo.sample_core 10 130
          = Some (first ++ second).
Proof.
  split; [reflexivity|].
  destruct (Siginfo.windows_core_xfer_siginfo arch32 Siginfo.sample_core 0 80)
    as [full|] eqn:Hfull; [|vm_compute in Hfull; discriminate Hfull].
  split; [now exists full|].
  destruct (xfer_siginfo_32bit_reads_compose arch32 Siginfo.sample_core
              10 30 100 full eq_refl ltac:(lia) ltac:(lia) ltac:(lia)
              ltac:(lia) Hfull)
    as (first & second & H1 & H2 & H3 & _).
  exists first, second. repeat split; assumption.
Defined.

End TransferProps.

Module CoreNamesProps.
Import CoreModules CoreNames ByteFacts TransferProps.

(** X5.  [windows_core_xfer_shared_libraries] keeps the text it built:
    the cache it leaves is never empty, a call that finds a cached text
    serves it without looking at the dump and without a warning, and a
    call that finds none serves the text built from the dump, with the
    warnings of building it.  What it copies is the bytes of the text
    from [offset] on, at most [len] of them and none from the end of the
    text on, so that two reads that follow each other give together what
    one read of both lengths gives. *)
Theorem shared_libraries_reads_compose
    (gdb : collaborators) (arch : gdbarch) (core_bfd other_bfd : bfd)
    (cache : option string) (offset a b : Z) :
  0 <= offset -> 0 <= a -> 0 <= b ->
  let text :=
    match cache with
    | Some text => text
    | None => string_of_list_byte
                (c_str (list_byte_of_string
                          (snd (build_library_list gdb arch core_bfd))))
    end in
  let warned :=
    match cache with
    | Some _ => []
    | None => fst (build_library_list gdb arch core_bfd)
    end in
  let avail := c_str (list_byte_of_string text) in
  let read bfd cache offset len :=
    windows_core_xfer_shared_libraries gdb arch bfd cache offset len in
  let cache' := fst (snd (read core_bfd cache offset a)) in
  read core_bfd cache offset a
  = (warned, (Some text, slice avail (Z.to_nat offset) (Z.to_nat a)))
  /\ read other_bfd cache' (offset + a) b
     = ([], (Some text, slice avail (Z.to_nat (offset + a)) (Z.to_nat b)))
  /\ snd (snd (read core_bfd cache offset (a + b)))
     = snd (snd (read core_bfd cache offset a))
       ++ snd (snd (read other_bfd cache' (offset + a) b))
  /\ (Z.of_nat (length avail) <= offset ->
      snd (snd (read core_bfd cache offset a)) = []).
Proof.
  intros Hoff Ha Hb text warned avail read cache'.
  assert (Hcopy : forall (w : list event) len o, 0 <= o -> 0 <= len ->
            (if o >=? Z.of_nat (length avail)
             then (w, (Some text, []))
             else (w, (Some text,
                       slice (list_byte_of_string text) (Z.to_nat o)
                         (Z.to_nat (if len >? Z.of_nat (length avail) - o
                                    then Z.of_nat (length avail) - o
                                    else len)))))
            = (w, (Some text, slice avail (Z.to_nat o) (Z.to_nat len)))).
  { intros w len o Ho Hlen.
    destruct (Z.geb_spec o (Z.of_nat (length avail))) as [Hend|Hin].
    - do 2 f_equal. unfold slice. rewrite skipn_all2 by lia.
      now rewrite firstn_nil.
    - do 2 f_equal.
      assert (Hn : Z.to_nat (if len >? Z.of_nat (length avail) - o
                             then Z.of_nat (length avail) - o else len)
                   = Nat.min (Z.to_nat len) (length avail - Z.to_nat o))
        by (destruct (Z.gtb_spec len (Z.of_nat (length avail) - o)); lia).
      rewrite Hn. rewrite <- (slice_clamp avail).
      pose proof (c_str_prefix (list_byte_of_string text)) as Hp.
      fold avail in Hp. set (L := length avail) in *.
      rewrite Hp at 1. symmetry. apply slice_of_prefix. lia. }
  assert (Hread : forall bfd len o, 0 <= o -> 0 <= len ->
            read bfd (Some text) o len
            = ([], (Some text, slice avail (Z.to_nat o) (Z.to_nat len)))).
  { intros bfd len o Ho Hlen. subst read. cbv beta.
    unfold windows_core_xfer_shared_libraries. fold avail.
    now apply Hcopy. }
  assert (Hfirst : forall len, 0 <= len ->
            read core_bfd cache offset len
            = (warned, (Some text,
                        slice avail (Z.to_nat offset) (Z.to_nat len)))).
  { intros len Hlen. subst text warned. destruct cache as [t|].
    - now apply Hread.
    - subst read. cbv beta. unfold windows_core_xfer_shared_libraries.
      subst avail.
      destruct (build_library_list gdb arch core_bfd) as [w built].
      cbn [fst snd] in *. now apply Hcopy. }
  subst cache'.
  split; [apply Hfirst; lia|].
  rewrite !Hfirst by lia. cbn [fst snd].
  rewrite Hread by lia. cbn [snd].
  split; [reflexivity|]. split.
  - rewrite !Z2Nat.inj_add by lia. apply slice_add.
  - intros Hend. unfold slice. rewrite skipn_all2 by lia. now rewrite firstn_nil.
Qed.

Lemma shared_libraries_reads_compose_witness :
  0 <= 3 /\ 0 <= 10 /\ 0 <= 200
  /\ snd (snd (windows_core_xfer_shared_libraries sample_gdb arch32
                 scenario_core None 3 210))
     = snd (snd (windows_core_xfer_shared_libraries sample_gdb arch32
                   scenario_core None 3 10))
       ++ snd (snd (windows_core_xfer_shared_libraries sample_gdb arch32 []
                      (fst (snd (windows_core_xfer_shared_libraries sample_gdb
                                   arch32 scenario_core None 3 10))) 13 200)).
Proof.
  split; [lia|]. split; [lia|]. split; [lia|].
  exact (proj1 (proj2 (proj2
           (shared_libraries_reads_compose sample_gdb arch32 scenario_core []
              None 3 10 200 ltac:(lia) ltac:(lia) ltac:(lia))))).
Defined.

Section ExecutableFacts.

Variable gdb : collaborators.
Variable core_bfd : bfd.

Lemma executable_scan_done abfd : forall state,
  cpes_module_count (snd state) <> 0 ->
  fold_left (fun state sect =>
               let '(warned, data) :=
                 core_process_executable_section gdb core_bfd sect (snd state) in
               (fst state ++ warned, data))
            abfd state = state.
Proof.
  induction abfd as [|sect rest IH]; intros [warned data] Hn; cbn [fold_left].
  - reflexivity.
  - cbn [fst snd] in *. unfold core_process_executable_section at 2.
    destruct (Z.eqb_spec (cpes_module_count data) 0); [contradiction|].
    cbn [negb]. rewrite app_nil_r. now apply IH.
Qed.

Lemma executable_scan abfd : forall previous server,
  map_executable_sections gdb core_bfd abfd
    {| cpes_module_count := 0; load_executable := previous;
       cpes_use_symbol_server := server |}
  = match find is_coremodule abfd with
    | None =>
      ([], {| cpes_module_count := 0; load_executable := previous;
              cpes_use_symbol_server := server |})
    | Some sect =>
      if sect_readable sect
      then
        let '(warned, name) :=
          core_get_module_name gdb core_bfd (sect_name sect)
                               (sect_contents sect) server in
        (warned, {| cpes_module_count := 1; load_executable := Some name;
                    cpes_use_symbol_server := server |})
      else ([], {| cpes_module_count := 1; load_executable := previous;
                   cpes_use_symbol_server := server |})
    end.
Proof.
  unfold map_executable_sections.
  induction abfd as [|sect rest IH]; intros previous server;
    cbn [fold_left find].
  - reflexivity.
  - cbn [fst snd]. unfold core_process_executable_section at 2,
      is_coremodule at 1.
    cbn [cpes_module_count Z.eqb negb load_executable cpes_use_symbol_server].
    destruct (startswith (sect_name sect) ".coremodule/"); cbn [negb].
    + destruct (sect_readable sect) eqn:Hr.
      * rewrite get_full_section_contents by assumption.
        destruct (core_get_module_name gdb core_bfd (sect_name sect)
                    (sect_contents sect) server) as [w name].
        rewrite executable_scan_done by (cbn; discriminate). reflexivity.
      * rewrite get_unreadable_section_contents by assumption.
        rewrite executable_scan_done by (cbn; discriminate). reflexivity.
    + now apply IH.
Qed.

End ExecutableFacts.

(** What [windows_core_load_executable] returns, read off the first
    [.coremodule/] section. *)
Lemma load_executable_scan (gdb : collaborators) (core_bfd : bfd) :
  windows_core_load_executable gdb core_bfd
  = match find is_coremodule core_bfd with
    | None => ([], None)
    | Some sect =>
      if sect_readable sect
      then
        let '(warned, name) :=
          core_get_module_name gdb core_bfd (sect_name sect)
                               (sect_contents sect) (symbol_server_in_use gdb) in
        (warned, Some name)
      else ([], None)
    end.
Proof.
  unfold windows_core_load_executable.
  rewrite (executable_scan gdb core_bfd core_bfd).
  destruct (find is_coremodule core_bfd) as [sect|]; [|reflexivity].
  destruct (sect_readable sect); [|reflexivity].
  now destruct (core_get_module_name _ _ _ _ _).
Qed.

(** X6.  [windows_core_load_executable] looks at one section only, the
    first whose name starts with [.coremodule/]: it gives the name that
    [core_get_module_name] resolves for that section when the section can
    be read, and nothing otherwise.  So it gives nothing for a dump with
    no such section (whatever legacy [.module] sections it has), and
    nothing when that first section cannot be read, even if later
    [.coremodule/] sections can.  Without a symbol server (a host that is
    not [_WIN32], or a server that did not start) the name is the
    section's payload re-encoded as host text, and nothing is warned;
    with one, the name is a path the server gave for that text, or that
    text with at most one warning. *)
Theorem load_executable_is_first_coremodule
    (gdb : collaborators) (core_bfd : bfd) :
  windows_core_load_executable gdb core_bfd
  = match find is_coremodule core_bfd with
    | None => ([], None)
    | Some sect =>
      if sect_readable sect
      then
        let '(warned, name) :=
          core_get_module_name gdb core_bfd (sect_name sect)
                               (sect_contents sect) (symbol_server_in_use gdb) in
        (warned, Some name)
      else ([], None)
    end
  /\ (host_win32 gdb = false \/ symbol_server_init gdb = 0 ->
      windows_core_load_executable gdb core_bfd
      = ([], match find is_coremodule core_bfd with
             | None => None
             | Some sect =>
               if sect_readable sect then Some (payload_name gdb sect)
               else None
             end))
  /\ (forall warned exe,
        windows_core_load_executable gdb core_bfd = (warned, Some exe) ->
        exists sect,
          find is_coremodule core_bfd = Some sect
          /\ sect_readable sect = true
          /\ ((warned = []
               /\ exists size timestamp b,
                    symbol_server_lib gdb (payload_name gdb sect)
                                      size timestamp b = Some exe)
              \/ (exe = payload_name gdb sect
                  /\ (warned = [] \/ exists text, warned = [Warned text])))).
Proof.
  split; [apply load_executable_scan|].
  rewrite load_executable_scan.
  destruct (find is_coremodule core_bfd) as [sect|];
    [|split; [reflexivity|intros ? ? [=]]].
  destruct (sect_readable sect) eqn:Hr;
    [|split; [reflexivity|intros ? ? [=]]].
  pose proof (CoreModulesProps.core_get_module_name_cases gdb core_bfd
                (sect_name sect) (sect_contents sect)
                (symbol_server_in_use gdb)) as Hname.
  cbv zeta in Hname. fold (payload_name gdb sect) in Hname.
  destruct (core_get_module_name _ _ _ _ _) as [w name].
  destruct Hname as [Hnone Hsome]. split.
  - intros Hoff. destruct Hnone as [-> ->]; [|reflexivity].
    unfold symbol_server_in_use. destruct Hoff as [->|Hinit]; [now left|].
    right. now destruct (host_win32 gdb).
  - intros warned exe [= <- <-]. exists sect.
    split; [reflexivity|]. split; [exact Hr|]. exact Hsome.
Qed.

Lemma load_executable_is_first_coremodule_witness :
  (host_win32 sample_gdb = false \/ symbol_server_init sample_gdb = 0)
  /\ windows_core_load_executable sample_gdb core_with_gap
     = ([], Some "app.exe"%string)
  /\ windows_core_load_executable sample_win32_gdb symbol_server_core
     = ([Warned "Can't find 'app.exe'."], Some "app.exe"%string).
Proof.
  split; [now left|].
  destruct (load_executable_is_first_coremodule sample_gdb core_with_gap)
    as (_ & Hplain & _).
  destruct (load_executable_is_first_coremodule sample_win32_gdb
              symbol_server_core) as (Hserver & _).
  split; [rewrite Hplain by (now left)|rewrite Hserver];
    vm_compute; reflexivity.
Defined.

Lemma decoded_modules_indexed gdb arch core_bfd server abfd :
  (forall sect, In sect abfd ->
                startswith (sect_name sect) ".module" = false) ->
  decoded_modules gdb arch core_bfd server abfd
  = flat_map (fun sect => match decode_coremodule gdb core_bfd server sect with
                          | Some m => [m]
                          | None => []
                          end)
             (filter is_coremodule abfd).
Proof.
  induction abfd as [|sect rest IH]; intros Hno;
    cbn [decoded_modules filter flat_map]; [reflexivity|].
  unfold decode_module, is_coremodule at 1.
  destruct (startswith (sect_name sect) ".coremodule/").
  - cbn [flat_map]. destruct (decode_coremodule gdb core_bfd server sect);
      cbn [app]; rewrite IH by (intros s Hs; apply Hno; now right);
      reflexivity.
  - rewrite (Hno sect) by now left.
    apply IH. intros s Hs. apply Hno. now right.
Qed.

(** The first [.coremodule/] section, when it can be read, gives the
    first module decoded from the indexed sections. *)
Lemma first_coremodule_is_first_decoded gdb core_bfd server abfd warned exe :
  match find is_coremodule abfd with
  | None => ([], None)
  | Some sect =>
    if sect_readable sect
    then
      let '(warned, name) :=
        core_get_module_name gdb core_bfd (sect_name sect)
                             (sect_contents sect) server in
      (warned, Some name)
    else ([], None)
  end = (warned, Some exe) ->
  exists first others,
    flat_map (fun sect => match decode_coremodule gdb core_bfd server sect with
                          | Some m => [m]
                          | None => []
                          end)
             (filter is_coremodule abfd)
    = first :: others
    /\ mod_name first = exe
    /\ mod_warnings first = warned.
Proof.
  induction abfd as [|sect rest IH]; cbn [find filter];
    [discriminate|].
  destruct (is_coremodule sect) eqn:Hc; [|exact IH].
  destruct (sect_readable sect) eqn:Hr; [|discriminate].
  cbn [flat_map]. unfold decode_coremodule at 1. rewrite Hr.
  destruct (core_get_module_name gdb core_bfd (sect_name sect)
              (sect_contents sect) server) as [w name].
  intros [= <- <-]. cbn [app].
  eexists _, _. split; [reflexivity|]. split; reflexivity.
Qed.

(** X7.  In a dump that names its modules by the indexed convention only
    (no section named [.module...]), the executable and the library list
    share out the modules: when [windows_core_load_executable] gives a
    name, it is the name of the first module decoded, which is the one the
    library list leaves out, and the list has all the others.  The
    warnings are shared out in the same way: loading the executable warns
    what the first module's name warns, and the list what the names of
    the others warn. *)
Theorem executable_is_the_module_left_out
    (gdb : collaborators) (arch : gdbarch) (core_bfd : bfd)
    (warned : list event) (exe : string) :
  (forall sect, In sect core_bfd ->
                startswith (sect_name sect) ".module" = false) ->
  windows_core_load_executable gdb core_bfd = (warned, Some exe) ->
  exists first others,
    modules_of gdb arch core_bfd = first :: others
    /\ mod_name first = exe
    /\ mod_warnings first = warned
    /\ build_library_list gdb arch core_bfd
       = (flat_map mod_warnings others,
          ("<library-list>" ++ newline ++ elements gdb others
           ++ "</library-list>" ++ newline)%string).
Proof.
  intros Hno Hexe.
  rewrite load_executable_scan in Hexe.
  rewrite CoreModulesProps.build_library_list_decoded.
  unfold modules_of.
  rewrite (decoded_modules_indexed gdb arch core_bfd _ core_bfd Hno).
  destruct (first_coremodule_is_first_decoded _ _ _ _ _ _ Hexe)
    as (first & others & -> & Hname & Hwarned).
  exists first, others. cbn [tl]. now repeat split.
Qed.

Lemma executable_is_the_module_left_out_witness :
  (forall sect, In sect symbol_server_core ->
                startswith (sect_name sect) ".module" = false)
  /\ windows_core_load_executable sample_win32_gdb symbol_server_core
     = ([Warned "Can't find 'app.exe'."], Some "app.exe"%string)
  /\ build_library_list sample_win32_gdb arch32 symbol_server_core
     = ([Warned "Can't find 'more.dll' version 3.4."],
        library_list_text [("symbols/lib.dll/5000/lib.dll", "0x3000");
                           ("more.dll", "0x4000")]%string).
Proof.
  assert (Hno : forall sect, In sect symbol_server_core ->
                  startswith (sect_name sect) ".module" = false).
  { intros sect [<-|[<-|[<-|[<-|[]]]]]; reflexivity. }
  assert (Hexe : windows_core_load_executable sample_win32_gdb
                   symbol_server_core
                 = ([Warned "Can't find 'app.exe'."], Some "app.exe"%string))
    by (vm_compute; reflexivity).
  split; [exact Hno|]. split; [exact Hexe|].
  destruct (executable_is_the_module_left_out sample_win32_gdb arch32
              symbol_server_core _ _ Hno Hexe)
    as (first & others & Hdec & _ & _ & Hlist).
  rewrite Hlist.
  vm_compute in Hdec. injection Hdec as _ <-.
  vm_compute. reflexivity.
Defined.

Lemma store_in_bounds buf off bytes :
  (off + length bytes <= length buf)%nat ->
  store buf off bytes
  = ([], Returned (firstn off buf ++ bytes ++ skipn (off + length bytes) buf))
  /\ length (firstn off buf ++ bytes ++ skipn (off + length bytes) buf)
     = length buf.
Proof.
  intros H. unfold store.
  destruct (Nat.leb_spec (off + length bytes) (length buf)); [|lia].
  split; [reflexivity|].
  rewrite !length_app, length_firstn, length_skipn. lia.
Qed.

(** X8.  [windows_core_thread_name] never writes outside its 80-byte
    static buffer.  It returns the buffer exactly when the lwp is not
    zero and the section of that name exists, is not empty and can be
    read; the name in the buffer is then the section's payload re-encoded
    as host text and cut to its first 79 bytes.  When it returns null (a
    zero lwp, no section of that name, an empty or unreadable section)
    the buffer is as it was, so a name returned earlier still reads the
    same, whereas a later success overwrites it. *)
Theorem thread_name_fits_buffer
    (gdb : collaborators) (core_bfd : bfd) (lwp : Z) (section_name : string)
    (name_buf : list byte) :
  length name_buf = 80%nat ->
  exists name_buf' returned,
    windows_core_thread_name gdb core_bfd lwp section_name name_buf
    = ([], Returned (name_buf', returned))
    /\ length name_buf' = 80%nat
    /\ (returned = false -> name_buf' = name_buf)
    /\ (lwp = 0 -> returned = false)
    /\ (bfd_get_section_by_name core_bfd section_name = None ->
        returned = false)
    /\ (returned = true ->
        exists sect,
          bfd_get_section_by_name core_bfd section_name = Some sect
          /\ sect_contents sect <> []
          /\ c_str name_buf'
             = firstn 79 (c_str (wide_to_host gdb (sect_contents sect)))
          /\ (length (c_str name_buf') <= 79)%nat)
    /\ (returned = true
        <-> lwp <> 0
            /\ exists sect,
                 bfd_get_section_by_name core_bfd section_name = Some sect
                 /\ sect_contents sect <> []
                 /\ sect_readable sect = true).
Proof.
  intros Hbuf. unfold windows_core_thread_name.
  assert (Hnull :
            (lwp <> 0 ->
             forall sect,
               bfd_get_section_by_name core_bfd section_name = Some sect ->
               sect_contents sect <> [] -> sect_readable sect = true ->
               False) ->
            exists name_buf' returned,
            @ret (list byte * bool) (name_buf, false)
            = ([], Returned (name_buf', returned))
            /\ length name_buf' = 80%nat
            /\ (returned = false -> name_buf' = name_buf)
            /\ (lwp = 0 -> returned = false)
            /\ (bfd_get_section_by_name core_bfd section_name = None ->
                returned = false)
            /\ (returned = true ->
                exists sect,
                  bfd_get_section_by_name core_bfd section_name = Some sect
                  /\ sect_contents sect <> []
                  /\ c_str name_buf'
                     = firstn 79 (c_str (wide_to_host gdb (sect_contents sect)))
                  /\ (length (c_str name_buf') <= 79)%nat)
            /\ (returned = true
                <-> lwp <> 0
                    /\ exists sect,
                         bfd_get_section_by_name core_bfd section_name
                         = Some sect
                         /\ sect_contents sect <> []
                         /\ sect_readable sect = true)).
  { intros Hnot. exists name_buf, false.
    repeat split; try assumption; try reflexivity; try discriminate.
    intros (Hlwp & sect & Hsec & Hne & Hr). exfalso. eauto. }
  destruct (Z.eqb_spec lwp 0) as [|Hlwp];
    [apply Hnull; intros; contradiction|].
  destruct (bfd_get_section_by_name core_bfd section_name) as [sect|] eqn:Hsec;
    [|apply Hnull; intros; discriminate].
  destruct (Z.eqb_spec (bfd_section_size sect) 0) as [Hzero|Hsize].
  { apply Hnull. intros _ s [= <-] Hne _. apply Hne.
    unfold bfd_section_size in Hzero.
    destruct (sect_contents sect); [reflexivity|cbn in Hzero; lia]. }
  destruct (sect_readable sect) eqn:Hr.
  2:{ rewrite get_unreadable_section_contents by assumption.
      apply Hnull. intros _ s [= <-] _ Hread. congruence. }
  clear Hnull. rewrite get_full_section_contents by assumption.
  rewrite c_str_terminated.
  set (thread_name := c_str (wide_to_host gdb (sect_contents sect))).
  unfold sizeof_name_buf.
  set (n := Z.to_nat (if Z.of_nat (length thread_name) >? 80 - 1
                      then 80 - 1 else Z.of_nat (length thread_name))).
  assert (Hn : n = Nat.min (length thread_name) 79)
    by (subst n; destruct (Z.gtb_spec (Z.of_nat (length thread_name)) (80 - 1));
        lia).
  assert (Hcut : firstn n thread_name = firstn 79 thread_name).
  { rewrite Hn. destruct (Nat.le_gt_cases (length thread_name) 79).
    - rewrite Nat.min_l by lia. now rewrite !firstn_all2 by lia.
    - now rewrite Nat.min_r by lia. }
  assert (Hcutlen : length (firstn n thread_name) = n)
    by (rewrite length_firstn; lia).
  destruct (store_in_bounds name_buf 0 (firstn n thread_name)) as [Hs1 Hl1];
    [lia|].
  rewrite Hs1. cbn [bind ret app firstn Nat.add] in *.
  set (buf1 := firstn n thread_name ++ skipn (length (firstn n thread_name)) name_buf)
    in *.
  destruct (store_in_bounds buf1 n [x00]) as [Hs2 Hl2];
    [cbn [length]; lia|].
  rewrite Hs2. cbn [bind ret app].
  assert (Hne : sect_contents sect <> []).
  { intros Hempty. apply Hsize. unfold bfd_section_size. now rewrite Hempty. }
  eexists _, true. split; [reflexivity|].
  split; [cbn [app] in Hl2; lia|].
  split; [discriminate|]. split; [contradiction|]. split; [discriminate|].
  split.
  2:{ split; [|reflexivity]. intros _. split; [assumption|].
      exists sect. now repeat split. }
  intros _. exists sect. split; [reflexivity|].
  split; [exact Hne|].
  assert (Hhead : firstn n buf1 = firstn n thread_name).
  { subst buf1. rewrite firstn_app, Hcutlen, Nat.sub_diag.
    cbn [firstn]. rewrite app_nil_r. apply firstn_all2. lia. }
  rewrite Hhead, c_str_until_nul
    by (apply forallb_firstn, c_str_no_nul).
  split; [exact Hcut|]. rewrite Hcutlen. lia.
Qed.

Lemma thread_name_fits_buffer_witness :
  length (le_bytes 80 0) = 80%nat
  /\ (exists name_buf',
        windows_core_thread_name sample_gdb
          [corethread "/0x1a4" "worker"] 0x1a4 ".corethread/0x1a4" (le_bytes 80 0)
        = ([], Returned (name_buf', true))
        /\ string_of_list_byte (c_str name_buf') = "worker"%string)
  /\ windows_core_thread_name sample_gdb
       [unreadable_corethread "/0x1a4" "worker"] 0x1a4 ".corethread/0x1a4"
       (le_bytes 80 0)
     = ([], Returned (le_bytes 80 0, false)).
Proof.
  split; [reflexivity|]. split.
  - destruct (thread_name_fits_buffer sample_gdb [corethread "/0x1a4" "worker"]
                0x1a4 ".corethread/0x1a4" (le_bytes 80 0) eq_refl)
      as (name_buf' & returned & Hrun & _ & _ & _ & _ & Hname & _).
    assert (Hret : returned = true).
    { vm_compute in Hrun. now injection Hrun as _ <-. }
    subst returned. exists name_buf'. split; [exact Hrun|].
    destruct (Hname eq_refl) as (sect & Hsec & _ & Hstr & _).
    rewrite Hstr. vm_compute in Hsec. injection Hsec as <-.
    vm_compute. reflexivity.
  - destruct (thread_name_fits_buffer sample_gdb
                [unreadable_corethread "/0x1a4" "worker"]
                0x1a4 ".corethread/0x1a4" (le_bytes 80 0) eq_refl)
      as (name_buf' & returned & Hrun & _ & Hsame & _ & _ & _ & Hiff).
    destruct returned.
    + destruct (proj1 Hiff eq_refl) as (_ & sect & Hsec & _ & Hr).
      vm_compute in Hsec. injection Hsec as <-. discriminate Hr.
    + rewrite Hrun, (Hsame eq_refl). reflexivity.
Defined.

End CoreNamesProps.

Module SolibHookProps.
Import InfoProc SolibHook.







End SolibHookProps.

Module EntryBreakpointHitProps.
Import EntryBreakpointHit.

Section HitFacts.

Variable remove_location : location -> Z.
Variable current_program_space : Z.

Lemma paired_app ops1 ops2 : paired ops1 -> paired ops2 -> paired (ops1 ++ ops2).
Proof.
  intros H1 H2. induction H1; cbn [app]; [exact H2| |];
    now constructor.
Qed.

Lemma reset_locations_paired locations :
  paired (reset_locations remove_location current_program_space locations)
  /\ Forall (fun op => to_reset current_program_space (operand op) = true
                       /\ In (operand op) locations)
            (reset_locations remove_location current_program_space locations).
Proof.
  induction locations as [|loc rest [IHp IHf]]; cbn [reset_locations].
  - split; constructor.
  - assert (Hrest : Forall (fun op => to_reset current_program_space (operand op) = true
                                      /\ In (operand op) (loc :: rest))
                      (reset_locations remove_location current_program_space rest)).
    { eapply Forall_impl; [|exact IHf]. cbn. intros op [H1 H2]. tauto. }
    destruct (to_reset current_program_space loc) eqn:Hq; [|now split].
    destruct (remove_location loc =? 0); cbn [app]; split.
    + now constructor.
    + repeat constructor; cbn; tauto.
    + now constructor.
    + repeat constructor; cbn; tauto.
Qed.

Lemma reset_in_remove locations loc :
  In (remove_location_call loc)
     (reset_locations remove_location current_program_space locations)
  <-> In loc locations /\ to_reset current_program_space loc = true.
Proof.
  induction locations as [|x rest IH]; cbn [reset_locations In].
  - tauto.
  - rewrite in_app_iff, IH. destruct (to_reset current_program_space x) eqn:Hq.
    + destruct (remove_location x =? 0); cbn [In]; split.
      * intros [[[= ->]|[H|[]]]|H]; try discriminate H; tauto.
      * intros [[->|H] Hl]; [left; now left|tauto].
      * intros [[[= ->]|[]]|H]; tauto.
      * intros [[->|H] Hl]; [left; now left|tauto].
    + cbn [In]. split; [tauto|]. intros [[->|H] Hl]; [congruence|tauto].
Qed.

Lemma reset_in_insert locations loc :
  In (insert_location_call loc)
     (reset_locations remove_location current_program_space locations)
  <-> In loc locations /\ to_reset current_program_space loc = true
      /\ remove_location loc = 0.
Proof.
  induction locations as [|x rest IH]; cbn [reset_locations In].
  - tauto.
  - rewrite in_app_iff, IH. destruct (to_reset current_program_space x) eqn:Hq.
    + destruct (Z.eqb_spec (remove_location x) 0) as [Hz|Hz]; cbn [In]; split.
      * intros [[H|[[= ->]|[]]]|H]; try discriminate H; tauto.
      * intros [[->|H] Hl]; [left; right; now left|tauto].
      * intros [[H|[]]|H]; try discriminate H; tauto.
      * intros [[->|H] [Hl Hr]]; [contradiction|tauto].
    + cbn [In]. split; [tauto|]. intros [[->|H] [Hl Hr]]; [congruence|tauto].
Qed.

(** The calls made on the locations of one breakpoint: one removal for
    each location to reset, one insertion for each of them whose removal
    returned 0. *)
Lemma reset_locations_calls locations :
  removals (reset_locations remove_location current_program_space locations)
  = filter (to_reset current_program_space) locations
  /\ insertions (reset_locations remove_location current_program_space locations)
     = filter (fun loc => to_reset current_program_space loc
                          && (remove_location loc =? 0)) locations.
Proof.
  unfold removals, insertions.
  induction locations as [|loc rest [IHr IHi]];
    cbn [reset_locations filter flat_map]; [now split|].
  rewrite !flat_map_app, IHr, IHi.
  destruct (to_reset current_program_space loc); cbn [andb];
    [|now split].
  destruct (remove_location loc =? 0); now split.
Qed.

End HitFacts.

(** X11.  Reaching the entry-point breakpoint never stops the program.
    The only locations it touches are those that are inserted, belong to
    the current program space and are hardware breakpoints or
    watchpoints: each is removed once, and put back at once when the
    removal succeeded; no location is inserted that was not removed just
    before, and software breakpoints and the locations of other program
    spaces are left alone.  The removals are, in order and one call for
    each, the locations to reset of all breakpoints, and the insertions
    those of them whose removal returned 0. *)
Theorem check_status_resets_hardware_only
    (remove_location : location -> Z) (current_program_space : Z)
    (all_breakpoints : list (list location)) :
  let '(stop, ops) :=
    check_status remove_location current_program_space all_breakpoints in
  stop = false
  /\ paired ops
  /\ Forall (fun op =>
               inserted (operand op) = true
               /\ pspace (operand op) = current_program_space
               /\ is_hardware (loc_type (operand op)) = true
               /\ exists b, In b all_breakpoints /\ In (operand op) b) ops
  /\ (forall b loc,
        In b all_breakpoints -> In loc b ->
        to_reset current_program_space loc = true ->
        In (remove_location_call loc) ops
        /\ (remove_location loc = 0 <-> In (insert_location_call loc) ops))
  /\ removals ops
     = filter (to_reset current_program_space) (concat all_breakpoints)
  /\ insertions ops
     = filter (fun loc => to_reset current_program_space loc
                          && (remove_location loc =? 0))
              (concat all_breakpoints).
Proof.
  unfold check_status. split; [reflexivity|].
  induction all_breakpoints as [|b rest (IHp & IHf & IHin & IHr & IHi)];
    cbn [flat_map concat].
  - split; [constructor|]. split; [constructor|].
    split; [intros b loc []|]. now split.
  - destruct (reset_locations_paired remove_location current_program_space b)
      as [Hp Hf].
    destruct (reset_locations_calls remove_location current_program_space b)
      as [Hr Hi].
    split; [now apply paired_app|]. split; [|split].
    3:{ unfold removals, insertions in *.
        rewrite !flat_map_app, !filter_app, IHr, IHi, Hr, Hi. now split. }
    + apply Forall_app. split.
      * eapply Forall_impl; [|exact Hf]. cbn. intros op [Hq Hin].
        unfold to_reset in Hq. rewrite !andb_true_iff, Z.eqb_eq in Hq.
        repeat split; try tauto. exists b. split; [now left|exact Hin].
      * eapply Forall_impl; [|exact IHf]. cbn.
        intros op (H1 & H2 & H3 & b' & Hb' & Hin).
        repeat split; try assumption. exists b'. split; [now right|exact Hin].
    + intros b' loc Hb' Hloc Hq.
      change (reset_locations remove_location current_program_space b
              ++ flat_map (reset_locations remove_location current_program_space) rest)
        with (flat_map (reset_locations remove_location current_program_space)
                       (b :: rest)).
      split.
      * apply in_flat_map. exists b'. split; [exact Hb'|].
        apply reset_in_remove. now split.
      * split.
        -- intros Hz. apply in_flat_map. exists b'. split; [exact Hb'|].
           apply reset_in_insert. repeat split; assumption.
        -- intros Hin. apply in_flat_map in Hin. destruct Hin as (b0 & _ & Hin).
           apply reset_in_insert in Hin. tauto.
Qed.

End EntryBreakpointHitProps.

Module ImportsCompletenessProps.
Import Imports ImportsProps ImportsContract.

Lemma walk_passes host filename contents va end_va dll_name :
  end_va <= va + section_end contents ->
  forall (k : nat) (fuel : nat) (iter : Z),
    0 <= iter ->
    (forall j : nat, (j < k)%nat ->
       passed_over (classify host contents va end_va dll_name
                      (iter + entry_size * Z.of_nat j))) ->
    walk host filename contents va end_va dll_name (k + fuel) iter
    = walk host filename contents va end_va dll_name fuel
        (iter + entry_size * Z.of_nat k).
Proof.
  intros Hend. induction k as [|k IH]; intros fuel iter Hiter Hpass.
  - cbn [Nat.add]. f_equal. unfold entry_size. lia.
  - cbn [Nat.add]. rewrite walk_step by assumption.
    destruct (Hpass 0%nat ltac:(lia)) as [Hc|Hc];
      replace (iter + entry_size * Z.of_nat 0) with iter in Hc
        by (unfold entry_size; lia);
      rewrite Hc.
    + rewrite IH; [f_equal; unfold entry_size; lia|unfold entry_size; lia|].
      intros j Hj. specialize (Hpass (S j) ltac:(lia)).
      replace (iter + entry_size + entry_size * Z.of_nat j)
        with (iter + entry_size * Z.of_nat (S j)) by (unfold entry_size; lia).
      exact Hpass.
    + rewrite IH; [f_equal; unfold entry_size; lia|unfold entry_size; lia|].
      intros j Hj. specialize (Hpass (S j) ltac:(lia)).
      replace (iter + entry_size + entry_size * Z.of_nat j)
        with (iter + entry_size * Z.of_nat (S j)) by (unfold entry_size; lia).
      exact Hpass.
Qed.

(** X12.  The answer of [is_linked_with_cygwin_dll] is decided by the
    first entry of the import directory that the walk does not pass over.
    When every entry before the [k]-th is passed over (its name differs,
    or is too near the end of the section to be compared), the answer is
    yes if the [k]-th entry's name is exactly "cygwin1.dll", and no,
    without a warning, if the [k]-th entry is the all-zero terminator,
    whatever comes after it in the section. *)
Theorem import_walk_decided_by_first_stop
    (host : bfd_endian) (abfd : pe_binary) (idata : asection) (k : nat) :
  bfd_get_section_by_name (pe_sections abfd) ".idata" = Some idata ->
  sect_readable idata = true ->
  pe_ImageBase abfd <= sect_vma idata ->
  let va := sect_vma idata - pe_ImageBase abfd in
  let end_va := to_uint64 (va + bfd_section_size idata) in
  let class j :=
    classify host (sect_contents idata) va end_va CYGWIN_DLL_NAME
             (pe_import_table_va abfd - va + entry_size * Z.of_nat j) in
  va <= pe_import_table_va abfd < end_va ->
  (forall j, (j < k)%nat -> passed_over (class j)) ->
  (class k = NameCompared true ->
   is_linked_with_cygwin_dll host abfd = ([], Returned true))
  /\ (class k = Terminator ->
      is_linked_with_cygwin_dll host abfd = ([], Returned false)).
Proof.
  intros Hsec Hread Hbase va end_va class Hrange Hpass.
  assert (Hrun : forall c, class k = c -> c <> UnexpectedEnd ->
            exists fuel,
              is_linked_with_cygwin_dll host abfd
              = walk host (bfd_get_filename abfd) (sect_contents idata)
                     va end_va CYGWIN_DLL_NAME (S fuel)
                     (pe_import_table_va abfd - va + entry_size * Z.of_nat k)
              /\ end_va <= va + section_end (sect_contents idata)).
  { intros c Hc Hne. unfold is_linked_with_cygwin_dll.
    destruct (imports_named_library_cases host abfd CYGWIN_DLL_NAME)
      as [Hs|i m Hs Hb|i m Hs Hb Ho|i m Hs Hr|i n Hs Hb Hin];
      rewrite Hsec in Hs; try discriminate Hs; injection Hs as <-.
    - lia.
    - cbv zeta in Ho. subst va end_va. lia.
    - congruence.
    - cbv zeta in Hin. destruct Hin as (_ & Hend & Hn).
      assert (Hroom : pe_import_table_va abfd - va + entry_size * Z.of_nat k
                      + entry_size <= section_end (sect_contents idata)).
      { apply (classify_room host (sect_contents idata) va end_va
                 CYGWIN_DLL_NAME). fold (class k). congruence. }
      unfold section_end, bfd_section_size, entry_size in *.
      fold va in Hn.
      exists (n - k - 1)%nat. split; [|exact Hend].
      replace n with (k + S (n - k - 1))%nat at 1 by lia.
      apply walk_passes; [exact Hend|lia|exact Hpass]. }
  split; intros Hc.
  - destruct (Hrun _ Hc ltac:(discriminate)) as (fuel & -> & Hend).
    rewrite walk_step by (assumption || (unfold entry_size; lia)).
    fold (class k). now rewrite Hc.
  - destruct (Hrun _ Hc ltac:(discriminate)) as (fuel & -> & Hend).
    rewrite walk_step by (assumption || (unfold entry_size; lia)).
    fold (class k). now rewrite Hc.
Qed.

Lemma import_walk_decided_by_first_stop_witness :
  bfd_get_section_by_name
    (pe_sections (binary_with (idata_of "foo.dll" "cygwin1.dll") 0x3000))
    ".idata" <> None
  /\ is_linked_with_cygwin_dll BFD_ENDIAN_LITTLE
       (binary_with (idata_of "foo.dll" "cygwin1.dll") 0x3000)
     = ([], Returned true).
Proof.
  split; [discriminate|].
  refine (proj1 (import_walk_decided_by_first_stop BFD_ENDIAN_LITTLE
                   (binary_with (idata_of "foo.dll" "cygwin1.dll") 0x3000)
                   _ 1 eq_refl eq_refl _ _ _) _).
  - vm_compute. discriminate.
  - vm_compute. split; [discriminate|reflexivity].
  - intros [|j] Hj; [|lia]. right. vm_compute. reflexivity.
  - vm_compute. reflexivity.
Defined.

End ImportsCompletenessProps.

Module TibDisplayProps.
Import InfoProc TibDisplay ByteFacts ImportsProps InfoProcProps.

Section DisplayFacts.

Variable pr : printers.
Variable arch : gdbarch.

Lemma tib_name_in_bounds i :
  0 <= i < 14 -> exists name, tib_name i = ([], Returned name).
Proof.
  intros Hi. unfold tib_name. destruct (Z.leb_spec 0 i); [|lia].
  destruct (nth_error TIB_NAME (Z.to_nat i)) as [name|] eqn:Hn.
  - now exists name.
  - apply nth_error_None in Hn. cbn [TIB_NAME length] in Hn. lia.
Qed.

(** The loop over the slots [first .. first + count - 1] of a block that
    holds them all: it stays inside the block and inside [TIB_NAME],
    prints one line for each slot that has a name and one for each other
    slot that is not zero. *)
Lemma for_each_slot tib size max_name count : forall first,
  0 < size -> 0 <= first -> max_name <= 14 ->
  (first + Z.of_nat count) * size <= Z.of_nat (length tib) ->
  exists ev,
    for_each first count (display_slot pr arch tib size max_name) = (ev, Returned tt)
    /\ Forall (fun e => exists text, e = Printed text) ev
    /\ length ev
       = (Z.to_nat (Z.min (first + Z.of_nat count) max_name - first)
          + length (unnamed_shown arch tib size
                      (Z.max first max_name)
                      (Z.to_nat (first + Z.of_nat count - Z.max first max_name))))%nat.
Proof.
  induction count as [|count IH]; intros first Hsize Hfirst Hmax Hfit.
  - exists []. cbn [for_each]. split; [reflexivity|]. split; [constructor|].
    replace (Z.to_nat (first + Z.of_nat 0 - Z.max first max_name)) with 0%nat by lia.
    cbn [unnamed_shown length]. lia.
  - cbn [for_each]. unfold display_slot at 1.
    rewrite load_range_in_bounds by nia. cbn [bind ret app].
    fold (slot arch tib size first).
    destruct (IH (first + 1)) as (ev & Hrun & Hprinted & Hlen);
      [assumption|lia|assumption|lia|].
    destruct (Z.ltb_spec first max_name) as [Hnamed|Hunnamed].
    + destruct (tib_name_in_bounds first) as [name Hname]; [lia|].
      rewrite Hname. cbn [bind ret app gdb_printf]. rewrite Hrun.
      eexists. split; [reflexivity|]. split.
      * constructor; [eexists; reflexivity|exact Hprinted].
      * cbn [length]. rewrite Hlen.
        replace (Z.max (first + 1) max_name) with (Z.max first max_name) by lia.
        replace (first + 1 + Z.of_nat count) with (first + Z.of_nat (S count)) by lia.
        lia.
    + replace (Z.to_nat (first + Z.of_nat (S count) - Z.max first max_name))
        with (S (Z.to_nat (first + 1 + Z.of_nat count - Z.max (first + 1) max_name)))
        by lia.
      replace (Z.max first max_name) with first by lia.
      cbn [unnamed_shown].
      replace (Z.max (first + 1) max_name) with (first + 1) in * by lia.
      replace (Z.to_nat (Z.min (first + Z.of_nat (S count)) max_name - first))
        with 0%nat by lia.
      replace (Z.to_nat (Z.min (first + 1 + Z.of_nat count) max_name - (first + 1)))
        with 0%nat in Hlen by lia.
      destruct (slot arch tib size first =? 0); cbn [negb bind ret app gdb_printf];
        rewrite Hrun; eexists; (split; [reflexivity|]); split.
      * exact Hprinted.
      * rewrite Hlen. cbn [app]. lia.
      * constructor; [eexists; reflexivity|exact Hprinted].
      * cbn [length app]. rewrite Hlen. lia.
Qed.

End DisplayFacts.

Lemma tib_sizes_value maint_display_all_tib arch :
  tib_sizes maint_display_all_tib arch
  = (let size := if gdbarch_ptr_bit arch =? 64 then 8 else 4 in
     (size, (if maint_display_all_tib then 4096 else 14 * size),
      (if maint_display_all_tib then 4096 / size else 14), 14)).
Proof.
  unfold tib_sizes.
  destruct (gdbarch_ptr_bit arch =? 64), maint_display_all_tib; reflexivity.
Qed.

(** X13.  [display_one_tib] never reads outside the block it fetched nor
    outside [TIB_NAME], and prints only.  It returns -1 after a single
    line when the thread local base or the block cannot be read.
    Otherwise it returns 1 after a header, the fourteen named slots, and,
    when [maint show-all-tib] is on, one line for each further slot of
    the 4096-byte block that is not zero; with the setting off exactly
    fifteen lines are printed. *)
Theorem display_one_tib_lines
    (pr : printers) (maint_display_all_tib : bool) (t : target) (arch : gdbarch) :
  let size := if gdbarch_ptr_bit arch =? 64 then 8 else 4 in
  let tib_size := if maint_display_all_tib then 4096 else 14 * size in
  exists ev r,
    display_one_tib pr maint_display_all_tib t arch = (ev, Returned r)
    /\ Forall (fun e => exists text, e = Printed text) ev
    /\ match target_get_tib_address t with
       | None => r = -1 /\ length ev = 1%nat
       | Some thread_local_base =>
         match target_read_memory t thread_local_base tib_size with
         | None => r = -1 /\ length ev = 1%nat
         | Some tib =>
           r = 1
           /\ length ev
              = (15 + (if maint_display_all_tib
                       then length (unnamed_shown arch tib size 14
                                      (Z.to_nat (4096 / size - 14)))
                       else 0))%nat
         end
       end.
Proof.
  cbv zeta. unfold display_one_tib. rewrite tib_sizes_value.
  cbv beta iota zeta.
  set (size := if gdbarch_ptr_bit arch =? 64 then 8 else 4).
  assert (Hsize : size = 4 \/ size = 8)
    by (subst size; destruct (gdbarch_ptr_bit arch =? 64); tauto).
  destruct (target_get_tib_address t) as [base|].
  2:{ eexists _, _. split; [reflexivity|]. split.
      - repeat constructor. eexists; reflexivity.
      - split; reflexivity. }
  destruct (target_read_memory t base _) as [tib|] eqn:Hread.
  2:{ eexists _, _. split; [reflexivity|]. split.
      - repeat constructor. eexists; reflexivity.
      - split; reflexivity. }
  apply read_bytes_length in Hread.
  set (max := if maint_display_all_tib then 4096 / size else 14).
  destruct (for_each_slot pr arch tib size 14 (Z.to_nat max) 0)
    as (ev & Hrun & Hprinted & Hlen); [lia|lia|lia| |].
  { subst max. rewrite Hread.
    destruct maint_display_all_tib, Hsize as [->| ->]; cbn; lia. }
  cbn [bind ret app gdb_printf]. rewrite Hrun. cbn [bind ret app].
  eexists _, _. split; [reflexivity|]. split.
  - constructor; [eexists; reflexivity|]. now rewrite app_nil_r.
  - split; [reflexivity|]. cbn [length]. rewrite app_nil_r, Hlen.
    subst max. destruct maint_display_all_tib.
    + replace (Z.max 0 14) with 14 by lia.
      replace (0 + Z.of_nat (Z.to_nat (4096 / size)) - 14)
        with (4096 / size - 14)
        by (destruct Hsize as [->| ->]; cbn; lia).
      replace (Z.to_nat (Z.min (0 + Z.of_nat (Z.to_nat (4096 / size))) 14 - 0))
        with 14%nat by (destruct Hsize as [->| ->]; cbn; lia).
      lia.
    + change (Z.to_nat (0 + Z.of_nat (Z.to_nat 14) - Z.max 0 14)) with 0%nat.
      change (Z.to_nat (Z.min (0 + Z.of_nat (Z.to_nat 14)) 14 - 0)) with 14%nat.
      cbn [unnamed_shown length]. lia.
Qed.

End TibDisplayProps.

Module TypeLayoutProps.
Import TypeLayout InfoProc.

Lemma same_pointer_width arch arch' :
  gdbarch_ptr_bit arch = gdbarch_ptr_bit arch' ->
  windows_get_tlb_type arch = windows_get_tlb_type arch'
  /\ (forall int_bit,
        windows_get_siginfo_type arch int_bit
        = windows_get_siginfo_type arch' int_bit)
  /\ layout_for arch = layout_for arch'
  /\ SolibHook.hook_layout arch = SolibHook.hook_layout arch'.
Proof.
  intros H. unfold windows_get_tlb_type, windows_get_siginfo_type, layout_for,
    SolibHook.hook_layout.
  now rewrite H.
Qed.

(** X14.  On a 32-bit and on a 64-bit target alike, the offsets that
    [windows_info_proc], [read_unicode_string] and
    [windows_solib_create_inferior_hook] use to walk from the TIB to the
    PEB, the process parameters and their strings are the offsets the
    same members have in the types [windows_get_tlb_type] describes, and
    the offset of the PEB pointer is also the one it has in the
    [thread_information_32] and [thread_information_64] structures. *)
Theorem chain_offsets_match_described_types (arch : gdbarch) :
  gdbarch_ptr_bit arch = 32 \/ gdbarch_ptr_bit arch = 64 ->
  let types := windows_get_tlb_type arch in
  let l := layout_for arch in
  member_offset (tib_type types) "process_environment_block"%string
  = Some (peb_offset l)
  /\ TibDisplay.offsetof_thread_information (ptr_bytes l)
       "process_environment_block"%string = Some (peb_offset l)
  /\ member_offset (peb_type types) "process_parameters"%string = Some (pp_offset l)
  /\ member_offset (rupp_type types) "command_line"%string = Some (cmd_offset l)
  /\ member_offset (rupp_type types) "current_directory"%string = Some (cwd_offset l)
  /\ member_offset (rupp_type types) "image_path_name"%string = Some (exe_offset l)
  /\ member_offset (uni_str_type types) "length"%string = Some 0
  /\ member_offset (uni_str_type types) "buffer"%string = Some (ptr_bytes l)
  /\ (exists base_offset,
        SolibHook.hook_layout arch = (ptr_bytes l, peb_offset l, base_offset)
        /\ member_offset (peb_type types) "image_base_address"%string
           = Some base_offset)
  /\ type_length (tib_type types)
     = TibDisplay.sizeof_thread_information (ptr_bytes l).
Proof.
  intros [H|H]; cbv zeta.
  - destruct (same_pointer_width arch arch32 H) as (-> & _ & -> & ->).
    repeat split; try (vm_compute; reflexivity).
    eexists. split; vm_compute; reflexivity.
  - destruct (same_pointer_width arch arch64 H) as (-> & _ & -> & ->).
    repeat split; try (vm_compute; reflexivity).
    eexists. split; vm_compute; reflexivity.
Qed.

Lemma chain_offsets_match_described_types_witness :
  (gdbarch_ptr_bit arch64 = 32 \/ gdbarch_ptr_bit arch64 = 64)
  /\ member_offset (rupp_type (windows_get_tlb_type arch64)) "command_line"%string
     = Some 112.
Proof.
  assert (H : gdbarch_ptr_bit arch64 = 32 \/ gdbarch_ptr_bit arch64 = 64)
    by (right; reflexivity).
  split; [exact H|].
  destruct (chain_offsets_match_described_types arch64 H)
    as (_ & _ & _ & Hcmd & _).
  rewrite Hcmd. reflexivity.
Defined.

(** X15.  With a 32-bit [int], the EXCEPTION_RECORD type that
    [windows_get_siginfo_type] describes is 80 bytes long on a 32-bit
    target and 152 bytes long on a 64-bit one, the two sizes
    [windows_core_xfer_siginfo] works with; and the conversion that
    function makes of the stored 64-bit record puts every member of the
    32-bit type, and each of the 15 parameters, where it takes the bytes
    of the same member of the 64-bit type. *)
Theorem siginfo_type_matches_conversion (arch32' arch64' : gdbarch) :
  gdbarch_ptr_bit arch32' = 32 -> gdbarch_ptr_bit arch64' = 64 ->
  let narrow := windows_get_siginfo_type arch32' 32 in
  let wide := windows_get_siginfo_type arch64' 32 in
  type_length narrow = Siginfo.EXC_SIZE_32
  /\ type_length wide = Siginfo.EXC_SIZE_64
  /\ map member_name (fields narrow) = map member_name (fields wide)
  /\ (forall f, In f (fields narrow) ->
        exists p, member_offset narrow (member_name f) = Some p
                  /\ member_offset wide (member_name f)
                     = Some (Z.of_nat (Siginfo.source_index (Z.to_nat p))))
  /\ (exists params32 params64,
        member_offset narrow EmptyString = Some params32
        /\ member_offset wide EmptyString = Some params64
        /\ forall i, 0 <= i < 15 ->
             Z.of_nat (Siginfo.source_index (Z.to_nat (params32 + 4 * i)))
             = params64 + 8 * i).
Proof.
  intros H32 H64. cbv zeta.
  destruct (same_pointer_width arch32' arch32 H32) as (_ & -> & _).
  destruct (same_pointer_width arch64' arch64 H64) as (_ & -> & _).
  split; [vm_compute; reflexivity|]. split; [vm_compute; reflexivity|].
  split; [vm_compute; reflexivity|]. split.
  - intros f Hf. vm_compute in Hf.
    repeat (destruct Hf as [<-|Hf];
            [eexists; split; vm_compute; reflexivity|]).
    destruct Hf.
  - exists 20, 32. split; [vm_compute; reflexivity|].
    split; [vm_compute; reflexivity|].
    intros i Hi.
    assert (Hcases : i = 0 \/ i = 1 \/ i = 2 \/ i = 3 \/ i = 4 \/ i = 5 \/ i = 6
                     \/ i = 7 \/ i = 8 \/ i = 9 \/ i = 10 \/ i = 11 \/ i = 12
                     \/ i = 13 \/ i = 14) by lia.
    repeat (destruct Hcases as [->|Hcases]; [vm_compute; reflexivity|]).
    subst i. vm_compute. reflexivity.
Qed.

Lemma siginfo_type_matches_conversion_witness :
  gdbarch_ptr_bit arch32 = 32 /\ gdbarch_ptr_bit arch64 = 64
  /\ type_length (windows_get_siginfo_type arch32 32) = 80
  /\ type_length (windows_get_siginfo_type arch64 32) = 152.
Proof.
  split; [reflexivity|]. split; [reflexivity|].
  destruct (siginfo_type_matches_conversion arch32 arch64 eq_refl eq_refl)
    as (Hn & Hw & _).
  split; [exact Hn|exact Hw].
Defined.

End TypeLayoutProps.
